(** * Git_Code_Analyzer: the repository-to-summary pipeline

    A shallow embedding of [scrapper.py] ([GitHubScraper]) and
    [llm_summarizer.py] ([LLM_Summarize]), and the properties of the
    pipeline proved (or refuted) over it.

    Conventions.
    - A Python [str] is a [string] whose characters are the code points
      below 256.
    - The collaborators of the program (the file system, libmagic, md5, git,
      the tokenizer and the summarization model) are the fields of a record
      [World]: each answers the same question in the same way during a run,
      and each may fail on its own. Every call to one of them that the
      properties talk about is recorded as an [event] in the trace of the
      computation; log messages are not.
    - Python exceptions are values of type [exn], the instances of
      [Exception] (what [except Exception] catches); code that can raise
      lives in the monad [M], which carries the result or the exception
      together with the trace.
    - The files of the cache directory are a finite map that
      [analyze_repository] receives; its writes are events, replayed by
      [cache_after]. *)

From Stdlib Require Import Ascii String List NArith Lia Bool.
From stdpp Require Import gmap strings list.

Local Open Scope list_scope.

(** ** Python string primitives *)

Module PyStr.

Definition NL : ascii := "010"%char.
Definition SP : ascii := " "%char.

Definition chr (c : ascii) : string := String c EmptyString.

(** [str.isspace] for one character (code points below 256): TAB..CR,
    FS..US, space, NEL and NBSP. *)
Definition isspace (c : ascii) : bool :=
  let n := N_of_ascii c in
  ((9 <=? n) && (n <=? 13) || (28 <=? n) && (n <=? 32)
   || (n =? 133) || (n =? 160))%N.

(** [str.lower] for one character. *)
Definition lower_char (c : ascii) : ascii :=
  let n := N_of_ascii c in
  if ((65 <=? n) && (n <=? 90)
      || (192 <=? n) && (n <=? 222) && negb (n =? 215))%N
  then ascii_of_N (n + 32) else c.

Fixpoint lower (s : string) : string :=
  match s with
  | EmptyString => EmptyString
  | String c s' => String (lower_char c) (lower s')
  end.

(** [s.startswith(p)] and [s.endswith(p)]. *)
Definition startswith (s p : string) : bool := String.prefix p s.

Fixpoint endswith (s p : string) : bool :=
  match s with
  | EmptyString => String.eqb p EmptyString
  | String _ s' => String.eqb s p || endswith s' p
  end.

(** [sep.join(l)]. *)
Definition join (sep : string) (l : list string) : string :=
  String.concat sep l.

(** [s.split(sep)] for a separator of one character. *)
Fixpoint split_char (sep : ascii) (s : string) : list string :=
  match s with
  | EmptyString => [EmptyString]
  | String c s' =>
      if Ascii.eqb c sep then EmptyString :: split_char sep s'
      else match split_char sep s' with
           | l :: ls => String c l :: ls
           | [] => [chr c]
           end
  end.

(** [s.lstrip()], [s.rstrip()], [s.strip()]. *)
Fixpoint lstrip (s : string) : string :=
  match s with
  | EmptyString => EmptyString
  | String c s' => if isspace c then lstrip s' else s
  end.

Fixpoint rstrip (s : string) : string :=
  match s with
  | EmptyString => EmptyString
  | String c s' =>
      match rstrip s' with
      | EmptyString => if isspace c then EmptyString else chr c
      | r => String c r
      end
  end.

Definition strip (s : string) : string := rstrip (lstrip s).

(** Truth value of a [str]: the empty string is false. *)
Definition nonempty (s : string) : bool :=
  match s with EmptyString => false | _ => true end.

Definition starts_word (s : string) : bool :=
  match s with
  | EmptyString => false
  | String c _ => negb (isspace c)
  end.

(** [s.split()]: the maximal runs of non-whitespace characters. *)
Fixpoint split (s : string) : list string :=
  match s with
  | EmptyString => []
  | String c s' =>
      if isspace c then split s'
      else if starts_word s' then
             match split s' with
             | w :: ws => String c w :: ws
             | [] => [chr c]
             end
           else chr c :: split s'
  end.

(** [s.rfind(c)] for one character, as the suffix of [s] that starts at
    the last occurrence (with the index of that occurrence). *)
Fixpoint rfind_char (c : ascii) (s : string) : option (nat * string) :=
  match s with
  | EmptyString => None
  | String d s' =>
      match rfind_char c s' with
      | Some (i, r) => Some (S i, r)
      | None => if Ascii.eqb d c then Some (0, s) else None
      end
  end.

End PyStr.

(** ** POSIX path operations ([os.path], [pathlib]) *)

Module PosixPath.
Import PyStr.

Definition SEP : ascii := "/"%char.
Definition DOT : ascii := "."%char.

(** [os.path.join(a, b)]. *)
Definition join (a b : string) : string :=
  if startswith b (chr SEP) then b
  else if negb (nonempty a) || endswith a (chr SEP) then a +:+ b
  else a +:+ chr SEP +:+ b.

Fixpoint lstrip_sep (p : string) : string :=
  match p with
  | String c p' => if Ascii.eqb c SEP then lstrip_sep p' else p
  | EmptyString => EmptyString
  end.

(** The root that [PurePosixPath] splits off: two leading separators are
    kept as they are, any other number of them is one root. *)
Definition splitroot (p : string) : string * string :=
  if startswith p (chr SEP) then
    let stripped := lstrip_sep p in
    if Nat.eqb (String.length p - String.length stripped) 2
    then (chr SEP +:+ chr SEP, stripped)
    else (chr SEP, stripped)
  else (EmptyString, p).

Definition is_component (x : string) : bool :=
  nonempty x && negb (String.eqb x (chr DOT)).

Definition components (p : string) : list string :=
  List.filter is_component (split_char SEP (snd (splitroot p))).

(** [Path(p).parts]. *)
Definition parts (p : string) : list string :=
  let root := fst (splitroot p) in
  (if nonempty root then [root] else []) ++ components p.

(** [Path(p).name]. *)
Definition name (p : string) : string :=
  List.last (components p) EmptyString.

(** [Path(p).suffix]: the last dot of the name and what follows it, when
    that dot is neither the first nor the last character of the name. *)
Definition suffix (p : string) : string :=
  let nm := name p in
  match rfind_char DOT nm with
  | Some (i, r) =>
      if Nat.ltb 0 i && Nat.ltb i (String.length nm - 1) then r
      else EmptyString
  | None => EmptyString
  end.

Fixpoint all_dots (s : string) : bool :=
  match s with
  | EmptyString => true
  | String c s' => Ascii.eqb c DOT && all_dots s'
  end.

(** What follows the last separator of [p] ([p] itself when it has none). *)
Definition after_last_sep (p : string) : string :=
  match rfind_char SEP p with
  | Some (_, String _ r) => r
  | _ => p
  end.

(** [os.path.splitext(p)[1]]: the last dot after the last separator and
    what follows it, unless only dots stand before it in the file name. *)
Definition splitext_ext (p : string) : string :=
  let base := after_last_sep p in
  match rfind_char DOT base with
  | Some (i, r) =>
      if all_dots (String.substring 0 i base) then EmptyString else r
  | None => EmptyString
  end.

End PosixPath.

(** ** Regular-expression substitutions of [_preprocess_code] and the
       string operations of [_format_as_html] *)

Module Rewrite.
Import PyStr.

(** [blank_span s]: for [s] the text after a newline, the number of
    characters of [s] that the greedy [\s*\n] takes: up to and including the
    last newline of the leading run of whitespace. *)
Fixpoint blank_span (s : string) : option nat :=
  match s with
  | EmptyString => None
  | String c s' =>
      if isspace c then
        match blank_span s' with
        | Some n => Some (S n)
        | None => if Ascii.eqb c NL then Some 1 else None
        end
      else None
  end.

(** [re.sub(r'\n\s*\n', '\n', s)]; [skip] characters are still part of the
    match that was just replaced. *)
Fixpoint collapse_blank (skip : nat) (s : string) : string :=
  match s with
  | EmptyString => EmptyString
  | String c s' =>
      match skip with
      | S k => collapse_blank k s'
      | O =>
          if Ascii.eqb c NL then
            match blank_span s' with
            | Some n => String NL (collapse_blank n s')
            | None => String c (collapse_blank 0 s')
            end
          else String c (collapse_blank 0 s')
      end
  end.

(** [re.sub(r'#.*$', '', s, flags=re.MULTILINE)]: from a [#] to the end of
    its line. *)
Fixpoint strip_hash (in_comment : bool) (s : string) : string :=
  match s with
  | EmptyString => EmptyString
  | String c s' =>
      if Ascii.eqb c NL then String c (strip_hash false s')
      else if in_comment || Ascii.eqb c "#"%char then strip_hash true s'
      else String c (strip_hash false s')
  end.

(** [re.sub(r'//.*$', '', s, flags=re.MULTILINE)]. *)
Fixpoint strip_slashes (in_comment : bool) (s : string) : string :=
  match s with
  | EmptyString => EmptyString
  | String c s' =>
      if Ascii.eqb c NL then String c (strip_slashes false s')
      else if in_comment || startswith s "//" then strip_slashes true s'
      else String c (strip_slashes false s')
  end.

(** The number of characters up to and including the first [*/]. *)
Fixpoint find_close (s : string) : option nat :=
  match s with
  | EmptyString => None
  | String _ s' =>
      if startswith s "*/" then Some 2 else option_map S (find_close s')
  end.

Definition behead (s : string) : string :=
  match s with
  | EmptyString => EmptyString
  | String _ s' => s'
  end.

(** [re.sub(r'/\*.*?\*/', '', s, flags=re.DOTALL)]: at an opening [/*]
    that has a closing [*/] after it, both and all between them go ([s'] is
    the text from the star of the opening on). *)
Fixpoint strip_block (skip : nat) (s : string) : string :=
  match s with
  | EmptyString => EmptyString
  | String c s' =>
      match skip with
      | S k => strip_block k s'
      | O =>
          if startswith s "/*" then
            match find_close (behead s') with
            | Some n => strip_block (S n) s'
            | None => String c (strip_block 0 s')
            end
          else String c (strip_block 0 s')
      end
  end.

(** [s.split(sep)] for a separator of any positive length. *)
Fixpoint split_str (sep : string) (skip : nat) (s : string) : list string :=
  match s with
  | EmptyString => [EmptyString]
  | String c s' =>
      match skip with
      | S k => split_str sep k s'
      | O =>
          if startswith s sep
          then EmptyString :: split_str sep (String.length sep - 1) s'
          else match split_str sep 0 s' with
               | l :: ls => String c l :: ls
               | [] => [chr c]
               end
      end
  end.

(** [s.replace(old, new)] for a non-empty [old]. *)
Fixpoint replace (old new : string) (skip : nat) (s : string) : string :=
  match s with
  | EmptyString => EmptyString
  | String c s' =>
      match skip with
      | S k => replace old new k s'
      | O =>
          if startswith s old
          then new +:+ replace old new (String.length old - 1) s'
          else String c (replace old new 0 s')
      end
  end.

End Rewrite.

(** ** Values, exceptions, events and the monad of the program *)

Inductive pyval :=
| VNone
| VBool (b : bool)
| VInt (z : Z)
| VStr (s : string).

(** A record of the result list: a [dict] with string keys. *)
Abbreviation pydict := (gmap string pyval).

(** The truth value Python gives a value in [if], [and] and [not]. *)
Definition truthy (v : pyval) : bool :=
  match v with
  | VNone => false
  | VBool b => b
  | VInt z => negb (z =? 0)%Z
  | VStr s => PyStr.nonempty s
  end.

(** An instance of [Exception]: its class and [str(e)]. *)
Inductive exn := Exn (cls msg : string).

Definition str_exn (e : exn) : string := let 'Exn _ msg := e in msg.

Definition KeyError (key : string) : exn :=
  Exn "KeyError" ("'" +:+ key +:+ "'").
Definition ValueError (msg : string) : exn := Exn "ValueError" msg.

(** What a cache file holds: text [json.load] refuses, or a document with
    its two top-level fields, each of which may be missing. *)
Inductive cache_file :=
| Unparseable
| JsonDoc (summaries : option (list pydict)) (total_files : option nat).

(** The calls to the collaborators. *)
Inductive event :=
| EvClone (repo_url to_path : string)
| EvWalk (root : string)
| EvSniff (path : string)
| EvStat (path : string)
| EvRead (path : string)
| EvModel (text : string) (max_length min_length : nat)
| EvCacheRead (file : string)
| EvCacheStore (file : string) (doc : cache_file).

Definition M (A : Type) : Type := (exn + A) * list event.

Definition ret {A} (a : A) : M A := (inr a, []).
Definition raise {A} (e : exn) : M A := (inl e, []).
Definition emit (ev : event) : M unit := (inr tt, [ev]).

Definition bind {A B} (m : M A) (k : A -> M B) : M B :=
  match m with
  | (inl e, t) => (inl e, t)
  | (inr a, t) => let '(r, t') := k a in (r, t ++ t')
  end.

(** [try: m except Exception as e: h e]. *)
Definition try_except {A} (m : M A) (h : exn -> M A) : M A :=
  match m with
  | (inl e, t) => let '(r, t') := h e in (r, t ++ t')
  | (inr a, t) => (inr a, t)
  end.

Notation "x <- c1 ;; c2" := (bind c1 (fun x => c2))
  (at level 100, c1 at next level, right associativity).

(** [for x in l: s = body s x], where the body may raise. *)
Fixpoint for_each {A S} (l : list A) (s : S) (body : S -> A -> M S) : M S :=
  match l with
  | [] => ret s
  | x :: l' => s' <- body s x ;; for_each l' s' body
  end.

Definition result {A} (m : M A) : exn + A := fst m.
Definition trace {A} (m : M A) : list event := snd m.

(** [d[key]] and [d.get(key)]. *)
Definition getitem (d : pydict) (key : string) : M pyval :=
  match d !! key with
  | Some v => ret v
  | None => raise (KeyError key)
  end.

Definition dict_get (d : pydict) (key : string) : pyval :=
  default VNone (d !! key).

(** The collaborators. *)
Record World := {
  (** [hashlib.md5(s.encode()).hexdigest()] *)
  md5_hexdigest : string -> string;
  (** [magic.Magic(mime=True).from_file(path)] *)
  magic_from_file : string -> exn + string;
  (** [os.stat(path).st_size], which [os.path.getsize(path)] returns too *)
  os_stat_size : string -> exn + Z;
  (** [open(path, 'r', encoding='utf-8', errors='ignore').read()] *)
  read_text : string -> exn + string;
  (** [os.walk(top)]: the directories under [top] with their file names *)
  os_walk : string -> list (string * list string);
  (** [os.path.relpath(path, start)], for a [path] that is not empty *)
  relpath : string -> string -> string;
  (** [os.path.join(os.path.expanduser("~"), ".git_analyzer_cache")] *)
  cache_dir : string;
  (** the error of [open(file, 'w')], if any *)
  open_for_write : string -> option exn;
  (** [tempfile.mkdtemp()] *)
  mkdtemp : exn + string;
  (** the error of [Repo.clone_from(url, to_path)], if any *)
  clone_from : string -> string -> option exn;
  (** [self.tokenizer.encode(word)]: the token ids *)
  tokenizer_encode : string -> list nat;
  (** [self.summarizer(text, max_length=.., min_length=.., do_sample=False)
      [0]['summary_text']] *)
  pipeline : string -> nat -> nat -> exn + string
}.

(** ** [llm_summarizer.py]: class [LLM_Summarize] *)

Module LLM_Summarize.
Import PyStr.

Definition EMPTY_FILE : string := "Empty file".
Definition SINGLE_LINE : string := "Single line file - skipping summary".
Definition ERROR_SUMMARY : string := "Error generating summary".
Definition NO_VALID_FILES : string :=
  "<p>No valid code files found to summarize.</p>".

(** [_preprocess_code] *)
Definition _preprocess_code (code : string) : string :=
  let code := Rewrite.collapse_blank 0 code in
  let code := Rewrite.strip_hash false code in
  let code := Rewrite.strip_slashes false code in
  let code := Rewrite.strip_block 0 code in
  join (chr NL)
    (List.filter (fun line => nonempty (strip line)) (split_char NL code)).

Definition DQ : string := chr (ascii_of_nat 34).

(** The paragraphs of [_format_as_html] after the first. *)
Definition format_paragraph (para : string) : string :=
  let para := Rewrite.replace "Project" "<strong>Project</strong>" 0 para in
  let para := Rewrite.replace "Features" "<strong>Features</strong>" 0 para in
  let para :=
    Rewrite.replace "Technologies" "<strong>Technologies</strong>" 0 para in
  let para :=
    Rewrite.replace "Architecture" "<strong>Architecture</strong>" 0 para in
  let para :=
    Rewrite.replace "Components" "<strong>Components</strong>" 0 para in
  "<p>" +:+ para +:+ "</p>".

(** [_format_as_html] *)
Definition _format_as_html (text : string) : string :=
  let paragraphs := Rewrite.split_str (chr NL +:+ chr NL) 0 text in
  let formatted_paragraphs :=
    match paragraphs with
    | [] => []
    | para :: rest =>
        ("<h1>" +:+ para +:+ "</h1>") :: List.map format_paragraph rest
    end in
  "
        <div style=" +:+ DQ +:+
  "font-family: Arial, sans-serif; line-height: 1.6; max-width: 800px; margin: 0 auto; padding: 20px;"
  +:+ DQ +:+ ">
            <style>
                h1 { color: #2c3e50; margin-bottom: 20px; }
                p { color: #34495e; margin-bottom: 15px; }
                strong { color: #2980b9; }
            </style>
            " +:+ join EmptyString formatted_paragraphs +:+ "
        </div>
        ".

Section WithWorld.
Variable w : World.

(** One call of the summarization model. *)
Definition summarizer (text : string) (max_length min_length : nat)
  : M string :=
  (pipeline w text max_length min_length,
   [EvModel text max_length min_length]).

(** The body of the loop of [_chunk_text], on the state
    [(chunks, current_chunk, current_length)]. *)
Definition chunk_step (max_length : nat)
    (st : list string * list string * nat) (word : string)
  : list string * list string * nat :=
  let '(chunks, current_chunk, current_length) := st in
  let word_length := length (tokenizer_encode w word) in
  if max_length <? current_length + word_length
  then (chunks ++ [join (chr SP) current_chunk], [word], word_length)
  else (chunks, current_chunk ++ [word], current_length + word_length).

(** [_chunk_text] *)
Definition _chunk_text (text : string) (max_length : nat) : list string :=
  let words := split text in
  let '(chunks, current_chunk, _) :=
    fold_left (chunk_step max_length) words ([], [], 0) in
  match current_chunk with
  | [] => chunks
  | _ => chunks ++ [join (chr SP) current_chunk]
  end.

(** [summarize_code] *)
Definition summarize_code (code : string) : M string :=
  try_except
    (if negb (nonempty (strip code)) then ret EMPTY_FILE
     else
       let code := _preprocess_code code in
       if length (split_char NL code) <=? 1 then ret SINGLE_LINE
       else
         let chunks := _chunk_text code 1000 in
         summaries <-
           for_each chunks [] (fun summaries chunk =>
             summary <- summarizer chunk 46 30 ;;
             ret (summaries ++ [summary])) ;;
         ret (join (chr SP) summaries))
    (fun e => ret ERROR_SUMMARY).

(** The test of the loop of [summarize_repo]:
    [summary and summary != "Error generating summary"]. *)
Definition usable (summary : string) : bool :=
  nonempty summary && negb (String.eqb summary ERROR_SUMMARY).

(** [summarize_repo] *)
Definition summarize_repo (code_list : list string) : M string :=
  try_except
    (file_summaries <-
       for_each code_list [] (fun file_summaries code =>
         summary <- summarize_code code ;;
         ret (if usable summary then file_summaries ++ [summary]
              else file_summaries)) ;;
     match file_summaries with
     | [] => ret NO_VALID_FILES
     | _ =>
         let combined_summaries := join (chr NL +:+ chr NL) file_summaries in
         final_summary <- summarizer combined_summaries 500 100 ;;
         ret (_format_as_html final_summary)
     end)
    (fun e =>
       ret ("<p>Error generating repository summary: " +:+ str_exn e
            +:+ "</p>")).

End WithWorld.
End LLM_Summarize.

(** ** [scrapper.py]: class [GitHubScraper] *)

Module GitHubScraper.
Import PyStr.

Definition TOO_SHORT : string := "File too short - skipping summary".
Definition REPOSITORY_SUMMARY : string := "REPOSITORY_SUMMARY".
Definition NOT_CLONED : string :=
  "Repository not cloned. Call clone_repository first.".

(** The attributes of the object that the methods below read and write. *)
Record scraper := {
  temp_dir : option string;
  repo_path : option string
}.

Definition skip_dirs : gset string :=
  {[ ".git"; "node_modules"; "__pycache__"; "venv"; "env"; "dist"; "build";
     "target"; ".idea"; ".vscode"; "coverage"; "docs"; "tests"; "test" ]}.

Definition skip_extensions : gset string :=
  {[ ".min.js"; ".min.css"; ".map"; ".lock"; ".log"; ".sqlite"; ".db";
     ".pyc"; ".pyo"; ".pyd"; ".so"; ".dll"; ".dylib" ]}.

(** The chain of tests on the extension in [get_file_summary]. *)
Definition language_of (ext : string) : string :=
  if bool_decide (ext ∈ [".py"]) then "Python"
  else if bool_decide (ext ∈ [".js"; ".jsx"]) then "JavaScript"
  else if bool_decide (ext ∈ [".ts"; ".tsx"]) then "TypeScript"
  else if bool_decide (ext ∈ [".java"]) then "Java"
  else if bool_decide (ext ∈ [".cpp"; ".cc"; ".cxx"]) then "C++"
  else if bool_decide (ext ∈ [".c"]) then "C"
  else if bool_decide (ext ∈ [".go"]) then "Go"
  else if bool_decide (ext ∈ [".rb"]) then "Ruby"
  else if bool_decide (ext ∈ [".html"; ".htm"]) then "HTML"
  else if bool_decide (ext ∈ [".css"]) then "CSS"
  else if bool_decide (ext ∈ [".md"]) then "Markdown"
  else if bool_decide (ext ∈ [".json"]) then "JSON"
  else if bool_decide (ext ∈ [".xml"]) then "XML"
  else if bool_decide (ext ∈ [".yaml"; ".yml"]) then "YAML"
  else "Unknown".

(** The lines that count as code:
    [l.strip() and not l.strip().startswith(('#', '//', '/*', '*', '*/'))]. *)
Definition is_code_line (l : string) : bool :=
  nonempty (strip l)
  && negb (existsb (startswith (strip l)) ["#"; "//"; "/*"; "*"; "*/"]).

(** The file system after the cache writes of a trace. *)
Definition cache_after (cache : gmap string cache_file) (t : list event)
  : gmap string cache_file :=
  fold_left (fun c ev =>
    match ev with
    | EvCacheStore file doc => <[file := doc]> c
    | _ => c
    end) t cache.

Section WithWorld.
Variable w : World.

(** [get_cache_key] *)
Definition get_cache_key (self : scraper) (repo_url : string) : string :=
  md5_hexdigest w repo_url.

Definition cache_file_of (self : scraper) (repo_url : string) : string :=
  PosixPath.join (cache_dir w) (get_cache_key self repo_url +:+ ".json").

(** [get_cached_summaries], on the files [cache] of the cache directory. *)
Definition get_cached_summaries (self : scraper)
    (cache : gmap string cache_file) (repo_url : string)
  : M (option (list pydict * nat)) :=
  let cache_file := cache_file_of self repo_url in
  match cache !! cache_file with
  | Some doc =>
      try_except
        (_ <- emit (EvCacheRead cache_file) ;;
         match doc with
         | Unparseable => raise (Exn "JSONDecodeError" "Expecting value")
         | JsonDoc None _ => raise (KeyError "summaries")
         | JsonDoc (Some _) None => raise (KeyError "total_files")
         | JsonDoc (Some summaries) (Some total_files) =>
             ret (Some (summaries, total_files))
         end)
        (fun e => ret None)
  | None => ret None
  end.

(** [save_to_cache] *)
Definition save_to_cache (self : scraper) (repo_url : string)
    (summaries : list pydict) (total_files : nat) : M unit :=
  let cache_file := cache_file_of self repo_url in
  try_except
    (match open_for_write w cache_file with
     | Some e => raise e
     | None =>
         emit (EvCacheStore cache_file
                 (JsonDoc (Some summaries) (Some total_files)))
     end)
    (fun e => ret tt).

(** [clone_repository]: the object after the call, and the call. *)
Definition clone_repository (self : scraper) (repo_url : string)
  : scraper * M unit :=
  match mkdtemp w with
  | inl e => (self, raise e)
  | inr dir =>
      let self := {| temp_dir := Some dir; repo_path := repo_path self |} in
      match clone_from w repo_url dir with
      | Some e => (self, (inl e, [EvClone repo_url dir]))
      | None =>
          ({| temp_dir := Some dir; repo_path := Some dir |},
           emit (EvClone repo_url dir))
      end
  end.

(** [get_file_type] *)
Definition get_file_type (file_path : string) : M string :=
  try_except
    (magic_from_file w file_path, [EvSniff file_path])
    (fun e => ret "application/octet-stream").

(** [is_text_file] *)
Definition is_text_file (file_path : string) : M bool :=
  try_except
    (mime <- get_file_type file_path ;;
     ret (startswith mime "text/"
          || bool_decide (mime ∈ ["application/json"; "application/xml"])))
    (fun e => ret false).

Definition os_stat (file_path : string) : M Z :=
  (os_stat_size w file_path, [EvStat file_path]).

Definition read_file (file_path : string) : M string :=
  (read_text w file_path, [EvRead file_path]).

Definition has_hidden_part (file_path : string) : bool :=
  existsb (fun part => startswith part ".") (PosixPath.parts file_path).

Definition in_skip_dir (file_path : string) : bool :=
  bool_decide
    (set_Exists (fun skip_dir => skip_dir ∈ PosixPath.parts file_path)
       skip_dirs).

Definition has_skip_extension (file_path : string) : bool :=
  bool_decide (lower (PosixPath.suffix file_path) ∈ skip_extensions).

(** [should_skip_file] *)
Definition should_skip_file (file_path : string) : M bool :=
  if has_hidden_part file_path then ret true
  else
    is_text <- is_text_file file_path ;;
    if negb is_text then ret true
    else if in_skip_dir file_path then ret true
    else
      too_large <-
        try_except
          (size <- os_stat file_path ;; ret (100 * 1024 <? size)%Z)
          (fun e => ret true) ;;
      if (too_large : bool) then ret true
      else if has_skip_extension file_path then ret true
      else ret false.

(** The start directory of [os.path.relpath(file_path, self.repo_path)]:
    the current directory when [self.repo_path] is [None]. *)
Definition relpath_start (self : scraper) : string :=
  default "." (repo_path self).

(** [get_file_summary], on a [file_path] that is not empty, as the paths
    of the walk are. (On the empty path [os.stat] fails and
    [os.path.relpath] raises [ValueError], in the handler too, so that the
    call raises.) *)
Definition get_file_summary (self : scraper) (file_path : string)
  : M pydict :=
  try_except
    (file_size <- os_stat file_path ;;
     file_type <- get_file_type file_path ;;
     is_text <- is_text_file file_path ;;
     let summary : pydict :=
       {[ "path" := VStr (relpath w file_path (relpath_start self));
          "size" := VInt file_size;
          "type" := VStr file_type;
          "is_text" := VBool is_text;
          "summary" := VNone ]} in
     if is_text then
       content <- read_file file_path ;;
       let lines := split_char NL content in
       if length lines <=? 3 then
         ret (<["summary" := VStr TOO_SHORT]> summary)
       else
         let loc := length (List.filter is_code_line lines) in
         let summary := <["loc" := VInt (Z.of_nat loc)]> summary in
         summary <-
           (if 5 <? loc then
              text <- LLM_Summarize.summarize_code w content ;;
              ret (<["summary" := VStr text]> summary)
            else ret summary) ;;
         let ext := lower (PosixPath.splitext_ext file_path) in
         ret (<["language" := VStr (language_of ext)]> summary)
     else ret summary)
    (fun e =>
       ret {[ "path" := VStr (relpath w file_path (relpath_start self));
              "error" := VStr (str_exn e) ]}).

(** The test [not self.repo_path]. *)
Definition cloned_path (self : scraper) : option string :=
  match repo_path self with
  | Some p => if nonempty p then Some p else None
  | None => None
  end.

(** [get_all_files] *)
Definition get_all_files (self : scraper) : M (list string) :=
  match cloned_path self with
  | None => raise (ValueError NOT_CLONED)
  | Some top =>
      _ <- emit (EvWalk top) ;;
      for_each (os_walk w top) [] (fun files_to_analyze dir =>
        let '(root, files) := dir in
        for_each files files_to_analyze (fun files_to_analyze file =>
          let file_path := PosixPath.join root file in
          skip <- should_skip_file file_path ;;
          ret (if (skip : bool) then files_to_analyze
               else files_to_analyze ++ [file_path])))
  end.

(** The body of the loop of [analyze_repository] over the files, on the
    state [(summaries, code_contents)]. *)
Definition analyze_file (self : scraper)
    (st : list pydict * list string) (file_path : string)
  : M (list pydict * list string) :=
  let '(summaries, code_contents) := st in
  summary <- get_file_summary self file_path ;;
  let summaries := summaries ++ [summary] in
  is_text <- getitem summary "is_text" ;;
  if truthy is_text && negb (truthy (dict_get summary "error")) then
    content <- read_file file_path ;;
    ret (summaries, code_contents ++ [content])
  else ret (summaries, code_contents).

(** The record appended for the whole repository. *)
Definition repository_record (repo_summary : string) : pydict :=
  {[ "path" := VStr REPOSITORY_SUMMARY;
     "summary" := VStr repo_summary;
     "type" := VStr "html" ]}.

(** [analyze_repository], on the files [cache] of the cache directory. *)
Definition analyze_repository (self : scraper)
    (cache : gmap string cache_file) (repo_url : string)
  : M (list pydict * nat) :=
  cached_result <- get_cached_summaries self cache repo_url ;;
  match cached_result with
  | Some cached => ret cached
  | None =>
      match cloned_path self with
      | None => raise (ValueError NOT_CLONED)
      | Some _ =>
          try_except
            (files_to_analyze <- get_all_files self ;;
             let total_files := length files_to_analyze in
             if total_files =? 0 then ret ([], 0)
             else
               st <- for_each files_to_analyze ([], []) (analyze_file self) ;;
               let '(summaries, code_contents) := st in
               summaries <-
                 match code_contents with
                 | [] => ret summaries
                 | _ =>
                     repo_summary <-
                       LLM_Summarize.summarize_repo w code_contents ;;
                     ret (summaries ++ [repository_record repo_summary])
                 end ;;
               _ <- save_to_cache self repo_url summaries total_files ;;
               ret (summaries, total_files))
            (fun e => raise e)
      end
  end.

End WithWorld.
End GitHubScraper.

(** ** Concrete worlds

    A repository cloned to [/tmp/repo], given by its directories and their
    files, a tokenizer that gives every word one token per character and
    two special tokens, and a model that answers [summary of: <input>]. *)

Module Fixture.
Import PyStr GitHubScraper.

Record file := {
  f_name : string;
  f_mime : string;
  f_content : exn + string
}.

Definition TOP : string := "/tmp/repo".

Definition text_file (name content : string) : file :=
  {| f_name := name; f_mime := "text/plain"; f_content := inr content |}.

(** A file that libmagic and [os.stat] can look at and whose read fails. *)
Definition unreadable_file (name : string) : file :=
  {| f_name := name; f_mime := "text/plain";
     f_content := inl (Exn "OSError" "[Errno 5] Input/output error") |}.

Definition binary_file (name : string) : file :=
  {| f_name := name; f_mime := "application/octet-stream";
     f_content := inr "ELF" |}.

(** The files of a tree of directories, by their full paths. *)
Definition paths (tree : list (string * list file)) : list (string * file) :=
  List.flat_map (fun dir =>
    List.map (fun f => (PosixPath.join (fst dir) (f_name f), f)) (snd dir))
    tree.

Definition lookup_file (tree : list (string * list file)) (path : string)
  : option file :=
  option_map snd (List.find (fun pf => String.eqb (fst pf) path) (paths tree)).

Definition no_such_file (path : string) : exn :=
  Exn "FileNotFoundError" ("[Errno 2] No such file or directory: " +:+ path).

Definition tokens (word : string) : list nat :=
  repeat 0 (String.length word + 2).

Definition world_of (tree : list (string * list file)) : World := {|
  md5_hexdigest := fun url => "md5-of-" +:+ url;
  magic_from_file := fun path =>
    match lookup_file tree path with
    | Some f => inr (f_mime f)
    | None => inl (no_such_file path)
    end;
  os_stat_size := fun path =>
    match lookup_file tree path with
    | Some f => inr 64%Z
    | None => inl (no_such_file path)
    end;
  read_text := fun path =>
    match lookup_file tree path with
    | Some f => f_content f
    | None => inl (no_such_file path)
    end;
  os_walk := fun top =>
    if String.eqb top TOP
    then List.map (fun dir => (fst dir, List.map f_name (snd dir))) tree
    else [];
  relpath := fun path start =>
    if startswith path (start +:+ "/")
    then String.substring (S (String.length start)) (String.length path) path
    else path;
  cache_dir := "/home/user/.git_analyzer_cache";
  open_for_write := fun _ => None;
  mkdtemp := inr TOP;
  clone_from := fun _ _ => None;
  tokenizer_encode := tokens;
  pipeline := fun text _ _ => inr ("summary of: " +:+ text)
|}.

(** A repository whose files all lie in its top directory. *)
Definition world (files : list file) : World := world_of [(TOP, files)].

(** The scraper after [clone_repository]. *)
Definition cloned : scraper :=
  {| temp_dir := Some TOP; repo_path := Some TOP |}.

Definition URL : string := "https://github.com/user/project.git".

Definition ten_lines : string :=
  "import os
import sys
x = 1
y = 2
z = 3
def f():
    return x + y + z
def g():
    return f()
print(g())".

Definition three_lines : string :=
  "x = 1
y = 2
z = 3".

(** The same three lines, the last one ended by a newline. *)
Definition three_lines_nl : string :=
  "x = 1
y = 2
z = 3
".

Definition four_lines : string :=
  "a = 1
b = 2
c = 3
d = 4".

(** The worlds of the examples below. *)

(** An unreadable file is the first of two; it is the last of two. *)
Definition failing_first : World :=
  world [unreadable_file "b.py"; text_file "a.py" ten_lines].

Definition failing_last : World :=
  world [text_file "a.py" ten_lines; unreadable_file "b.py"].

(** One file under a directory of the deny list. *)
Definition vendored : World :=
  world_of [("/tmp/repo/node_modules", [text_file "x.js" ten_lines])].

Definition short_only : World := world [text_file "a.py" three_lines].

Definition short_with_newline : World :=
  world [text_file "a.py" three_lines_nl].

Definition small_only : World := world [text_file "a.py" four_lines].

Definition large_and_small : World :=
  world [text_file "main.py" ten_lines; text_file "util.py" four_lines].

Definition binary_only : World := world [binary_file "x.py"].

(** A world whose model raises on every call. *)
Definition model_down : World :=
  let w := world [text_file "a.py" ten_lines] in
  {| md5_hexdigest := md5_hexdigest w;
     magic_from_file := magic_from_file w;
     os_stat_size := os_stat_size w;
     read_text := read_text w;
     os_walk := os_walk w;
     relpath := relpath w;
     cache_dir := cache_dir w;
     open_for_write := open_for_write w;
     mkdtemp := mkdtemp w;
     clone_from := clone_from w;
     tokenizer_encode := tokenizer_encode w;
     pipeline := fun _ _ _ => inl (Exn "RuntimeError" "CUDA out of memory") |}.

(** A scraper that has cloned nothing, and a cache that holds a result
    for [URL]. *)
Definition fresh : scraper := {| temp_dir := None; repo_path := None |}.

Definition stored_record : pydict :=
  {[ "path" := VStr "a.py"; "size" := VInt 64; "type" := VStr "text/plain";
     "is_text" := VBool true; "summary" := VStr TOO_SHORT ]}.

Definition warm_cache : gmap string cache_file :=
  {[ cache_file_of (world []) fresh URL :=
       JsonDoc (Some [stored_record]) (Some 1) ]}.

End Fixture.


(** ** Notions used to state the properties *)

Module Notions.
Import PyStr LLM_Summarize GitHubScraper.

(** The call with the long output bound, made for the whole repository. *)
Definition is_repo_call (ev : event) : bool :=
  match ev with
  | EvModel _ max_length min_length =>
      (max_length =? 500) && (min_length =? 100)
  | _ => false
  end.

(** A call of the model, with either bound. *)
Definition is_model_call (ev : event) : bool :=
  match ev with
  | EvModel _ _ _ => true
  | _ => false
  end.

(** The list an analysis returns ([[]] when it raises). *)
Definition summaries_of (m : M (list pydict * nat)) : list pydict :=
  match result m with
  | inr (summaries, _) => summaries
  | inl _ => []
  end.

(** The extensions [get_file_summary] has a language for. *)
Definition mapped_extensions : list string :=
  [".py"; ".js"; ".jsx"; ".ts"; ".tsx"; ".java"; ".cpp"; ".cc"; ".cxx";
   ".c"; ".go"; ".rb"; ".html"; ".htm"; ".css"; ".md"; ".json"; ".xml";
   ".yaml"; ".yml"].

Fixpoint no_space (s : string) : bool :=
  match s with
  | EmptyString => true
  | String c s' => negb (isspace c) && no_space s'
  end.

(** A word: a non-empty string without whitespace. *)
Definition is_word (s : string) : bool := nonempty s && no_space s.

(** The name of the path ends in [ext], whatever the case of its
    letters. *)
Definition name_ends_in (file_path ext : string) : bool :=
  endswith (lower (PosixPath.name file_path)) ext.

(** The name of the path ends in an entry of the deny list of suffixes. *)
Definition has_denied_suffix (file_path : string) : bool :=
  bool_decide
    (set_Exists (fun ext => name_ends_in file_path ext = true)
       skip_extensions).

Section WithWorld.
Variable w : World.

(** The loop of [summarize_code] over the chunks. *)
Definition chunk_loop (chunks summaries : list string) : M (list string) :=
  for_each chunks summaries (fun summaries chunk =>
    summary <- summarizer w chunk 46 30 ;;
    ret (summaries ++ [summary])).

(** What [summarize_code] returns. *)
Definition summary_of (code : string) : string :=
  match result (summarize_code w code) with
  | inr s => s
  | inl _ => ERROR_SUMMARY
  end.

(** The loop of [summarize_repo] over the file contents. *)
Definition collect_loop (code_list file_summaries : list string)
  : M (list string) :=
  for_each code_list file_summaries (fun file_summaries code =>
    summary <- summarize_code w code ;;
    ret (if usable summary then file_summaries ++ [summary]
         else file_summaries)).

(** The MIME type [get_file_type] answers. *)
Definition mime_of (file_path : string) : string :=
  match magic_from_file w file_path with
  | inr mime => mime
  | inl _ => "application/octet-stream"
  end.

(** The test of [is_text_file] on a MIME type. *)
Definition textual (mime : string) : bool :=
  startswith mime "text/"
  || bool_decide (mime ∈ ["application/json"; "application/xml"]).

(** The size test of [should_skip_file]: a file whose size cannot be read
    is skipped like one that is too large. *)
Definition too_large (file_path : string) : bool :=
  match os_stat_size w file_path with
  | inr size => (100 * 1024 <? size)%Z
  | inl _ => true
  end.

(** The record [get_file_summary] starts from, and the one it returns on a
    failure. *)
Definition base_record (self : scraper) (file_path : string) (size : Z)
  : pydict :=
  {[ "path" := VStr (relpath w file_path (relpath_start self));
     "size" := VInt size;
     "type" := VStr (mime_of file_path);
     "is_text" := VBool (textual (mime_of file_path));
     "summary" := VNone ]}.

Definition error_record (self : scraper) (file_path : string) (e : exn)
  : pydict :=
  {[ "path" := VStr (relpath w file_path (relpath_start self));
     "error" := VStr (str_exn e) ]}.

Definition loc_of (content : string) : nat :=
  length (List.filter is_code_line (split_char NL content)).

Definition language_tag (file_path : string) : pyval :=
  VStr (language_of (lower (PosixPath.splitext_ext file_path))).

(** The calls made for one file: on the file itself, or of the model with
    the short output bound. *)
Definition touches (file_path : string) (ev : event) : Prop :=
  ev = EvStat file_path \/ ev = EvSniff file_path \/ ev = EvRead file_path
  \/ exists chunk, ev = EvModel chunk 46 30.

(** The calls [get_file_summary] makes before it looks at the content. *)
Definition probe (file_path : string) : list event :=
  [EvStat file_path; EvSniff file_path; EvSniff file_path].

(** The estimate of the token count of a word, of a list of words, and of
    a chunk: the sum over its words. *)
Definition word_length (word : string) : nat :=
  length (tokenizer_encode w word).

Definition words_length (words : list string) : nat :=
  list_sum (List.map word_length words).

Definition estimate (chunk : string) : nat := words_length (split chunk).

(** A chunk is within the budget, or it is one word that alone exceeds it. *)
Definition fits_or_single (max_length : nat) (words : list string) : Prop :=
  words_length words <= max_length
  \/ exists word, words = [word] /\ max_length < word_length word.

Definition state : Type := list string * list string * nat.

(** The words of a state of the loop, in order. *)
Definition flat (st : state) : list string :=
  let '(chunks, current_chunk, _) := st in
  List.concat (List.map split chunks) ++ current_chunk.

(** The invariant of the loop of [_chunk_text]. *)
Definition chunk_inv (max_length : nat) (st : state) : Prop :=
  let '(chunks, current_chunk, current_length) := st in
  Forall (fun word => is_word word = true) current_chunk
  /\ current_length = words_length current_chunk
  /\ fits_or_single max_length current_chunk
  /\ Forall (fun chunk => fits_or_single max_length (split chunk)) chunks.

(** After the first word the current chunk is never empty, so neither is
    a chunk closed later. *)
Definition started (st : state) : Prop :=
  let '(chunks, current_chunk, _) := st in
  current_chunk <> [] /\ ~ In EmptyString chunks
  /\ Forall (fun word => is_word word = true) current_chunk.

(** What [get_file_summary] returns. *)
Definition record_of (self : scraper) (file_path : string) : pydict :=
  match result (get_file_summary w self file_path) with
  | inr r => r
  | inl _ => ∅
  end.

(** Whether the processing of a file fails: its size or, for a text file,
    its content cannot be read. *)
Definition file_error (file_path : string) : option exn :=
  match os_stat_size w file_path with
  | inl e => Some e
  | inr _ =>
      if textual (mime_of file_path) then
        match read_text w file_path with
        | inl e => Some e
        | inr _ => None
        end
      else None
  end.

(** The content [analyze_repository] reads from a file. *)
Definition content_of (file_path : string) : string :=
  match read_text w file_path with
  | inr content => content
  | inl _ => EmptyString
  end.

(** The calls of one turn of the loop of [analyze_repository]. *)
Definition file_trace (self : scraper) (file_path : string) : list event :=
  trace (get_file_summary w self file_path)
  ++ match file_error file_path with
     | Some _ => []
     | None => if textual (mime_of file_path) then [EvRead file_path] else []
     end.

Definition has_error (file_path : string) : bool :=
  match file_error file_path with Some _ => true | None => false end.

Definition text_files (files : list string) : list string :=
  List.filter (fun file_path => textual (mime_of file_path)) files.

(** The paths [os.walk] yields, in its order. *)
Definition candidates (top : string) : list string :=
  List.flat_map (fun dir => List.map (PosixPath.join (fst dir)) (snd dir))
    (os_walk w top).

(** The decision of [should_skip_file]. *)
Definition skips (file_path : string) : bool :=
  has_hidden_part file_path
  || negb (textual (mime_of file_path))
  || in_skip_dir file_path
  || too_large file_path
  || has_skip_extension file_path.

Definition kept (paths : list string) : list string :=
  List.filter (fun file_path => negb (skips file_path)) paths.

Definition skip_traces (paths : list string) : list event :=
  List.flat_map (fun file_path => trace (should_skip_file w file_path)) paths.

(** What [summarize_repo] returns. *)
Definition repo_summary_of (code_contents : list string) : string :=
  match result (LLM_Summarize.summarize_repo w code_contents) with
  | inr s => s
  | inl _ => EmptyString
  end.

(** The cache has no usable entry for the URL. *)
Definition cache_miss (self : scraper) (cache : gmap string cache_file)
    (repo_url : string) : Prop :=
  result (get_cached_summaries w self cache repo_url) = inr None.

End WithWorld.
End Notions.

(** ** [app.py]: the functions that do not draw *)

Module App.
Import PyStr GitHubScraper.

(** [get_language_class] *)
Definition get_language_class (language : string) : string :=
  let language := lower language in
  if String.eqb language "python" then "python"
  else if String.eqb language "javascript" then "javascript"
  else if String.eqb language "typescript" then "typescript"
  else if String.eqb language "java" then "java"
  else if String.eqb language "c++" then "cpp"
  else if String.eqb language "c" then "c"
  else if String.eqb language "go" then "go"
  else if String.eqb language "ruby" then "ruby"
  else if String.eqb language "html" then "html"
  else if String.eqb language "css" then "css"
  else if String.eqb language "markdown" then "markdown"
  else if String.eqb language "json" then "json"
  else if String.eqb language "xml" then "xml"
  else if String.eqb language "yaml" then "yaml"
  else "unknown".

(** [a == b] on the values of a record: [True] is [1] and [False] is [0],
    values of other different types differ. *)
Definition py_eq (a b : pyval) : bool :=
  match a, b with
  | VNone, VNone => true
  | VBool x, VBool y => Bool.eqb x y
  | VInt x, VInt y => (x =? y)%Z
  | VBool x, VInt y | VInt y, VBool x => (y =? (if x then 1 else 0))%Z
  | VStr x, VStr y => String.eqb x y
  | _, _ => false
  end.

Definition TypeError (msg : string) : exn := Exn "TypeError" msg.

(** [total + v], for the running [total] of [sum], an [int]. *)
Definition py_add (total : Z) (v : pyval) : M Z :=
  match v with
  | VInt z => ret (total + z)%Z
  | VBool b => ret (total + (if b then 1 else 0))%Z
  | VNone =>
      raise (TypeError
               "unsupported operand type(s) for +: 'int' and 'NoneType'")
  | VStr _ =>
      raise (TypeError "unsupported operand type(s) for +: 'int' and 'str'")
  end.

(** The test [s['path'] != 'REPOSITORY_SUMMARY'] of [display_stats] and
    [main]. *)
Definition is_file_record (s : pydict) : M bool :=
  path <- getitem s "path" ;;
  ret (negb (py_eq path (VStr REPOSITORY_SUMMARY))).

(** [language_counts[lang] = language_counts.get(lang, 0) + 1], on a
    [dict] as the list of its items in the order of insertion. *)
Fixpoint count_up (lang : pyval) (language_counts : list (pyval * nat))
  : list (pyval * nat) :=
  match language_counts with
  | [] => [(lang, 1)]
  | (key, count) :: rest =>
      if py_eq key lang then (key, S count) :: rest
      else (key, count) :: count_up lang rest
  end.

(** What [display_stats] computes before it draws:
    [(total_files, total_size, total_loc, language_counts)]. *)
Definition display_stats (summaries : list pydict)
  : M (nat * Z * Z * list (pyval * nat)) :=
  files <-
    for_each summaries [] (fun files s =>
      keep <- is_file_record s ;;
      ret (if (keep : bool) then files ++ [s] else files)) ;;
  let total_files := length files in
  total_size <-
    for_each summaries 0%Z (fun total s =>
      keep <- is_file_record s ;;
      if (keep : bool) then size <- getitem s "size" ;; py_add total size
      else ret total) ;;
  total_loc <-
    for_each summaries 0%Z (fun total s =>
      keep <- is_file_record s ;;
      if (keep : bool) then py_add total (default (VInt 0) (s !! "loc"))
      else ret total) ;;
  language_counts <-
    for_each summaries [] (fun language_counts s =>
      keep <- is_file_record s ;;
      if keep && bool_decide (is_Some (s !! "language")) then
        lang <- getitem s "language" ;;
        ret (count_up lang language_counts)
      else ret language_counts) ;;
  ret (total_files, total_size, total_loc, language_counts).

(** The record that [main] shows as the overview of the repository:
    [next((s for s in summaries if s['path'] == 'REPOSITORY_SUMMARY'),
    None)]. *)
Fixpoint repo_summary (summaries : list pydict) : M (option pydict) :=
  match summaries with
  | [] => ret None
  | s :: rest =>
      path <- getitem s "path" ;;
      if py_eq path (VStr REPOSITORY_SUMMARY) then ret (Some s)
      else repo_summary rest
  end.

End App.

(** ** Further notions *)

Module MoreNotions.
Import PyStr LLM_Summarize GitHubScraper Notions App.

(** A cache document [get_cached_summaries] can answer from: both of its
    fields are there. *)
Definition full_doc (doc : cache_file) : bool :=
  match doc with
  | JsonDoc (Some _) (Some _) => true
  | _ => false
  end.

(** A write to the cache directory. *)
Definition is_store (ev : event) : bool :=
  match ev with
  | EvCacheStore _ _ => true
  | _ => false
  end.

(** The world in which [open(file, 'w')] answers as [open_w] says, all
    else being equal. *)
Definition with_open_for_write (w : World) (open_w : string -> option exn)
  : World :=
  {| md5_hexdigest := md5_hexdigest w;
     magic_from_file := magic_from_file w;
     os_stat_size := os_stat_size w;
     read_text := read_text w;
     os_walk := os_walk w;
     relpath := relpath w;
     cache_dir := cache_dir w;
     open_for_write := open_w;
     mkdtemp := mkdtemp w;
     clone_from := clone_from w;
     tokenizer_encode := tokenizer_encode w;
     pipeline := pipeline w |}.

(** The entries of [skip_extensions] that have a single dot. *)
Definition single_dot_skip_extensions : gset string :=
  {[ ".map"; ".lock"; ".log"; ".sqlite"; ".db";
     ".pyc"; ".pyo"; ".pyd"; ".so"; ".dll"; ".dylib" ]}.

(** [s.count(c)] for one character. *)
Fixpoint count_char (c : ascii) (s : string) : nat :=
  match s with
  | EmptyString => 0
  | String d s' => (if Ascii.eqb d c then 1 else 0) + count_char c s'
  end.

(** The keys of the record of a file that was processed without error, and
    the two more of a text file of more than three lines. *)
Definition base_keys : gset string :=
  {[ "path"; "size"; "type"; "is_text"; "summary" ]}.

Definition content_keys : gset string := {[ "loc"; "language" ]}.

(** A string of whitespace only: [not s.strip()]. *)
Fixpoint all_space (s : string) : bool :=
  match s with
  | EmptyString => true
  | String c s' => isspace c && all_space s'
  end.

(** The elements of a list up to the first bad one, that one included:
    those a loop reaches that stops at the first failure. *)
Fixpoint up_to_first {A} (bad : A -> bool) (l : list A) : list A :=
  match l with
  | [] => []
  | x :: rest => x :: (if bad x then [] else up_to_first bad rest)
  end.

(** The names of the languages [get_file_summary] tags a file with. *)
Definition language_names : list string :=
  ["Python"; "JavaScript"; "TypeScript"; "Java"; "C++"; "C"; "Go"; "Ruby";
   "HTML"; "CSS"; "Markdown"; "JSON"; "XML"; "YAML"; "Unknown"].

(** A record that [display_stats] and [main] take for the record of a
    file: it has a path, which is not [REPOSITORY_SUMMARY]. *)
Definition shown_as_file (s : pydict) : bool :=
  match s !! "path" with
  | Some path => negb (py_eq path (VStr REPOSITORY_SUMMARY))
  | None => false
  end.

(** The sum of a list of integers. *)
Definition sum_of (l : list Z) : Z := fold_right Z.add 0%Z l.

(** The integer under a key of a record (0 when there is none). *)
Definition int_field (key : string) (s : pydict) : Z :=
  match s !! key with
  | Some (VInt z) => z
  | _ => 0%Z
  end.

(** A record on which the sums of [display_stats] do not raise: its path
    is a string, its size is an integer when it is shown as a file, and
    its [loc], if any, is an integer. *)
Definition displayable (s : pydict) : Prop :=
  (exists path, s !! "path" = Some (VStr path))
  /\ (shown_as_file s = true -> exists size, s !! "size" = Some (VInt size))
  /\ (s !! "loc" = None \/ exists loc, s !! "loc" = Some (VInt loc)).

(** [sub in s]. *)
Fixpoint contains (s sub : string) : bool :=
  startswith s sub
  || match s with
     | EmptyString => false
     | String _ s' => contains s' sub
     end.

(** The frame [_format_as_html] puts around the formatted paragraphs. *)
Definition html_frame (body : string) : string :=
  "
        <div style=" +:+ DQ +:+
  "font-family: Arial, sans-serif; line-height: 1.6; max-width: 800px; margin: 0 auto; padding: 20px;"
  +:+ DQ +:+ ">
            <style>
                h1 { color: #2c3e50; margin-bottom: 20px; }
                p { color: #34495e; margin-bottom: 15px; }
                strong { color: #2980b9; }
            </style>
            " +:+ body +:+ "
        </div>
        ".

(** A code for which [summarize_code] does not call the model, and its
    answer then. *)
Definition trivial (code : string) : bool :=
  negb (nonempty (strip code))
  || (length (split_char NL (_preprocess_code code)) <=? 1).

Definition sentinel_of (code : string) : string :=
  if nonempty (strip code) then SINGLE_LINE else EMPTY_FILE.

Section WithWorld.
Variable w : World.

(** Whether the model answers a chunk of [summarize_code], and with
    what. *)
Definition answers (chunk : string) : bool :=
  match pipeline w chunk 46 30 with
  | inr _ => true
  | inl _ => false
  end.

Definition answer (chunk : string) : string :=
  match pipeline w chunk 46 30 with
  | inr summary => summary
  | inl _ => EmptyString
  end.

(** The chunks up to the first one on which the model raises, that one
    included. *)
Fixpoint reached (chunks : list string) : list string :=
  match chunks with
  | [] => []
  | chunk :: rest => chunk :: (if answers chunk then reached rest else [])
  end.

(** A file whose path relative to the repository is the path of the
    repository record. *)
Definition named_like_the_summary (self : scraper) (file_path : string)
  : bool :=
  String.eqb (relpath w file_path (relpath_start self)) REPOSITORY_SUMMARY.

(** The size [os.stat] reports (0 when it fails). *)
Definition size_of (file_path : string) : Z :=
  match os_stat_size w file_path with
  | inr size => size
  | inl _ => 0%Z
  end.

(** A text file of more than three lines: its record has the keys [loc]
    and [language]. *)
Definition has_content_keys (file_path : string) : bool :=
  textual (mime_of w file_path)
  && (3 <? length (split_char NL (content_of w file_path))).

(** The invariant of the loop of [_chunk_text] on the borders between
    chunks: the first word of a chunk did not fit in the chunk before it;
    so far that holds of the closed chunks, and of the last closed chunk
    and the chunk that is being filled. *)
Definition did_not_fit (max_length : nat) (chunk : string) (word : string)
  : Prop :=
  max_length < estimate w chunk + word_length w word.

Fixpoint closed_when_full (max_length : nat) (chunks : list string) : Prop :=
  match chunks with
  | a :: (b :: _) as rest =>
      match split b with
      | word :: _ => did_not_fit max_length a word
      | [] => False
      end
      /\ closed_when_full max_length rest
  | _ => True
  end.

Definition border_inv (max_length : nat) (st : state) : Prop :=
  let '(chunks, current_chunk, current_length) := st in
  Forall (fun word => is_word word = true) current_chunk
  /\ current_length = words_length w current_chunk
  /\ closed_when_full max_length chunks
  /\ match last chunks, current_chunk with
     | Some chunk, word :: _ => did_not_fit max_length chunk word
     | Some _, [] => False
     | None, _ => True
     end.

End WithWorld.

End MoreNotions.

(** ** [scrapper.py]: the constructor, the clean-up and [main]

    The program of the command line creates a scraper, clones, analyses
    and prints. Beside the calls of [World] it creates the cache directory,
    loads the model, removes the temporary directory and writes to the
    standard output: these are the [action]s of a run. *)

From Stdlib Require Import DecimalString.

Module Cli.
Import PyStr GitHubScraper.

(** The collaborators of the constructor and of [cleanup]. *)
Record Host := {
  (** the error of [os.makedirs(cache_dir, exist_ok=True)], if any *)
  makedirs : string -> option exn;
  (** the error of [LLM_Summarize()], which loads the tokenizer and the
      model, if any *)
  load_model : option exn;
  (** [os.path.exists(path)] *)
  path_exists : string -> bool;
  (** the error of [shutil.rmtree(path)], if any *)
  rmtree : string -> option exn
}.

Inductive action :=
| Call (ev : event)
| Input (prompt : string)
| Makedirs (dir : string)
| LoadModel
| Rmtree (dir : string)
| Print (text : string).

(** The monad of [main]: as [M], over the actions. *)
Definition P (A : Type) : Type := (exn + A) * list action.

Definition done {A} (a : A) : P A := (inr a, []).
Definition fail {A} (e : exn) : P A := (inl e, []).
Definition act (a : action) : P unit := (inr tt, [a]).

(** A computation of the pipeline, inside [main]. *)
Definition lift {A} (m : M A) : P A := (fst m, List.map Call (snd m)).

Definition and_then {A B} (m : P A) (k : A -> P B) : P B :=
  match m with
  | (inl e, t) => (inl e, t)
  | (inr a, t) => let '(r, t') := k a in (r, t ++ t')
  end.

(** [try: m except Exception as e: h e]. *)
Definition or_else {A} (m : P A) (h : exn -> P A) : P A :=
  match m with
  | (inl e, t) => let '(r, t') := h e in (r, t ++ t')
  | (inr a, t) => (inr a, t)
  end.

Notation "x <~ c1 ;; c2" := (and_then c1 (fun x => c2))
  (at level 100, c1 at next level, right associativity).

Fixpoint each {A} (l : list A) (body : A -> P unit) : P unit :=
  match l with
  | [] => done tt
  | x :: l' => _ <~ body x ;; each l' body
  end.

(** [print(text)] *)
Definition print (text : string) : P unit := act (Print text).

(** [str(v)], which is also how an f-string formats [v]. *)
Definition py_str (v : pyval) : string :=
  match v with
  | VNone => "None"
  | VBool true => "True"
  | VBool false => "False"
  | VInt z => NilZero.string_of_int (Z.to_int z)
  | VStr s => s
  end.

Definition str_nat (n : nat) : string := py_str (VInt (Z.of_nat n)).

(** [c * n] for a string of one character. *)
Fixpoint times (c : ascii) (n : nat) : string :=
  match n with
  | O => EmptyString
  | S n' => String c (times c n')
  end.

(** [d[key]] inside [main]. *)
Definition item (d : pydict) (key : string) : P pyval := lift (getitem d key).

(** [key in d] *)
Definition has_key (d : pydict) (key : string) : bool :=
  bool_decide (is_Some (d !! key)).

Section WithWorld.
Variable w : World.
Variable h : Host.

(** [GitHubScraper.__init__] *)
Definition __init__ : P scraper :=
  _ <~ act (Makedirs (cache_dir w)) ;;
  match makedirs h (cache_dir w) with
  | Some e => fail e
  | None =>
      or_else
        (_ <~ act LoadModel ;;
         match load_model h with
         | Some e => fail e
         | None => done {| temp_dir := None; repo_path := None |}
         end)
        (fun e => fail e)
  end.

(** [cleanup] *)
Definition cleanup (self : scraper) : P unit :=
  match temp_dir self with
  | Some dir =>
      if nonempty dir && path_exists h dir then
        or_else
          (_ <~ act (Rmtree dir) ;;
           match rmtree h dir with
           | Some e => fail e
           | None => done tt
           end)
          (fun e => done tt)
      else done tt
  | None => done tt
  end.

(** [__enter__] and [__exit__]; the latter returns [None], so that an
    exception of the block is raised again after it. *)
Definition __enter__ (self : scraper) : scraper := self.

Definition __exit__ (self : scraper) : P unit := cleanup self.

(** [with GitHubScraper() as scraper: block]. The block gives the scraper
    as it has left it, also when it raises. *)
Definition with_scraper {A} (block : scraper -> scraper * P A) : P A :=
  manager <~ __init__ ;;
  let self := __enter__ manager in
  let '(self, run) := block self in
  match run with
  | (inr a, t) => _ <~ (inr tt, t) ;; _ <~ __exit__ self ;; done a
  | (inl e, t) => _ <~ (inr tt, t) ;; _ <~ __exit__ self ;; fail e
  end.

(** The body of the loop of [main] over the records. *)
Definition print_summary (summary : pydict) : P unit :=
  path <~ item summary "path" ;;
  if App.py_eq path (VStr REPOSITORY_SUMMARY) then
    _ <~ print (String NL "Overall Repository Summary:") ;;
    _ <~ print (times "=" 80) ;;
    text <~ item summary "summary" ;;
    print (py_str text)
  else
    path <~ item summary "path" ;;
    _ <~ print (String NL "File: " +:+ py_str path) ;;
    type <~ item summary "type" ;;
    _ <~ print ("Type: " +:+ py_str type) ;;
    size <~ item summary "size" ;;
    _ <~ print ("Size: " +:+ py_str size +:+ " bytes") ;;
    _ <~ (if has_key summary "language" then
            language <~ item summary "language" ;;
            print ("Language: " +:+ py_str language)
          else done tt) ;;
    _ <~ (if has_key summary "loc" then
            loc <~ item summary "loc" ;;
            print ("Lines of Code: " +:+ py_str loc)
          else done tt) ;;
    is_text <~ item summary "is_text" ;;
    _ <~ (if truthy is_text then
            text <~ item summary "summary" ;;
            if truthy text then
              _ <~ print (String NL "Summary:") ;;
              _ <~ print (times "-" 40) ;;
              text <~ item summary "summary" ;;
              _ <~ print (py_str text) ;;
              print (times "-" 40)
            else done tt
          else done tt) ;;
    if has_key summary "error" then
      error <~ item summary "error" ;;
      print ("Error: " +:+ py_str error)
    else done tt.

(** The statements of [main] that print the result. *)
Definition print_results (summaries : list pydict) (total_files : nat)
  : P unit :=
  _ <~ print (String NL "Analyzed " +:+ str_nat total_files +:+ " files") ;;
  _ <~ print (String NL "Repository Analysis Results:") ;;
  _ <~ print (times "=" 80) ;;
  each summaries print_summary.

(** The block of the [with] statement of [main], on the files [cache] of
    the cache directory. *)
Definition block (repo_url : string) (cache : gmap string cache_file)
    (self : scraper) : scraper * P unit :=
  let '(self, cloning) := clone_repository w self repo_url in
  (self,
   _ <~ lift cloning ;;
   analysis <~ lift (analyze_repository w self cache repo_url) ;;
   let '(summaries, total_files) := analysis in
   print_results summaries total_files).

(** The [try] block of [main], for the URL that is typed in. *)
Definition main_try (repo_url : string) (cache : gmap string cache_file)
  : P unit :=
  _ <~ act (Input "Enter GitHub repository URL: ") ;;
  with_scraper (block repo_url cache).

(** [main] *)
Definition main (repo_url : string) (cache : gmap string cache_file)
  : P unit :=
  or_else (main_try repo_url cache)
    (fun e => print (String NL "An error occurred: " +:+ str_exn e)).

(** What a run has to show: the result of the analysis, or the exception
    of the constructor, of the clone or of the analysis. *)
Definition outcome (repo_url : string) (cache : gmap string cache_file)
  : exn + (list pydict * nat) :=
  match fst __init__ with
  | inl e => inl e
  | inr self =>
      let '(self, cloning) := clone_repository w self repo_url in
      match fst cloning with
      | inl e => inl e
      | inr _ => fst (analyze_repository w self cache repo_url)
      end
  end.

End WithWorld.

(** The line [main] prints for an exception. *)
Definition error_line (e : exn) : string :=
  String NL "An error occurred: " +:+ str_exn e.

(** The calls of the pipeline among the actions of a run, the directories
    removed, and the texts printed. *)
Definition calls (t : list action) : list event :=
  List.flat_map (fun a => match a with Call ev => [ev] | _ => [] end) t.

Definition removed (t : list action) : list string :=
  List.flat_map (fun a => match a with Rmtree dir => [dir] | _ => [] end) t.

Definition printed (t : list action) : list string :=
  List.flat_map (fun a => match a with Print text => [text] | _ => [] end) t.

(** The actions of a computation that only prints. *)
Definition only_prints (t : list action) : Prop :=
  calls t = [] /\ removed t = [].

(** A world in which the clone fails, all else being as in the repository
    of one short file. *)
Definition offline : World :=
  let w := Fixture.short_only in
  {| md5_hexdigest := md5_hexdigest w;
     magic_from_file := magic_from_file w;
     os_stat_size := os_stat_size w;
     read_text := read_text w;
     os_walk := os_walk w;
     relpath := relpath w;
     cache_dir := cache_dir w;
     open_for_write := open_for_write w;
     mkdtemp := mkdtemp w;
     clone_from := fun _ _ =>
       Some (Exn "GitCommandError" "Cmd('git') failed due to: exit code(128)");
     tokenizer_encode := tokenizer_encode w;
     pipeline := pipeline w |}.

(** A host on which nothing fails and every path exists. *)
Definition sound_host : Host :=
  {| makedirs := fun _ => None;
     load_model := None;
     path_exists := fun _ => true;
     rmtree := fun _ => None |}.

End Cli.

(** ** Laws of the monad *)

Section MonadFacts.
Context {A B : Type}.

Lemma result_bind (m : M A) (k : A -> M B) :
  result (bind m k) =
  match result m with inl e => inl e | inr a => result (k a) end.
Proof.
  destruct m as [[e|a] t]; simpl; [reflexivity|].
  destruct (k a); reflexivity.
Qed.

Lemma trace_bind (m : M A) (k : A -> M B) :
  trace (bind m k) =
  trace m ++ match result m with inl _ => [] | inr a => trace (k a) end.
Proof.
  destruct m as [[e|a] t]; simpl; [symmetry; apply app_nil_r|].
  destruct (k a); reflexivity.
Qed.

Lemma result_try_except (m : M A) (h : exn -> M A) :
  result (try_except m h) =
  match result m with inl e => result (h e) | inr a => inr a end.
Proof.
  destruct m as [[e|a] t]; simpl; [|reflexivity].
  destruct (h e); reflexivity.
Qed.

Lemma trace_try_except (m : M A) (h : exn -> M A) :
  trace (try_except m h) =
  trace m ++ match result m with inl e => trace (h e) | inr _ => [] end.
Proof.
  destruct m as [[e|a] t]; simpl; [|symmetry; apply app_nil_r].
  destruct (h e); reflexivity.
Qed.

Lemma M_eta (m : M A) : m = (result m, trace m).
Proof. destruct m; reflexivity. Qed.

Lemma bind_inr (a : A) (t : list event) (k : A -> M B) :
  bind (inr a, t) k = (result (k a), t ++ trace (k a)).
Proof. unfold bind. destruct (k a); reflexivity. Qed.

Lemma bind_inl (e : exn) (t : list event) (k : A -> M B) :
  bind (inl e, t) k = (inl e, t).
Proof. reflexivity. Qed.

Lemma try_except_inr (a : A) (t : list event) (h : exn -> M A) :
  try_except (inr a, t) h = (inr a, t).
Proof. reflexivity. Qed.

Lemma try_except_inl (e : exn) (t : list event) (h : exn -> M A) :
  try_except (inl e, t) h = (result (h e), t ++ trace (h e)).
Proof. unfold try_except. destruct (h e); reflexivity. Qed.

End MonadFacts.

Lemma result_ret {A} (a : A) : result (ret a) = inr a.
Proof. reflexivity. Qed.

Lemma trace_ret {A} (a : A) : trace (ret a) = [].
Proof. reflexivity. Qed.

(** A handler that returns makes the whole [try] return. *)
Lemma try_except_returns {A} (m : M A) (h : exn -> A) :
  exists a, result (try_except m (fun e => ret (h e))) = inr a.
Proof.
  rewrite result_try_except. destruct (result m) as [e|a]; eauto.
Qed.

(** Which events a computation can make. *)

Section TraceForall.
Variable P : event -> Prop.

Lemma Forall_trace_bind {A B} (m : M A) (k : A -> M B) :
  Forall P (trace m) -> (forall a, Forall P (trace (k a))) ->
  Forall P (trace (bind m k)).
Proof.
  intros Hm Hk. rewrite trace_bind. apply Forall_app. split; [exact Hm|].
  destruct (result m); [constructor|apply Hk].
Qed.

Lemma Forall_trace_for_each {A S} (body : S -> A -> M S) (l : list A) :
  (forall s x, In x l -> Forall P (trace (body s x))) ->
  forall s, Forall P (trace (for_each l s body)).
Proof.
  induction l as [|x l IH]; intros Hbody s; cbn [for_each].
  - constructor.
  - apply Forall_trace_bind; [apply Hbody; left; reflexivity|].
    intros s'. apply IH. intros s0 y Hy. apply Hbody. right. exact Hy.
Qed.

End TraceForall.

(** Runs the binds and handlers whose first computation is known. *)
Ltac mstep :=
  repeat (progress
    (rewrite ?bind_inr, ?bind_inl, ?try_except_inr, ?try_except_inl;
     cbn [ret raise emit result trace fst snd app])).

Arguments bind : simpl never.
Arguments try_except : simpl never.

(** ** The summarizer *)

Module SummarizerFacts.
Import PyStr LLM_Summarize Notions.

Section WithWorld.
Variable w : World.

Lemma chunk_loop_cons c chunks summaries :
  chunk_loop w (c :: chunks) summaries =
  match pipeline w c 46 30 with
  | inl e => (inl e, [EvModel c 46 30])
  | inr summary =>
      (result (chunk_loop w chunks (summaries ++ [summary])),
       EvModel c 46 30 :: trace (chunk_loop w chunks (summaries ++ [summary])))
  end.
Proof.
  unfold chunk_loop. cbn [for_each].
  rewrite (M_eta (bind _ _)), !result_bind, !trace_bind.
  unfold summarizer, result, trace; cbn [fst snd].
  destruct (pipeline w c 46 30) as [e|summary]; reflexivity.
Qed.

(** A call of the loop that raised ends the loop with an error. *)
Lemma chunk_loop_raised chunks : forall summaries chunk e,
  In (EvModel chunk 46 30) (trace (chunk_loop w chunks summaries)) ->
  pipeline w chunk 46 30 = inl e ->
  exists e', result (chunk_loop w chunks summaries) = inl e'.
Proof.
  induction chunks as [|c chunks IH]; intros summaries chunk e Hin Hfail.
  - destruct Hin.
  - rewrite chunk_loop_cons in *.
    destruct (pipeline w c 46 30) as [e0|s] eqn:Hc.
    + eexists; reflexivity.
    + destruct Hin as [Heq|Hin].
      * inversion Heq; subst. congruence.
      * eapply IH; eauto.
Qed.

(** The loop calls the model with the short output bound only. *)
Lemma chunk_loop_events chunks : forall summaries ev,
  In ev (trace (chunk_loop w chunks summaries)) ->
  exists chunk, ev = EvModel chunk 46 30.
Proof.
  induction chunks as [|c chunks IH]; intros summaries ev Hin.
  - destruct Hin.
  - rewrite chunk_loop_cons in Hin.
    destruct (pipeline w c 46 30) as [e0|s].
    + destruct Hin as [<-|[]]. eauto.
    + destruct Hin as [<-|Hin]; eauto.
Qed.

(** The body of the [try] of [summarize_code]. *)
Lemma summarize_code_unfold code :
  summarize_code w code =
  try_except
    (if negb (nonempty (strip code)) then ret EMPTY_FILE
     else if length (split_char NL (_preprocess_code code)) <=? 1
          then ret SINGLE_LINE
          else summaries <-
                 chunk_loop w (_chunk_text w (_preprocess_code code) 1000) [] ;;
               ret (join (chr SP) summaries))
    (fun e => ret ERROR_SUMMARY).
Proof. reflexivity. Qed.

Lemma summarize_code_returns code :
  exists s, result (summarize_code w code) = inr s.
Proof. apply (try_except_returns _ (fun _ => ERROR_SUMMARY)). Qed.

Lemma summarize_code_events code ev :
  In ev (trace (summarize_code w code)) ->
  exists chunk, ev = EvModel chunk 46 30.
Proof.
  rewrite summarize_code_unfold, trace_try_except.
  destruct (negb (nonempty (strip code))); [intros []|].
  destruct (_ <=? 1); [intros []|].
  rewrite result_bind, trace_bind. simpl.
  intros Hin. apply in_app_or in Hin as [Hin|Hin].
  - apply in_app_or in Hin as [Hin|Hin].
    + eapply chunk_loop_events; eauto.
    + destruct (result (chunk_loop w _ _)); destruct Hin.
  - destruct (result (chunk_loop w _ _)); destruct Hin.
Qed.

Lemma summarize_code_raised code chunk e :
  In (EvModel chunk 46 30) (trace (summarize_code w code)) ->
  pipeline w chunk 46 30 = inl e ->
  result (summarize_code w code) = inr ERROR_SUMMARY.
Proof.
  rewrite summarize_code_unfold, trace_try_except, result_try_except.
  destruct (negb (nonempty (strip code))); [intros []|].
  destruct (_ <=? 1); [intros []|].
  rewrite result_bind, trace_bind. simpl.
  intros Hin Hfail.
  assert (In (EvModel chunk 46 30)
            (trace (chunk_loop w (_chunk_text w (_preprocess_code code) 1000) [])))
    as Hloop.
  { apply in_app_or in Hin as [Hin|Hin].
    - apply in_app_or in Hin as [Hin|Hin]; [exact Hin|].
      destruct (result (chunk_loop w _ _)); destruct Hin.
    - destruct (result (chunk_loop w _ _)); destruct Hin. }
  destruct (chunk_loop_raised _ _ _ _ Hloop Hfail) as [e' ->].
  reflexivity.
Qed.

Lemma summarize_code_eta code :
  summarize_code w code = (inr (summary_of w code), trace (summarize_code w code)).
Proof.
  unfold summary_of. destruct (summarize_code_returns code) as [s Hs].
  rewrite Hs, (M_eta (summarize_code w code)) at 1. rewrite Hs. reflexivity.
Qed.

Lemma collect_loop_eq code_list : forall file_summaries,
  collect_loop w code_list file_summaries =
  (inr (file_summaries ++ List.filter usable (List.map (summary_of w) code_list)),
   List.concat (List.map (fun code => trace (summarize_code w code)) code_list)).
Proof.
  induction code_list as [|code code_list IH]; intros file_summaries.
  - cbn. rewrite app_nil_r. reflexivity.
  - unfold collect_loop in *. cbn [for_each List.map List.filter List.concat].
    pose proof (summarize_code_eta code) as Hcode.
    set (t := trace (summarize_code w code)) in *.
    rewrite Hcode, bind_inr. cbn [ret result trace fst snd].
    rewrite app_nil_r, bind_inr, IH. cbn [result trace fst snd].
    destruct (usable (summary_of w code)); [|reflexivity].
    rewrite <- app_assoc. reflexivity.
Qed.

(** [summarize_repo] in closed form. *)
Lemma summarize_repo_eq code_list :
  let file_summaries := List.filter usable (List.map (summary_of w) code_list) in
  let per_file :=
    List.concat (List.map (fun code => trace (summarize_code w code)) code_list) in
  let combined := join (chr NL +:+ chr NL) file_summaries in
  summarize_repo w code_list =
  match file_summaries with
  | [] => (inr NO_VALID_FILES, per_file)
  | _ =>
      (inr match pipeline w combined 500 100 with
           | inr final_summary => _format_as_html final_summary
           | inl e =>
               "<p>Error generating repository summary: " +:+ str_exn e
               +:+ "</p>"
           end,
       per_file ++ [EvModel combined 500 100])
  end.
Proof.
  intros file_summaries per_file combined.
  unfold summarize_repo. fold (collect_loop w code_list []).
  rewrite collect_loop_eq, bind_inr. cbn [app]. fold file_summaries per_file.
  destruct file_summaries as [|s0 rest] eqn:Hfs.
  - cbn [ret result trace fst snd]. rewrite app_nil_r. apply try_except_inr.
  - fold combined. unfold summarizer.
    destruct (pipeline w combined 500 100) as [e|final].
    + rewrite bind_inl. cbn [result trace fst snd].
      rewrite try_except_inl. cbn [ret result trace fst snd].
      rewrite app_nil_r. reflexivity.
    + rewrite bind_inr. cbn [ret result trace fst snd].
      rewrite app_nil_r. apply try_except_inr.
Qed.

Lemma summarize_repo_returns code_list :
  exists s, result (summarize_repo w code_list) = inr s.
Proof.
  rewrite summarize_repo_eq.
  destruct (List.filter usable _); eexists; reflexivity.
Qed.

End WithWorld.

Lemma no_repo_call_filter (t : list event) :
  Forall (fun ev => is_repo_call ev = false) t ->
  List.filter is_repo_call t = [].
Proof.
  induction 1 as [|ev t Hev _ IH]; [reflexivity|].
  cbn. rewrite Hev. exact IH.
Qed.

Lemma summarize_code_no_repo_call w code :
  Forall (fun ev => is_repo_call ev = false) (trace (summarize_code w code)).
Proof.
  apply List.Forall_forall. intros ev Hin.
  apply summarize_code_events in Hin as [chunk ->]. reflexivity.
Qed.

Lemma per_file_no_repo_call w code_list :
  Forall (fun ev => is_repo_call ev = false)
    (List.concat (List.map (fun code => trace (summarize_code w code)) code_list)).
Proof.
  induction code_list as [|code code_list IH]; cbn; [constructor|].
  apply Forall_app. split; [apply summarize_code_no_repo_call|exact IH].
Qed.

End SummarizerFacts.

(** ** The scraper *)

Module ScraperFacts.
Import PyStr GitHubScraper Notions SummarizerFacts.

Section WithWorld.
Variable w : World.

Lemma get_file_type_eq file_path :
  get_file_type w file_path = (inr (mime_of w file_path), [EvSniff file_path]).
Proof.
  unfold get_file_type, mime_of.
  destruct (magic_from_file w file_path); reflexivity.
Qed.

Lemma is_text_file_eq file_path :
  is_text_file w file_path =
  (inr (textual (mime_of w file_path)), [EvSniff file_path]).
Proof.
  unfold is_text_file. rewrite get_file_type_eq, bind_inr. reflexivity.
Qed.

(** [should_skip_file] in closed form: the tests in the order in which
    they are made, each with the calls made up to it. *)
Lemma should_skip_file_eq file_path :
  should_skip_file w file_path =
  if has_hidden_part file_path then (inr true, [])
  else if negb (textual (mime_of w file_path))
       then (inr true, [EvSniff file_path])
  else if in_skip_dir file_path then (inr true, [EvSniff file_path])
  else if too_large w file_path
       then (inr true, [EvSniff file_path; EvStat file_path])
  else (inr (has_skip_extension file_path),
        [EvSniff file_path; EvStat file_path]).
Proof.
  unfold should_skip_file.
  destruct (has_hidden_part file_path); [reflexivity|].
  rewrite is_text_file_eq, bind_inr.
  destruct (textual (mime_of w file_path)); [|reflexivity].
  cbn [negb]. destruct (in_skip_dir file_path); [reflexivity|].
  unfold too_large, os_stat.
  destruct (os_stat_size w file_path) as [e|size].
  - reflexivity.
  - rewrite bind_inr. cbn [ret result trace fst snd app].
    rewrite try_except_inr, bind_inr.
    destruct (100 * 1024 <? size)%Z; [reflexivity|].
    destruct (has_skip_extension file_path); reflexivity.
Qed.

(** [get_file_summary] in closed form. *)
Lemma get_file_summary_eq self file_path :
  get_file_summary w self file_path =
  match os_stat_size w file_path with
  | inl e => (inr (error_record w self file_path e), [EvStat file_path])
  | inr size =>
      let summary := base_record w self file_path size in
      if textual (mime_of w file_path) then
        match read_text w file_path with
        | inl e =>
            (inr (error_record w self file_path e),
             probe file_path ++ [EvRead file_path])
        | inr content =>
            if length (split_char NL content) <=? 3 then
              (inr (<["summary" := VStr TOO_SHORT]> summary),
               probe file_path ++ [EvRead file_path])
            else
              let summary :=
                <["loc" := VInt (Z.of_nat (loc_of content))]> summary in
              if 5 <? loc_of content then
                (inr (<["language" := language_tag file_path]>
                        (<["summary" := VStr (summary_of w content)]> summary)),
                 probe file_path ++ [EvRead file_path]
                 ++ trace (LLM_Summarize.summarize_code w content))
              else
                (inr (<["language" := language_tag file_path]> summary),
                 probe file_path ++ [EvRead file_path])
        end
      else (inr summary, probe file_path)
  end.
Proof.
  unfold get_file_summary, os_stat, read_file, probe.
  destruct (os_stat_size w file_path) as [e|size].
  { rewrite bind_inl, try_except_inl. reflexivity. }
  rewrite bind_inr, get_file_type_eq, bind_inr, is_text_file_eq, bind_inr.
  fold (base_record w self file_path size).
  destruct (textual (mime_of w file_path)).
  2: { cbn [ret result trace fst snd app]. apply try_except_inr. }
  destruct (read_text w file_path) as [e|content].
  { rewrite bind_inl. cbn [ret result trace fst snd app].
    rewrite try_except_inl. reflexivity. }
  rewrite bind_inr. fold (loc_of content).
  destruct (length (split_char NL content) <=? 3).
  { cbn [ret result trace fst snd app]. apply try_except_inr. }
  destruct (5 <? loc_of content).
  - pose proof (summarize_code_eta w content) as Hcode.
    set (t := trace (LLM_Summarize.summarize_code w content)) in *.
    rewrite Hcode. mstep. rewrite !app_nil_r. reflexivity.
  - mstep. reflexivity.
Qed.

(** [get_cached_summaries] in closed form: only a document with both
    fields is a hit. *)
Lemma get_cached_summaries_eq self cache repo_url :
  get_cached_summaries w self cache repo_url =
  match cache !! cache_file_of w self repo_url with
  | Some (JsonDoc (Some summaries) (Some total_files)) =>
      (inr (Some (summaries, total_files)),
       [EvCacheRead (cache_file_of w self repo_url)])
  | Some _ => (inr None, [EvCacheRead (cache_file_of w self repo_url)])
  | None => (inr None, [])
  end.
Proof.
  unfold get_cached_summaries.
  destruct (cache !! cache_file_of w self repo_url) as [[|[s|] [t|]]|];
    reflexivity.
Qed.

Lemma save_to_cache_eq self repo_url summaries total_files :
  save_to_cache w self repo_url summaries total_files =
  (inr tt,
   match open_for_write w (cache_file_of w self repo_url) with
   | Some _ => []
   | None =>
       [EvCacheStore (cache_file_of w self repo_url)
          (JsonDoc (Some summaries) (Some total_files))]
   end).
Proof.
  unfold save_to_cache.
  destruct (open_for_write w (cache_file_of w self repo_url)); reflexivity.
Qed.

End WithWorld.

End ScraperFacts.

(** ** Words and chunks *)

Module ChunkFacts.
Import PyStr LLM_Summarize Notions.

Lemma append_cons c s t : String c s +:+ t = String c (s +:+ t).
Proof. reflexivity. Qed.

Lemma append_nil_l t : EmptyString +:+ t = t.
Proof. reflexivity. Qed.

Lemma isspace_SP : isspace SP = true.
Proof. reflexivity. Qed.

Lemma split_cons c s :
  split (String c s) =
  if isspace c then split s
  else if starts_word s then
         match split s with
         | word :: rest => String c word :: rest
         | [] => [chr c]
         end
       else chr c :: split s.
Proof. reflexivity. Qed.

Lemma is_word_cons c s :
  isspace c = false -> no_space s = true -> is_word (String c s) = true.
Proof. intros Hc Hs. unfold is_word. cbn. rewrite Hc, Hs. reflexivity. Qed.

Lemma is_word_inv s :
  is_word s = true ->
  exists c s', s = String c s' /\ isspace c = false /\ no_space s' = true.
Proof.
  destruct s as [|c s']; [discriminate|]. unfold is_word. cbn.
  intros H. apply andb_prop in H as [Hc Hs]. apply negb_true_iff in Hc. eauto.
Qed.

(** [s.split()] yields words. *)
Lemma split_words s : Forall (fun word => is_word word = true) (split s).
Proof.
  induction s as [|c s IH]; cbn [split]; [constructor|].
  destruct (isspace c) eqn:Hc; [exact IH|].
  destruct (starts_word s).
  - destruct (split s) as [|word rest].
    + repeat constructor. apply is_word_cons; auto.
    + inversion IH as [|? ? Hword Hrest]; subst. constructor; [|exact Hrest].
      apply is_word_inv in Hword as (c' & s' & -> & Hc' & Hs').
      apply is_word_cons; [exact Hc|]. cbn. rewrite Hc', Hs'. reflexivity.
  - constructor; [|exact IH]. apply is_word_cons; auto.
Qed.

Lemma split_no_space_then_space c s rest :
  isspace c = false -> no_space s = true ->
  split (String c s +:+ String SP rest) = String c s :: split rest.
Proof.
  revert c. induction s as [|c' s IH]; intros c Hc Hs.
  - rewrite append_cons, append_nil_l. cbn [split starts_word].
    rewrite Hc, isspace_SP. reflexivity.
  - cbn in Hs. apply andb_prop in Hs as [Hc' Hs]. apply negb_true_iff in Hc'.
    rewrite append_cons, split_cons, Hc.
    rewrite append_cons. cbn [starts_word]. rewrite Hc'. cbn [negb].
    rewrite <- append_cons, IH by assumption. reflexivity.
Qed.

Lemma split_word word : is_word word = true -> split word = [word].
Proof.
  intros H. apply is_word_inv in H as (c & s & -> & Hc & Hs).
  revert c Hc. induction s as [|c' s IH]; intros c Hc.
  - cbn. rewrite Hc. reflexivity.
  - cbn in Hs. apply andb_prop in Hs as [Hc' Hs]. apply negb_true_iff in Hc'.
    rewrite (split_cons c (String c' s)), Hc. cbn [starts_word].
    rewrite Hc'. cbn [negb]. rewrite IH by assumption. reflexivity.
Qed.

(** Joining words with a space and splitting again gives the words back. *)
Lemma split_join words :
  Forall (fun word => is_word word = true) words ->
  split (join (chr SP) words) = words.
Proof.
  induction 1 as [|word rest Hword Hrest IH]; [reflexivity|].
  destruct rest as [|word' rest].
  - cbn. apply split_word, Hword.
  - change (join (chr SP) (word :: word' :: rest))
      with (word +:+ String SP (join (chr SP) (word' :: rest))).
    apply is_word_inv in Hword as (c & s & -> & Hc & Hs).
    rewrite split_no_space_then_space, IH by assumption. reflexivity.
Qed.

Lemma join_nonempty word rest :
  is_word word = true -> join (chr SP) (word :: rest) <> EmptyString.
Proof.
  intros H. apply is_word_inv in H as (c & s & -> & _ & _).
  destruct rest; discriminate.
Qed.

Section WithWorld.
Variable w : World.

Lemma words_length_app l1 l2 :
  words_length w (l1 ++ l2) = words_length w l1 + words_length w l2.
Proof. unfold words_length. rewrite List.map_app, list_sum_app. reflexivity. Qed.

Lemma chunk_step_inv max_length st word :
  chunk_inv w max_length st -> is_word word = true ->
  chunk_inv w max_length (chunk_step w max_length st word)
  /\ flat (chunk_step w max_length st word) = flat st ++ [word].
Proof.
  destruct st as [[chunks cur] len]. intros (Hwords & Hlen & Hcur & Hchunks) Hword.
  unfold chunk_step. fold (word_length w word).
  destruct (max_length <? len + word_length w word) eqn:Hover.
  - apply Nat.ltb_lt in Hover. split.
    + repeat split.
      * repeat constructor. exact Hword.
      * unfold words_length. cbn. lia.
      * destruct (Nat.le_gt_cases (word_length w word) max_length) as [Hle|Hgt].
        -- left. unfold words_length. cbn. lia.
        -- right. eauto.
      * apply Forall_app. split; [exact Hchunks|].
        constructor; [|constructor].
        rewrite split_join by exact Hwords. exact Hcur.
    + cbn [flat]. rewrite List.map_app, List.concat_app. cbn.
      rewrite split_join by exact Hwords.
      rewrite app_nil_r, <- app_assoc. reflexivity.
  - apply Nat.ltb_ge in Hover. split.
    + repeat split.
      * apply Forall_app. split; [exact Hwords|]. repeat constructor. exact Hword.
      * rewrite words_length_app. unfold words_length at 2. cbn. lia.
      * left. rewrite words_length_app. unfold words_length at 2. cbn. lia.
      * exact Hchunks.
    + cbn [flat]. rewrite app_assoc. reflexivity.
Qed.

Lemma chunk_loop_inv max_length words : forall st,
  chunk_inv w max_length st ->
  Forall (fun word => is_word word = true) words ->
  chunk_inv w max_length (fold_left (chunk_step w max_length) words st)
  /\ flat (fold_left (chunk_step w max_length) words st) = flat st ++ words.
Proof.
  induction words as [|word words IH]; intros st Hinv Hwords.
  - cbn. rewrite app_nil_r. auto.
  - inversion Hwords as [|? ? Hword Hrest]; subst. cbn [fold_left].
    destruct (chunk_step_inv max_length st word Hinv Hword) as [Hinv' Hflat].
    destruct (IH _ Hinv' Hrest) as [Hinv'' Hflat'].
    split; [exact Hinv''|]. rewrite Hflat', Hflat, <- app_assoc. reflexivity.
Qed.

Lemma chunk_step_started max_length st word :
  started st -> is_word word = true ->
  started (chunk_step w max_length st word).
Proof.
  destruct st as [[chunks cur] len]. intros (Hne & Hchunks & Hwords) Hword.
  unfold chunk_step. destruct (max_length <? _).
  - repeat split; [discriminate| |repeat constructor; exact Hword].
    intros Hin. apply in_app_or in Hin as [Hin|[Hin|[]]]; [auto|].
    destruct cur as [|first rest]; [congruence|].
    inversion Hwords; subst. eapply join_nonempty; eauto.
  - repeat split; [|exact Hchunks|].
    + destruct cur; discriminate.
    + apply Forall_app. split; [exact Hwords|]. repeat constructor. exact Hword.
Qed.

Lemma chunk_loop_started max_length words : forall st,
  started st -> Forall (fun word => is_word word = true) words ->
  started (fold_left (chunk_step w max_length) words st).
Proof.
  induction words as [|word words IH]; intros st Hst Hwords; [exact Hst|].
  inversion Hwords; subst. cbn [fold_left].
  apply IH; [apply chunk_step_started|]; assumption.
Qed.

End WithWorld.
End ChunkFacts.

(** ** The analysis of a repository *)

Module AnalysisFacts.
Import PyStr GitHubScraper Notions SummarizerFacts ScraperFacts.

Section WithWorld.
Variable w : World.

Lemma get_file_summary_eta self file_path :
  get_file_summary w self file_path =
  (inr (record_of w self file_path), trace (get_file_summary w self file_path)).
Proof.
  unfold record_of. rewrite get_file_summary_eq.
  destruct (os_stat_size w file_path); [reflexivity|]. cbn zeta.
  destruct (textual _); [|reflexivity].
  destruct (read_text w file_path); [reflexivity|].
  destruct (_ <=? 3); [reflexivity|].
  destruct (5 <? _); reflexivity.
Qed.

Lemma record_of_error self file_path e :
  file_error w file_path = Some e ->
  record_of w self file_path = error_record w self file_path e.
Proof.
  unfold file_error, record_of. rewrite get_file_summary_eq.
  destruct (os_stat_size w file_path); [intros [= ->]; reflexivity|].
  cbn zeta. destruct (textual _); [|discriminate].
  destruct (read_text w file_path); [intros [= ->]; reflexivity|discriminate].
Qed.

Lemma error_record_is_text self file_path e :
  error_record w self file_path e !! "is_text" = None.
Proof. unfold error_record. simplify_map_eq. reflexivity. Qed.

Lemma record_of_is_text self file_path :
  file_error w file_path = None ->
  record_of w self file_path !! "is_text"
  = Some (VBool (textual (mime_of w file_path)))
  /\ record_of w self file_path !! "error" = None.
Proof.
  unfold file_error, record_of. rewrite get_file_summary_eq.
  destruct (os_stat_size w file_path); [discriminate|].
  cbn zeta. unfold base_record.
  destruct (textual _).
  - destruct (read_text w file_path); [discriminate|]. intros _.
    destruct (_ <=? 3); [cbn; simplify_map_eq; auto|].
    destruct (5 <? _); cbn; simplify_map_eq; auto.
  - intros _. cbn. simplify_map_eq. auto.
Qed.

(** One turn of the loop: a file whose processing failed has a record
    without the key [is_text], and looking that key up raises. *)
Lemma analyze_file_eq self summaries code_contents file_path :
  analyze_file w self (summaries, code_contents) file_path =
  (match file_error w file_path with
   | Some _ => inl (KeyError "is_text")
   | None =>
       inr (summaries ++ [record_of w self file_path],
            if textual (mime_of w file_path)
            then code_contents ++ [content_of w file_path]
            else code_contents)
   end,
   file_trace w self file_path).
Proof.
  unfold analyze_file, file_trace.
  rewrite (get_file_summary_eta self file_path) at 1. rewrite bind_inr.
  destruct (file_error w file_path) as [e|] eqn:Herr.
  - rewrite (record_of_error _ _ _ Herr). unfold getitem.
    rewrite error_record_is_text. mstep. reflexivity.
  - destruct (record_of_is_text self file_path Herr) as [Htext Hnoerr].
    unfold getitem, dict_get. rewrite Htext, Hnoerr. mstep.
    unfold file_error in Herr. unfold content_of, read_file.
    destruct (os_stat_size w file_path); [discriminate|].
    destruct (textual (mime_of w file_path)); cbn [truthy andb negb default].
    + destruct (read_text w file_path); [discriminate|]. mstep. reflexivity.
    + mstep. reflexivity.
Qed.

(** The loop over the files: it stops with [KeyError] at the first file
    whose processing failed. *)
Lemma analyze_loop_result self files : forall summaries code_contents,
  result (for_each files (summaries, code_contents) (analyze_file w self)) =
  if existsb (has_error w) files then inl (KeyError "is_text")
  else inr (summaries ++ List.map (record_of w self) files,
            code_contents ++ List.map (content_of w) (text_files w files)).
Proof.
  induction files as [|file_path files IH]; intros summaries code_contents.
  - cbn. rewrite !app_nil_r. reflexivity.
  - cbn [for_each existsb List.map text_files List.filter].
    rewrite analyze_file_eq. unfold has_error at 1.
    destruct (file_error w file_path); [reflexivity|].
    rewrite bind_inr. cbn [result fst orb]. fold (text_files w files).
    rewrite IH. destruct (existsb (has_error w) files); [reflexivity|].
    destruct (textual (mime_of w file_path)); cbn [List.map];
      rewrite <- ?app_assoc; reflexivity.
Qed.

Lemma should_skip_file_result file_path :
  result (should_skip_file w file_path) = inr (skips w file_path).
Proof.
  rewrite should_skip_file_eq. unfold skips.
  destruct (has_hidden_part file_path); [reflexivity|].
  destruct (textual _); [|reflexivity].
  destruct (in_skip_dir file_path); [reflexivity|].
  destruct (too_large w file_path); reflexivity.
Qed.

Lemma should_skip_file_eta file_path :
  should_skip_file w file_path =
  (inr (skips w file_path), trace (should_skip_file w file_path)).
Proof.
  rewrite (M_eta (should_skip_file w file_path)) at 1.
  rewrite should_skip_file_result. reflexivity.
Qed.

(** The inner loop of [get_all_files], over the files of one directory. *)
Lemma walk_files_eq root files : forall files_to_analyze,
  for_each files files_to_analyze (fun files_to_analyze file =>
    let file_path := PosixPath.join root file in
    skip <- should_skip_file w file_path ;;
    ret (if (skip : bool) then files_to_analyze
         else files_to_analyze ++ [file_path])) =
  (inr (files_to_analyze ++ kept w (List.map (PosixPath.join root) files)),
   skip_traces w (List.map (PosixPath.join root) files)).
Proof.
  induction files as [|file files IH]; intros acc.
  - cbn. rewrite app_nil_r. reflexivity.
  - cbn [for_each List.map kept skip_traces List.filter List.flat_map].
    rewrite (should_skip_file_eta (PosixPath.join root file)) at 1.
    mstep. rewrite IH. cbn [result trace fst snd]. rewrite app_nil_r.
    fold (kept w (List.map (PosixPath.join root) files)).
    destruct (skips w (PosixPath.join root file)); cbn [negb];
      rewrite <- ?app_assoc; reflexivity.
Qed.

Lemma kept_app l1 l2 : kept w (l1 ++ l2) = kept w l1 ++ kept w l2.
Proof. apply List.filter_app. Qed.

Lemma skip_traces_app l1 l2 :
  skip_traces w (l1 ++ l2) = skip_traces w l1 ++ skip_traces w l2.
Proof. apply List.flat_map_app. Qed.

(** [get_all_files] in closed form, for a cloned repository. *)
Lemma get_all_files_eq self top :
  cloned_path self = Some top ->
  get_all_files w self =
  (inr (kept w (candidates w top)), EvWalk top :: skip_traces w (candidates w top)).
Proof.
  intros Htop. unfold get_all_files. rewrite Htop. mstep.
  unfold candidates.
  assert (forall dirs acc,
    for_each dirs acc (fun files_to_analyze dir =>
      let '(root, files) := dir in
      for_each files files_to_analyze (fun files_to_analyze file =>
        let file_path := PosixPath.join root file in
        skip <- should_skip_file w file_path ;;
        ret (if (skip : bool) then files_to_analyze
             else files_to_analyze ++ [file_path]))) =
    (inr (acc ++ kept w (List.flat_map
            (fun dir => List.map (PosixPath.join (fst dir)) (snd dir)) dirs)),
     skip_traces w (List.flat_map
            (fun dir => List.map (PosixPath.join (fst dir)) (snd dir)) dirs)))
    as Hdirs.
  { induction dirs as [|[root files] dirs IH]; intros acc.
    - cbn. rewrite app_nil_r. reflexivity.
    - cbn [for_each List.flat_map fst snd].
      rewrite walk_files_eq, bind_inr, IH. cbn [result trace fst snd].
      rewrite kept_app, skip_traces_app, <- app_assoc. reflexivity. }
  rewrite Hdirs. reflexivity.
Qed.

(** A file that is not skipped is a text file whose size can be read. *)
Lemma kept_textual paths file_path :
  In file_path (kept w paths) -> textual (mime_of w file_path) = true.
Proof.
  unfold kept. rewrite List.filter_In. intros [_ Hkeep].
  unfold skips in Hkeep. destruct (textual _); [reflexivity|].
  destruct (has_hidden_part file_path); discriminate.
Qed.

Lemma text_files_kept paths : text_files w (kept w paths) = kept w paths.
Proof.
  unfold text_files. apply List.forallb_filter_id, List.forallb_forall.
  intros file_path. apply kept_textual.
Qed.

Lemma summarize_repo_eta code_contents :
  LLM_Summarize.summarize_repo w code_contents =
  (inr (repo_summary_of w code_contents),
   trace (LLM_Summarize.summarize_repo w code_contents)).
Proof.
  unfold repo_summary_of.
  destruct (summarize_repo_returns w code_contents) as [s Hs].
  rewrite (M_eta (LLM_Summarize.summarize_repo w code_contents)) at 1.
  rewrite Hs. reflexivity.
Qed.

(** [analyze_repository] on a cache miss, for a cloned repository. *)
Lemma analyze_repository_miss_eq self cache repo_url top :
  cache_miss w self cache repo_url ->
  cloned_path self = Some top ->
  let files := kept w (candidates w top) in
  let loop := for_each files ([], []) (analyze_file w self) in
  let before :=
    trace (get_cached_summaries w self cache repo_url)
    ++ EvWalk top :: skip_traces w (candidates w top) in
  let code_contents := List.map (content_of w) files in
  let summaries :=
    List.map (record_of w self) files
    ++ [repository_record (repo_summary_of w code_contents)] in
  analyze_repository w self cache repo_url =
  match files with
  | [] => (inr ([], 0), before)
  | _ =>
      if existsb (has_error w) files
      then (inl (KeyError "is_text"), before ++ trace loop)
      else (inr (summaries, length files),
            before ++ trace loop
            ++ trace (LLM_Summarize.summarize_repo w code_contents)
            ++ trace (save_to_cache w self repo_url summaries (length files)))
  end.
Proof.
  intros Hmiss Htop. cbv zeta. unfold analyze_repository.
  rewrite (M_eta (get_cached_summaries w self cache repo_url)), Hmiss, bind_inr.
  rewrite Htop, (get_all_files_eq self top Htop), bind_inr.
  cbn [trace snd].
  pose proof (text_files_kept (candidates w top)) as Htext.
  set (files := kept w (candidates w top)) in *. clearbody files.
  destruct files as [|file_path rest].
  { cbn [length Nat.eqb]. mstep. rewrite !app_nil_r. reflexivity. }
  set (files := file_path :: rest) in *.
  change (length files =? 0) with false. cbn iota.
  rewrite (M_eta (for_each files _ _)), analyze_loop_result.
  destruct (existsb (has_error w) files).
  { mstep. rewrite !app_nil_r, <- !app_assoc. reflexivity. }
  cbn [app]. rewrite Htext, bind_inr.
  destruct (List.map (content_of w) files) as [|content contents] eqn:Hcc;
    [discriminate|].
  rewrite <- Hcc.
  rewrite (summarize_repo_eta (List.map (content_of w) files)). mstep.
  rewrite save_to_cache_eq. mstep.
  rewrite !app_nil_r, <- !app_assoc. reflexivity.
Qed.

(** *** The events of the analysis *)

Ltac Forall_list :=
  repeat (apply List.Forall_cons; [solve [unfold touches; eauto 6]|]);
  apply List.Forall_nil.

Lemma should_skip_file_events file_path :
  Forall (fun ev => ev = EvSniff file_path \/ ev = EvStat file_path)
    (trace (should_skip_file w file_path)).
Proof.
  rewrite should_skip_file_eq.
  destruct (has_hidden_part file_path); [constructor|].
  destruct (negb _); [Forall_list|].
  destruct (in_skip_dir file_path); [Forall_list|].
  destruct (too_large w file_path); Forall_list.
Qed.

Lemma skip_traces_events paths :
  Forall (fun ev => exists file_path, ev = EvSniff file_path \/ ev = EvStat file_path)
    (skip_traces w paths).
Proof.
  induction paths as [|file_path paths IH]; [constructor|].
  cbn [skip_traces List.flat_map]. apply Forall_app. split; [|exact IH].
  eapply List.Forall_impl; [|apply should_skip_file_events].
  intros ev Hev. cbn beta in *. eauto.
Qed.

Lemma get_file_summary_events self file_path :
  Forall (touches file_path) (trace (get_file_summary w self file_path)).
Proof.
  assert (Forall (touches file_path) (probe file_path ++ [EvRead file_path]))
    as Hprobe by (cbn; Forall_list).
  rewrite get_file_summary_eq.
  destruct (os_stat_size w file_path).
  { Forall_list. }
  cbn zeta. destruct (textual _).
  2: { cbn. Forall_list. }
  destruct (read_text w file_path) as [e|content]; [exact Hprobe|].
  destruct (_ <=? 3); [exact Hprobe|].
  destruct (5 <? _); [|exact Hprobe].
  cbn [trace snd]. rewrite app_assoc. apply Forall_app. split; [exact Hprobe|].
  apply List.Forall_forall. intros ev Hin.
  apply summarize_code_events in Hin. unfold touches. auto.
Qed.

Lemma file_trace_events self file_path :
  Forall (touches file_path) (file_trace w self file_path).
Proof.
  unfold file_trace. apply Forall_app. split.
  - apply get_file_summary_events.
  - destruct (file_error w file_path); [constructor|].
    destruct (textual _); Forall_list.
Qed.

(** The loop over the files only touches the files of the batch. *)
Lemma analyze_loop_events self files st :
  Forall (fun ev => exists file_path, In file_path files /\ touches file_path ev)
    (trace (for_each files st (analyze_file w self))).
Proof.
  apply Forall_trace_for_each. intros [summaries code_contents] file_path Hin.
  rewrite analyze_file_eq. cbn [trace snd].
  eapply List.Forall_impl; [|apply file_trace_events].
  intros ev Hev. cbn beta in *. eauto.
Qed.

Lemma summarize_repo_events code_contents :
  Forall (fun ev => exists text max_length min_length,
            ev = EvModel text max_length min_length)
    (trace (LLM_Summarize.summarize_repo w code_contents)).
Proof.
  rewrite summarize_repo_eq. cbv zeta.
  assert (Forall (fun ev => exists text max_length min_length,
            ev = EvModel text max_length min_length)
            (List.concat (List.map
               (fun code => trace (LLM_Summarize.summarize_code w code))
               code_contents))) as Hper.
  { induction code_contents as [|code codes IH]; [constructor|].
    cbn [List.map List.concat]. apply Forall_app. split; [|exact IH].
    apply List.Forall_forall. intros ev Hin.
    apply summarize_code_events in Hin as [chunk ->]. eauto. }
  destruct (List.filter _ _); [exact Hper|].
  cbn [trace snd]. apply Forall_app. split; [exact Hper|].
  Forall_list.
Qed.

Lemma get_cached_summaries_events self cache repo_url :
  Forall (fun ev => exists file, ev = EvCacheRead file)
    (trace (get_cached_summaries w self cache repo_url)).
Proof.
  rewrite get_cached_summaries_eq.
  destruct (cache !! _) as [[|[s|] [t|]]|]; Forall_list.
Qed.

(** A cache hit: the stored pair, and one read. *)
Lemma analyze_repository_hit self cache repo_url summaries total_files :
  cache !! cache_file_of w self repo_url
  = Some (JsonDoc (Some summaries) (Some total_files)) ->
  analyze_repository w self cache repo_url
  = (inr (summaries, total_files),
     [EvCacheRead (cache_file_of w self repo_url)]).
Proof.
  intros Hhit. unfold analyze_repository.
  rewrite get_cached_summaries_eq, Hhit. mstep. reflexivity.
Qed.

(** The three ways [analyze_repository] can go: a cache hit, a miss
    without a clone, a miss with one. *)
Lemma analyze_repository_cases self cache repo_url :
  (exists cached,
     analyze_repository w self cache repo_url =
     (inr cached, [EvCacheRead (cache_file_of w self repo_url)]))
  \/ (cache_miss w self cache repo_url /\ cloned_path self = None
      /\ analyze_repository w self cache repo_url =
         (inl (ValueError NOT_CLONED),
          trace (get_cached_summaries w self cache repo_url)))
  \/ (cache_miss w self cache repo_url
      /\ exists top, cloned_path self = Some top).
Proof.
  unfold cache_miss, analyze_repository.
  rewrite get_cached_summaries_eq.
  destruct (cache !! _) as [[|[s|] [t|]]|]; cbn [result trace fst snd];
    try (left; eexists; reflexivity);
    (destruct (cloned_path self) as [top|];
     [right; right; split; [reflexivity|eauto]
     |right; left; repeat split]).
Qed.

(** On a miss with a clone, the trace in four parts: the calls before the
    loop, the loop, the repository summary and the cache write. *)
Lemma analyze_repository_miss_trace self cache repo_url top :
  cache_miss w self cache repo_url ->
  cloned_path self = Some top ->
  let files := kept w (candidates w top) in
  exists before loop repo after,
    trace (analyze_repository w self cache repo_url)
    = before ++ loop ++ repo ++ after
    /\ Forall (fun ev => (exists file, ev = EvCacheRead file)
                         \/ ev = EvWalk top
                         \/ exists file_path,
                              ev = EvSniff file_path \/ ev = EvStat file_path)
         before
    /\ Forall (fun ev => exists file_path,
                 In file_path files /\ touches file_path ev) loop
    /\ (repo = []
        \/ files <> [] /\ existsb (has_error w) files = false
           /\ repo = trace (LLM_Summarize.summarize_repo w
                              (List.map (content_of w) files)))
    /\ Forall (fun ev => exists file doc, ev = EvCacheStore file doc) after.
Proof.
  intros Hmiss Htop files.
  assert (Forall (fun ev => (exists file, ev = EvCacheRead file)
                         \/ ev = EvWalk top
                         \/ exists file_path,
                              ev = EvSniff file_path \/ ev = EvStat file_path)
            (trace (get_cached_summaries w self cache repo_url)
             ++ EvWalk top :: skip_traces w (candidates w top))) as Hbefore.
  { apply Forall_app. split.
    - eapply List.Forall_impl; [|apply get_cached_summaries_events].
      intros ev Hev. cbn beta in *. auto.
    - constructor; [auto|].
      eapply List.Forall_impl; [|apply skip_traces_events].
      intros ev Hev. cbn beta in *. auto. }
  rewrite (analyze_repository_miss_eq self cache repo_url top Hmiss Htop).
  cbv zeta. fold files.
  set (before := trace (get_cached_summaries w self cache repo_url) ++ _) in *.
  set (loop := trace (for_each files ([], []) (analyze_file w self))).
  assert (Forall (fun ev => exists file_path,
                    In file_path files /\ touches file_path ev) loop)
    as Hloop by apply analyze_loop_events.
  destruct files as [|file_path rest] eqn:Hfiles.
  { exists before, [], [], []. cbn [trace snd]. rewrite !app_nil_r.
    repeat split; auto. }
  rewrite <- Hfiles in *.
  destruct (existsb (has_error w) files) eqn:Hok.
  - exists before, loop, [], []. cbn [trace snd]. rewrite !app_nil_r.
    repeat split; auto.
  - eexists before, loop, _, _. cbn [trace snd]. split; [reflexivity|].
    split; [exact Hbefore|]. split; [exact Hloop|].
    split.
    + right. repeat split. rewrite Hfiles. discriminate.
    + rewrite save_to_cache_eq. cbn [trace snd].
      destruct (open_for_write w _); Forall_list.
Qed.

End WithWorld.
End AnalysisFacts.

(** * The properties of the pipeline *)

Import PyStr LLM_Summarize GitHubScraper Notions.
Import SummarizerFacts ScraperFacts ChunkFacts AnalysisFacts.

(** ** Per-file failures *)

(** Any file of the batch whose processing fails makes the whole analysis
    raise [KeyError('is_text')]: the record of the failure has no such key. *)
Lemma failed_file_raises_KeyError w self cache repo_url top file_path e :
  cache_miss w self cache repo_url ->
  cloned_path self = Some top ->
  In file_path (kept w (candidates w top)) ->
  file_error w file_path = Some e ->
  record_of w self file_path = error_record w self file_path e
  /\ result (analyze_repository w self cache repo_url)
     = inl (KeyError "is_text").
Proof.
  intros Hmiss Htop Hin Herr. split; [apply record_of_error; exact Herr|].
  rewrite (analyze_repository_miss_eq w self cache repo_url top Hmiss Htop).
  cbv zeta.
  assert (existsb (has_error w) (kept w (candidates w top)) = true) as ->.
  { apply List.existsb_exists. exists file_path. split; [exact Hin|].
    unfold has_error. rewrite Herr. reflexivity. }
  destruct (kept w (candidates w top)); [destruct Hin|reflexivity].
Qed.

(** C1 (the code departs from the claim). The batch is [b.py], whose read
    fails, then [a.py]. The failure of [b.py] is captured in the [error]
    field of its record, but the analysis does not continue: it raises
    [KeyError('is_text')] before [a.py] is processed ([a.py] is never
    read). *)
Theorem C1_failed_file_aborts_the_analysis :
  result (get_all_files Fixture.failing_first Fixture.cloned)
  = inr ["/tmp/repo/b.py"; "/tmp/repo/a.py"]
  /\ result (get_file_summary Fixture.failing_first Fixture.cloned
               "/tmp/repo/b.py")
     = inr {[ "path" := VStr "b.py";
              "error" := VStr "[Errno 5] Input/output error" ]}
  /\ analyze_repository Fixture.failing_first Fixture.cloned ∅ Fixture.URL
     = (inl (KeyError "is_text"),
        [EvWalk "/tmp/repo";
         EvSniff "/tmp/repo/b.py"; EvStat "/tmp/repo/b.py";
         EvSniff "/tmp/repo/a.py"; EvStat "/tmp/repo/a.py";
         EvStat "/tmp/repo/b.py"; EvSniff "/tmp/repo/b.py";
         EvSniff "/tmp/repo/b.py"; EvRead "/tmp/repo/b.py"]).
Proof. repeat split; vm_compute; reflexivity. Qed.

(** C10 (the code departs from the claim). The batch is [a.py], a text
    file processed without error, then [b.py], whose read fails. The
    analysis returns no list at all, so no repository record is appended
    and no count is returned: it raises [KeyError('is_text')]. *)
Theorem C10_failed_file_loses_the_repository_record :
  cache_miss Fixture.failing_last Fixture.cloned ∅ Fixture.URL
  /\ record_of Fixture.failing_last Fixture.cloned "/tmp/repo/a.py"
       !! "is_text" = Some (VBool true)
  /\ record_of Fixture.failing_last Fixture.cloned "/tmp/repo/a.py"
       !! "error" = None
  /\ result (analyze_repository Fixture.failing_last Fixture.cloned ∅
               Fixture.URL)
     = inl (KeyError "is_text").
Proof. repeat split; vm_compute; reflexivity. Qed.

(** Without a failing file the list is as C10 says: the records of the
    files in order, then the repository record, and the count of the files
    alone. *)
Lemma analysis_without_failure w self cache repo_url top :
  cache_miss w self cache repo_url ->
  cloned_path self = Some top ->
  existsb (has_error w) (kept w (candidates w top)) = false ->
  kept w (candidates w top) <> [] ->
  let files := kept w (candidates w top) in
  exists repo_summary,
    result (analyze_repository w self cache repo_url)
    = inr (List.map (record_of w self) files
           ++ [repository_record repo_summary], length files)
    /\ repository_record repo_summary !! "path" = Some (VStr REPOSITORY_SUMMARY)
    /\ repository_record repo_summary !! "type" = Some (VStr "html").
Proof.
  intros Hmiss Htop Hok Hne files.
  exists (repo_summary_of w (List.map (content_of w) files)).
  rewrite (analyze_repository_miss_eq w self cache repo_url top Hmiss Htop).
  cbv zeta. rewrite Hok. subst files.
  destruct (kept w (candidates w top)); [contradiction|].
  repeat split.
Qed.

(** ** The skip decision *)

(** C2 (counterexample). [/tmp/repo/node_modules/x.js] has no hidden
    segment and lies under a directory of the deny list: it is skipped by
    criterion (b), and libmagic has sniffed its content before that. *)
Lemma C2_skipped_directory_is_sniffed :
  has_hidden_part "/tmp/repo/node_modules/x.js" = false
  /\ in_skip_dir "/tmp/repo/node_modules/x.js" = true
  /\ should_skip_file Fixture.vendored "/tmp/repo/node_modules/x.js"
     = (inr true, [EvSniff "/tmp/repo/node_modules/x.js"]).
Proof. repeat split; vm_compute; reflexivity. Qed.

(** The analysis reads the content only of files that are not skipped. *)
Lemma analysis_reads_kept_files w self cache repo_url file_path :
  In (EvRead file_path) (trace (analyze_repository w self cache repo_url)) ->
  skips w file_path = false.
Proof.
  intros Hin.
  destruct (analyze_repository_cases w self cache repo_url)
    as [[cached Hhit]|[(Hmiss & Hnone & Heq)|(Hmiss & top & Htop)]].
  - rewrite Hhit in Hin. destruct Hin as [Hin|[]]. discriminate.
  - rewrite Heq in Hin. cbn [trace snd] in Hin.
    pose proof (get_cached_summaries_events w self cache repo_url) as Hev.
    rewrite List.Forall_forall in Hev. destruct (Hev _ Hin) as [file Hfile].
    discriminate.
  - destruct (analyze_repository_miss_trace w self cache repo_url top Hmiss Htop)
      as (before & loop & repo & after & Heq & Hbefore & Hloop & Hrepo & Hafter).
    rewrite Heq in Hin. rewrite List.Forall_forall in Hbefore, Hloop, Hafter.
    apply in_app_or in Hin as [Hin|Hin].
    { destruct (Hbefore _ Hin) as [[? ?]|[?|[? [?|?]]]]; discriminate. }
    apply in_app_or in Hin as [Hin|Hin].
    { destruct (Hloop _ Hin) as (p & Hp & [?|[?|[Hread|[? ?]]]]);
        try discriminate.
      injection Hread as ->.
      unfold kept in Hp. apply List.filter_In in Hp as [_ Hp].
      apply negb_true_iff in Hp. exact Hp. }
    apply in_app_or in Hin as [Hin|Hin].
    { destruct Hrepo as [->|(_ & _ & ->)]; [destruct Hin|].
      pose proof (summarize_repo_events w
                    (List.map (content_of w) (kept w (candidates w top)))) as Hev.
      rewrite List.Forall_forall in Hev.
      destruct (Hev _ Hin) as (? & ? & ? & ?). discriminate. }
    destruct (Hafter _ Hin) as (? & ? & ?). discriminate.
Qed.

(** *** The suffix test *)

Lemma lower_char_dot c :
  Ascii.eqb (lower_char c) PosixPath.DOT = Ascii.eqb c PosixPath.DOT.
Proof. destruct c as [[] [] [] [] [] [] [] []]; reflexivity. Qed.

Lemma rfind_char_app c s t i r :
  rfind_char c t = Some (i, r) ->
  rfind_char c (s +:+ t) = Some (String.length s + i, r).
Proof.
  intros Ht. induction s as [|d s IH]; [exact Ht|].
  rewrite append_cons. cbn [rfind_char String.length]. rewrite IH.
  reflexivity.
Qed.

Lemma length_append s t :
  String.length (s +:+ t) = String.length s + String.length t.
Proof.
  induction s as [|d s IH]; [reflexivity|].
  rewrite append_cons. cbn [String.length]. rewrite IH. reflexivity.
Qed.

Lemma lower_append s t : lower (s +:+ t) = lower s +:+ lower t.
Proof.
  induction s as [|c s IH]; [reflexivity|].
  rewrite append_cons. cbn [lower]. rewrite append_cons, IH. reflexivity.
Qed.

Lemma length_lower s : String.length (lower s) = String.length s.
Proof.
  induction s as [|c s IH]; [reflexivity|].
  cbn [lower String.length]. rewrite IH. reflexivity.
Qed.

Lemma endswith_refl s : endswith s s = true.
Proof.
  destruct s as [|c s]; [reflexivity|].
  cbn [endswith]. rewrite String.eqb_refl. reflexivity.
Qed.

Lemma endswith_append pre p : endswith (pre +:+ p) p = true.
Proof.
  induction pre as [|c pre IH]; [apply endswith_refl|].
  rewrite append_cons. cbn [endswith]. rewrite IH. apply orb_true_r.
Qed.

Lemma endswith_inv s p :
  endswith s p = true -> exists pre, s = pre +:+ p.
Proof.
  induction s as [|c s IH]; cbn [endswith].
  - intros Heq. apply String.eqb_eq in Heq. subst p.
    exists EmptyString. reflexivity.
  - intros Hor. apply orb_true_iff in Hor as [Heq|Hend].
    + apply String.eqb_eq in Heq. subst p. exists EmptyString. reflexivity.
    + destruct (IH Hend) as [pre ->]. exists (String c pre).
      rewrite append_cons. reflexivity.
Qed.

(** The last dot of a string and of its lower-case form are at the same
    place. *)
Lemma rfind_dot_lower_eq s :
  rfind_char PosixPath.DOT (lower s)
  = match rfind_char PosixPath.DOT s with
    | Some (i, r) => Some (i, lower r)
    | None => None
    end.
Proof.
  induction s as [|d s IH]; [reflexivity|]. cbn [rfind_char lower].
  rewrite IH. destruct (rfind_char PosixPath.DOT s) as [[j r0]|];
    [reflexivity|].
  rewrite lower_char_dot. destruct (Ascii.eqb d PosixPath.DOT); reflexivity.
Qed.

Lemma rfind_char_suffix c s i r :
  rfind_char c s = Some (i, r) -> exists pre, s = pre +:+ r.
Proof.
  induction s as [|d s IH] in i, r |- *; [discriminate|].
  cbn [rfind_char].
  destruct (rfind_char c s) as [[j r0]|] eqn:Hs.
  - intros [= <- <-]. destruct (IH j r0 eq_refl) as [pre ->].
    exists (String d pre). rewrite append_cons. reflexivity.
  - destruct (Ascii.eqb d c); [|discriminate].
    intros [= <- <-]. exists EmptyString. reflexivity.
Qed.

Lemma last_not_hidden (l : list string) d :
  existsb (fun part => startswith part ".") l = false ->
  startswith d "." = false ->
  startswith (List.last l d) "." = false.
Proof.
  intros Hl Hd. induction l as [|x l IH]; [exact Hd|].
  cbn [existsb] in Hl. apply orb_false_iff in Hl as [Hx Hl].
  destruct l as [|y l]; [exact Hx|]. apply IH. exact Hl.
Qed.

(** The name of a path without hidden segment does not start with a
    dot. *)
Lemma name_not_hidden file_path :
  has_hidden_part file_path = false ->
  startswith (PosixPath.name file_path) "." = false.
Proof.
  unfold has_hidden_part, PosixPath.parts, PosixPath.name.
  rewrite existsb_app. intros Hor. apply orb_false_iff in Hor as [_ Hparts].
  apply last_not_hidden; [exact Hparts|reflexivity].
Qed.

Lemma endswith_empty s : endswith s EmptyString = true.
Proof.
  induction s as [|c s IH]; [reflexivity|].
  cbn [endswith]. rewrite IH. apply orb_true_r.
Qed.

(** The suffix that is tested is a suffix of the name. *)
Lemma tested_suffix_is_denied file_path :
  has_skip_extension file_path = true -> has_denied_suffix file_path = true.
Proof.
  unfold has_skip_extension, has_denied_suffix. intros Hin.
  apply bool_decide_eq_true_1 in Hin. apply bool_decide_eq_true_2.
  exists (lower (PosixPath.suffix file_path)). split; [exact Hin|].
  unfold name_ends_in, PosixPath.suffix.
  destruct (rfind_char PosixPath.DOT (PosixPath.name file_path))
    as [[i r]|] eqn:Hfind; [|apply endswith_empty].
  destruct (_ && _); [|apply endswith_empty].
  destruct (rfind_char_suffix _ _ _ _ Hfind) as [pre ->].
  rewrite lower_append. apply endswith_append.
Qed.

(** The entries of the deny list with one dot. *)
Lemma single_dot_entry ext :
  ext ∈ skip_extensions ->
  ext = ".min.js" \/ ext = ".min.css"
  \/ exists c r, ext = String PosixPath.DOT (String c r)
                 /\ rfind_char PosixPath.DOT (String c r) = None.
Proof.
  unfold skip_extensions. rewrite !elem_of_union, !elem_of_singleton.
  intros H.
  repeat match goal with
         | H : _ \/ _ |- _ => destruct H as [H|H]
         end; subst ext; auto;
    right; right; eexists _, _; split; reflexivity.
Qed.

(** A name that ends in an entry of the deny list with one dot has that
    entry as its suffix, unless the name starts with the dot. *)
Lemma denied_suffix_is_tested file_path :
  has_hidden_part file_path = false ->
  name_ends_in file_path ".min.js" = false ->
  name_ends_in file_path ".min.css" = false ->
  has_denied_suffix file_path = true ->
  has_skip_extension file_path = true.
Proof.
  intros Hhidden Hjs Hcss Hdenied.
  apply name_not_hidden in Hhidden.
  unfold has_denied_suffix in Hdenied.
  apply bool_decide_eq_true_1 in Hdenied.
  destruct Hdenied as (ext & Hext & Hends).
  destruct (single_dot_entry ext Hext) as [->|[->|(c & r & -> & Hnone)]];
    [congruence|congruence|].
  unfold has_skip_extension. apply bool_decide_eq_true_2.
  unfold name_ends_in in Hends.
  destruct (endswith_inv _ _ Hends) as [pre Hname].
  assert (rfind_char PosixPath.DOT (lower (PosixPath.name file_path))
          = Some (String.length pre + 0,
                  String PosixPath.DOT (String c r))) as Hfind.
  { rewrite Hname. apply rfind_char_app. cbn [rfind_char].
    cbn [rfind_char] in Hnone. rewrite Hnone. reflexivity. }
  rewrite rfind_dot_lower_eq in Hfind.
  unfold PosixPath.suffix.
  destruct (rfind_char PosixPath.DOT (PosixPath.name file_path))
    as [[i r0]|]; [|discriminate].
  injection Hfind as -> Hr0.
  assert (String.length (PosixPath.name file_path)
          = String.length pre + S (S (String.length r))) as Hlen.
  { rewrite <- length_lower, Hname, length_append. reflexivity. }
  assert (pre <> EmptyString) as Hpre.
  { intros ->. rewrite append_nil_l in Hname.
    destruct (PosixPath.name file_path) as [|d nm]; [discriminate|].
    cbn [lower] in Hname. injection Hname as Hd _.
    assert (d = PosixPath.DOT) as ->.
    { destruct d as [[] [] [] [] [] [] [] []]; vm_compute in Hd;
        first [reflexivity | discriminate Hd]. }
    destruct nm; vm_compute in Hhidden; discriminate Hhidden. }
  rewrite Hlen.
  assert ((0 <? String.length pre + 0) = true) as ->.
  { apply Nat.ltb_lt. destruct pre; [contradiction|cbn; lia]. }
  assert ((String.length pre + 0
           <? String.length pre + S (S (String.length r)) - 1) = true) as ->.
  { apply Nat.ltb_lt. lia. }
  cbn [andb]. rewrite Hr0. exact Hext.
Qed.

(** C2 (amended). The skip decision makes its tests in this order: a
    hidden segment; the MIME type, for which libmagic sniffs the content; a
    segment of the deny list; the size; a denylisted name suffix. So only a
    path with a hidden segment is skipped without any call, every other
    path is sniffed once before the remaining tests, and the size is read
    only for a text file outside the denied directories. A path that has
    passed the other tests is skipped exactly when its name ends in an
    entry of the deny list of suffixes; nothing is said of a name that ends
    in [.min.js] or [.min.css]. The decision never reads a file, and the
    analysis reads no file that the decision skips. *)
Theorem C2_skip_decision_order w file_path :
  (exists skip : bool,
     should_skip_file w file_path =
     (if has_hidden_part file_path then (inr true, [])
      else if negb (textual (mime_of w file_path))
           then (inr true, [EvSniff file_path])
      else if in_skip_dir file_path then (inr true, [EvSniff file_path])
      else if too_large w file_path
           then (inr true, [EvSniff file_path; EvStat file_path])
      else (inr skip, [EvSniff file_path; EvStat file_path]))
     /\ (has_hidden_part file_path = false ->
         name_ends_in file_path ".min.js" = false ->
         name_ends_in file_path ".min.css" = false ->
         skip = has_denied_suffix file_path))
  /\ (forall path, ~ In (EvRead path) (trace (should_skip_file w file_path)))
  /\ (forall self cache repo_url,
        result (should_skip_file w file_path) = inr true ->
        ~ In (EvRead file_path)
            (trace (analyze_repository w self cache repo_url))).
Proof.
  split; [|split].
  - exists (has_skip_extension file_path).
    split; [apply should_skip_file_eq|].
    intros Hhidden Hjs Hcss.
    destruct (has_denied_suffix file_path) eqn:Hdenied.
    + apply denied_suffix_is_tested; assumption.
    + destruct (has_skip_extension file_path) eqn:Htest; [|reflexivity].
      apply tested_suffix_is_denied in Htest. congruence.
  - intros path Hin.
    pose proof (should_skip_file_events w file_path) as Hev.
    rewrite List.Forall_forall in Hev. destruct (Hev _ Hin); discriminate.
  - intros self cache repo_url Hskip Hin.
    apply analysis_reads_kept_files in Hin.
    rewrite should_skip_file_result in Hskip. congruence.
Qed.

(** C2 (witness): a lock file passes the first tests and is skipped for
    its suffix, after one sniff and one look at its size; the file under
    [node_modules] is never read. *)
Lemma C2_skip_decision_order_witness :
  (exists skip : bool,
     should_skip_file (Fixture.world [Fixture.text_file "yarn.lock" "x"])
       "/tmp/repo/yarn.lock"
     = (inr skip,
        [EvSniff "/tmp/repo/yarn.lock"; EvStat "/tmp/repo/yarn.lock"])
     /\ skip = true)
  /\ ~ In (EvRead "/tmp/repo/node_modules/x.js")
        (trace (analyze_repository Fixture.vendored Fixture.cloned ∅
                  Fixture.URL)).
Proof.
  split.
  - destruct (proj1 (C2_skip_decision_order
                       (Fixture.world [Fixture.text_file "yarn.lock" "x"])
                       "/tmp/repo/yarn.lock")) as (skip & Heq & Hsuffix).
    exists skip. split; [exact Heq|].
    rewrite Hsuffix by reflexivity. reflexivity.
  - apply (proj2 (proj2 (C2_skip_decision_order Fixture.vendored
                           "/tmp/repo/node_modules/x.js"))).
    vm_compute. reflexivity.
Defined.

(** ** The repository summary *)

(** C3 (counterexample). Of the two files only [main.py] has a summary in
    its record; the record of [util.py] (four lines, LOC 4) has none. The
    repository call is nevertheless made on the join of two summaries: the
    second was computed for it, by a call of the model on the content of
    [util.py]. And when [util.py] is the only file, so that no record has
    a summary, the repository call is made all the same. *)
Lemma C3_join_holds_a_summary_no_record_has :
  List.map (fun r => r !! "summary")
    (List.firstn 2
       (summaries_of
          (analyze_repository Fixture.large_and_small Fixture.cloned ∅
             Fixture.URL)))
  = [Some (VStr ("summary of: " +:+ join (chr SP) (split Fixture.ten_lines)));
     Some VNone]
  /\ List.filter is_repo_call
       (trace (analyze_repository Fixture.large_and_small Fixture.cloned ∅
                 Fixture.URL))
     = [EvModel
          (join (chr NL +:+ chr NL)
             ["summary of: " +:+ join (chr SP) (split Fixture.ten_lines);
              "summary of: a = 1 b = 2 c = 3 d = 4"])
          500 100]
  /\ List.map (fun r => r !! "summary")
       (List.firstn 1
          (summaries_of
             (analyze_repository Fixture.small_only Fixture.cloned ∅
                Fixture.URL)))
     = [Some VNone]
  /\ List.filter is_repo_call
       (trace (analyze_repository Fixture.small_only Fixture.cloned ∅
                 Fixture.URL))
     = [EvModel "summary of: a = 1 b = 2 c = 3 d = 4" 500 100].
Proof. repeat split; vm_compute; reflexivity. Qed.

(** The repository call of [summarize_repo]. *)
Lemma summarize_repo_call w code_list :
  let file_summaries := List.filter usable (List.map (summary_of w) code_list) in
  List.filter is_repo_call (trace (summarize_repo w code_list))
  = match file_summaries with
    | [] => []
    | _ => [EvModel (join (chr NL +:+ chr NL) file_summaries) 500 100]
    end.
Proof.
  cbv zeta. rewrite summarize_repo_eq. cbv zeta.
  pose proof (no_repo_call_filter _ (per_file_no_repo_call w code_list)) as Hper.
  destruct (List.filter usable _); cbn [trace snd]; [exact Hper|].
  rewrite List.filter_app, Hper. reflexivity.
Qed.

(** C3 (amended). [summarize_repo] calls [summarize_code] anew on the
    content of every file it is given, keeps the results that are neither
    empty nor the error sentinel, and makes the call with the long bound
    once, on their join with two newlines, exactly when one is kept; when
    none is, it returns the notice verbatim without that call. An analysis
    makes that call at most once, and makes it on the contents of all the
    files of the batch, whatever their length or LOC. *)
Theorem C3_repository_call_once w :
  (forall code_list,
     let file_summaries :=
       List.filter usable (List.map (summary_of w) code_list) in
     List.filter is_repo_call (trace (summarize_repo w code_list))
     = match file_summaries with
       | [] => []
       | _ => [EvModel (join (chr NL +:+ chr NL) file_summaries) 500 100]
       end
     /\ (file_summaries = [] ->
         result (summarize_repo w code_list) = inr NO_VALID_FILES))
  /\ (forall self cache repo_url,
        List.filter is_repo_call
          (trace (analyze_repository w self cache repo_url)) = []
        \/ exists top,
             cloned_path self = Some top
             /\ List.filter is_repo_call
                  (trace (analyze_repository w self cache repo_url))
                = List.filter is_repo_call
                    (trace (summarize_repo w
                       (List.map (content_of w) (kept w (candidates w top))))))
  /\ (forall self cache repo_url,
        length (List.filter is_repo_call
                  (trace (analyze_repository w self cache repo_url))) <= 1).
Proof.
  assert (forall self cache repo_url,
    List.filter is_repo_call
      (trace (analyze_repository w self cache repo_url)) = []
    \/ exists top,
         cloned_path self = Some top
         /\ List.filter is_repo_call
              (trace (analyze_repository w self cache repo_url))
            = List.filter is_repo_call
                (trace (summarize_repo w
                   (List.map (content_of w) (kept w (candidates w top))))))
    as Hanalysis.
  { intros self cache repo_url.
    destruct (analyze_repository_cases w self cache repo_url)
      as [[cached Hhit]|[(Hmiss & Hnone & Heq)|(Hmiss & top & Htop)]].
    - left. rewrite Hhit. reflexivity.
    - left. rewrite Heq. cbn [trace snd]. apply no_repo_call_filter.
      eapply List.Forall_impl; [|apply get_cached_summaries_events].
      intros ev [file ->]. reflexivity.
    - destruct (analyze_repository_miss_trace w self cache repo_url top Hmiss Htop)
        as (before & loop & repo & after & Heq & Hbefore & Hloop & Hrepo & Hafter).
      assert (List.filter is_repo_call before = []) as Hb.
      { apply no_repo_call_filter. eapply List.Forall_impl; [|exact Hbefore].
        intros ev [[? ->]|[->|[? [->| ->]]]]; reflexivity. }
      assert (List.filter is_repo_call loop = []) as Hl.
      { apply no_repo_call_filter. eapply List.Forall_impl; [|exact Hloop].
        intros ev (p & _ & [->|[->|[->|[? ->]]]]); reflexivity. }
      assert (List.filter is_repo_call after = []) as Ha.
      { apply no_repo_call_filter. eapply List.Forall_impl; [|exact Hafter].
        intros ev (? & ? & ->). reflexivity. }
      rewrite Heq, !List.filter_app, Hb, Hl, Ha, app_nil_r. cbn [app].
      destruct Hrepo as [->|(_ & _ & ->)]; [left; reflexivity|].
      right. exists top. split; [exact Htop|reflexivity]. }
  split; [|split; [exact Hanalysis|]].
  - intros code_list file_summaries. split; [apply summarize_repo_call|].
    intros Hnone. rewrite summarize_repo_eq. cbv zeta.
    fold file_summaries. rewrite Hnone. reflexivity.
  - intros self cache repo_url.
    destruct (Hanalysis self cache repo_url) as [->|(top & _ & ->)];
      [cbn; lia|].
    rewrite summarize_repo_call. cbv zeta.
    destruct (List.filter usable _); cbn; lia.
Qed.

(** C3 (witness): with a model that raises no summary is kept, and the
    notice is returned. *)
Lemma C3_repository_call_once_witness :
  result (summarize_repo Fixture.model_down [Fixture.ten_lines])
  = inr NO_VALID_FILES.
Proof.
  apply (proj1 (C3_repository_call_once Fixture.model_down)
           [Fixture.ten_lines]).
  vm_compute. reflexivity.
Defined.

(** ** Chunking *)

(** C4 (counterexample). With a budget of 3 tokens the only word of the
    text, estimated at 8 tokens, is a chunk that exceeds the budget, and
    the chunk closed before it is the empty string although the text is not
    empty. *)
Lemma C4_oversized_word :
  _chunk_text (Fixture.world []) "abcdef" 3 = [EmptyString; "abcdef"]
  /\ estimate (Fixture.world []) "abcdef" = 8.
Proof. split; vm_compute; reflexivity. Qed.

(** C4 (amended). Chunking keeps every word and their order. A chunk
    exceeds the budget only when it is a single word whose own estimate
    exceeds it. When the first word of the text is within the budget no
    chunk is the empty string; when every word is, no chunk exceeds the
    budget either. *)
Theorem C4_chunks_keep_the_words w text max_length :
  let chunks := _chunk_text w text max_length in
  List.concat (List.map split chunks) = split text
  /\ Forall (fun chunk =>
       estimate w chunk <= max_length
       \/ exists word,
            split chunk = [word] /\ max_length < word_length w word) chunks
  /\ (match split text with
      | first :: _ => word_length w first <= max_length
      | [] => True
      end -> ~ In EmptyString chunks)
  /\ (Forall (fun word => word_length w word <= max_length) (split text) ->
      Forall (fun chunk =>
        estimate w chunk <= max_length /\ chunk <> EmptyString) chunks).
Proof.
  cbv zeta. unfold _chunk_text.
  pose proof (split_words text) as Hwords.
  assert (chunk_inv w max_length ([], [], 0)) as Hinit.
  { repeat split; try constructor. unfold words_length. cbn. lia. }
  destruct (chunk_loop_inv w max_length (split text) _ Hinit Hwords)
    as [Hinv Hflat].
  cbn [flat List.map List.concat app] in Hflat.
  assert (match split text with
          | first :: _ => word_length w first <= max_length
          | [] => True
          end ->
          ~ In EmptyString
              (let '(chunks, current_chunk, _) :=
                 fold_left (chunk_step w max_length) (split text) ([], [], 0) in
               match current_chunk with
               | [] => chunks
               | _ => chunks ++ [join (chr SP) current_chunk]
               end)) as Hnonempty.
  { destruct (split text) as [|first rest] eqn:Hsplit; [intros _ []|].
    intros Hfirst. inversion Hwords as [|? ? Hword Hrest]; subst.
    cbn [fold_left]. unfold chunk_step at 2. fold (word_length w first).
    cbn [Nat.add]. apply Nat.ltb_ge in Hfirst. rewrite Hfirst.
    assert (started ([], [] ++ [first], word_length w first)) as Hstart.
    { repeat split; [discriminate|intros []|]. repeat constructor. exact Hword. }
    pose proof (chunk_loop_started w max_length rest _ Hstart Hrest) as Hend.
    destruct (fold_left _ rest _) as [[chunks cur] len].
    destruct Hend as (Hne & Hchunks & Hcur).
    destruct cur as [|word cur]; [congruence|].
    intros Hin. apply in_app_or in Hin as [Hin|[Hin|[]]]; [auto|].
    inversion Hcur; subst. eapply join_nonempty; eauto. }
  destruct (fold_left (chunk_step w max_length) (split text) ([], [], 0))
    as [[chunks cur] len].
  destruct Hinv as (Hcur & Hlen & Hfits & Hchunks). cbn [flat] in Hflat.
  assert (List.concat
            (List.map split
               match cur with
               | [] => chunks
               | _ => chunks ++ [join (chr SP) cur]
               end) = split text
          /\ Forall (fun chunk => fits_or_single w max_length (split chunk))
               match cur with
               | [] => chunks
               | _ => chunks ++ [join (chr SP) cur]
               end) as [Hall Hbound].
  { destruct cur as [|word cur].
    - rewrite app_nil_r in Hflat. auto.
    - split.
      + rewrite List.map_app, List.concat_app. cbn [List.map List.concat].
        rewrite split_join, app_nil_r by exact Hcur. exact Hflat.
      + apply Forall_app. split; [exact Hchunks|].
        constructor; [|constructor]. rewrite split_join by exact Hcur.
        exact Hfits. }
  split; [exact Hall|]. split; [exact Hbound|]. split; [exact Hnonempty|].
  intros Hsmall.
  assert (~ In EmptyString match cur with
                           | [] => chunks
                           | _ => chunks ++ [join (chr SP) cur]
                           end) as Hne.
  { apply Hnonempty. destruct (split text); [exact I|].
    inversion Hsmall; assumption. }
  rewrite <- Hall in Hsmall.
  rewrite List.Forall_forall in Hbound |- *. intros chunk Hin. split.
  - destruct (Hbound _ Hin) as [Hle|(word & Hsplit & Hgt)]; [exact Hle|].
    rewrite List.Forall_forall in Hsmall.
    assert (word_length w word <= max_length); [|lia].
    apply Hsmall, List.in_concat. exists (split chunk). split.
    + apply List.in_map. exact Hin.
    + rewrite Hsplit. left. reflexivity.
  - intros ->. exact (Hne Hin).
Qed.

(** C4 (witness): a text whose words all fit a budget of 9 tokens. *)
Lemma C4_chunks_keep_the_words_witness :
  Forall (fun chunk =>
    estimate (Fixture.world []) chunk <= 9 /\ chunk <> EmptyString)
    (_chunk_text (Fixture.world []) "aa bb cc dddd e f" 9).
Proof.
  apply (C4_chunks_keep_the_words (Fixture.world []) "aa bb cc dddd e f" 9).
  vm_compute. repeat constructor.
Defined.

(** ** The cache *)

(** C5. The cache key is the md5 digest of the URL, whatever the state of
    the scraper. When the cache file of that key holds a document with both
    fields, [analyze_repository] returns the stored pair as it is, and the
    only call it makes is the read of that file: nothing is cloned or
    walked, no file of the repository is touched, the model is not
    called. *)
Theorem C5_cache_hit_returns_stored_result
    w self cache repo_url summaries total_files :
  cache !! cache_file_of w self repo_url
  = Some (JsonDoc (Some summaries) (Some total_files)) ->
  (forall self', get_cache_key w self' repo_url = md5_hexdigest w repo_url)
  /\ cache_file_of w self repo_url
     = PosixPath.join (cache_dir w) (md5_hexdigest w repo_url +:+ ".json")
  /\ analyze_repository w self cache repo_url
     = (inr (summaries, total_files),
        [EvCacheRead (cache_file_of w self repo_url)]).
Proof.
  intros Hhit. split; [reflexivity|]. split; [reflexivity|].
  apply analyze_repository_hit, Hhit.
Qed.

(** C5 (witness): a scraper that has cloned nothing, on a warm cache. *)
Lemma C5_cache_hit_returns_stored_result_witness :
  analyze_repository (Fixture.world []) Fixture.fresh Fixture.warm_cache
    Fixture.URL
  = (inr ([Fixture.stored_record], 1),
     [EvCacheRead (cache_file_of (Fixture.world []) Fixture.fresh Fixture.URL)]).
Proof.
  apply (C5_cache_hit_returns_stored_result (Fixture.world []) Fixture.fresh
           Fixture.warm_cache Fixture.URL [Fixture.stored_record] 1).
  vm_compute. reflexivity.
Defined.

(** The cache file is written last, and nothing else writes the cache. *)
Lemma cache_after_store cache t file doc :
  Forall (fun ev => forall file' doc', ev <> EvCacheStore file' doc') t ->
  cache_after cache (t ++ [EvCacheStore file doc]) = <[file := doc]> cache.
Proof.
  intros Hno. unfold cache_after. rewrite fold_left_app. cbn [fold_left].
  f_equal. induction Hno as [|ev t Hev _ IH] in cache |- *; [reflexivity|].
  cbn [fold_left]. destruct ev; try apply IH. edestruct Hev; reflexivity.
Qed.

(** Cold, then warm: after an analysis that returned the records of at
    least one file and could write the cache file, any further analysis of
    the same URL returns the same pair from the cache. *)
Lemma warm_after_cold w self cache repo_url top summaries total_files :
  cache_miss w self cache repo_url ->
  cloned_path self = Some top ->
  open_for_write w (cache_file_of w self repo_url) = None ->
  result (analyze_repository w self cache repo_url)
  = inr (summaries, total_files) ->
  total_files <> 0 ->
  forall self',
    analyze_repository w self'
      (cache_after cache (trace (analyze_repository w self cache repo_url)))
      repo_url
    = (inr (summaries, total_files),
       [EvCacheRead (cache_file_of w self repo_url)]).
Proof.
  intros Hmiss Htop Hopen Hres Hfiles self'.
  destruct (analyze_repository_miss_trace w self cache repo_url top Hmiss Htop)
    as (before & loop & repo & after & Heq & Hbefore & Hloop & Hrepo & _).
  rewrite (analyze_repository_miss_eq w self cache repo_url top Hmiss Htop)
    in Hres, Heq |- *.
  cbv zeta in *.
  destruct (kept w (candidates w top)) as [|file_path rest] eqn:Hkept.
  { cbn in Hres. congruence. }
  destruct (existsb (has_error w) (file_path :: rest)); [discriminate|].
  cbn [result trace fst snd] in *. injection Hres as <- <-.
  rewrite save_to_cache_eq, Hopen. cbn [trace snd].
  rewrite !app_assoc. rewrite cache_after_store.
  - apply (analyze_repository_hit w self'). apply lookup_insert_eq.
  - repeat apply Forall_app_2.
    + eapply List.Forall_impl; [|apply get_cached_summaries_events].
      intros ev [file ->] ? ?. discriminate.
    + constructor; [discriminate|].
      eapply List.Forall_impl; [|apply skip_traces_events].
      intros ev [p [->| ->]] ? ?; discriminate.
    + eapply List.Forall_impl; [|apply analyze_loop_events].
      intros ev (p & _ & [->|[->|[->|[? ->]]]]) ? ?; discriminate.
    + eapply List.Forall_impl; [|apply summarize_repo_events].
      intros ev (? & ? & ? & ->) ? ?. discriminate.
Qed.

(** ** The record of a file *)

(** C6 (counterexample). [x.py] is not a text file: its record has no
    language tag, although its extension is mapped to a language. *)
Lemma C6_binary_file_has_no_language :
  record_of Fixture.binary_only Fixture.cloned "/tmp/repo/x.py" !! "is_text"
  = Some (VBool false)
  /\ record_of Fixture.binary_only Fixture.cloned "/tmp/repo/x.py"
       !! "language" = None
  /\ language_tag "/tmp/repo/x.py" = VStr "Python".
Proof. repeat split; vm_compute; reflexivity. Qed.

Lemma elem_of_sublist (x : string) (l big : list string) :
  forallb (fun y => bool_decide (y ∈ big)) l = true -> x ∈ l -> x ∈ big.
Proof.
  rewrite List.forallb_forall. intros Hsub Hin.
  apply list_elem_of_In, Hsub, bool_decide_eq_true_1 in Hin. exact Hin.
Qed.

Lemma language_of_unmapped ext :
  ext ∉ mapped_extensions -> language_of ext = "Unknown".
Proof.
  unfold language_of. intros Hext.
  repeat match goal with
  | |- context [bool_decide (ext ∈ ?l)] =>
      rewrite (bool_decide_eq_false_2 (ext ∈ l))
        by (intros Hin; apply Hext; revert Hin; apply elem_of_sublist;
            vm_compute; reflexivity)
  end.
  reflexivity.
Qed.

(** The language tag of the record of any file. *)
Lemma language_of_record w self file_path :
  record_of w self file_path !! "language"
  = match os_stat_size w file_path, read_text w file_path with
    | inr _, inr content =>
        if textual (mime_of w file_path)
           && (3 <? length (split_char NL content))
        then Some (language_tag file_path)
        else None
    | _, _ => None
    end.
Proof.
  unfold record_of. rewrite get_file_summary_eq.
  unfold base_record, error_record.
  destruct (os_stat_size w file_path) as [e|size].
  { cbn. simplify_map_eq. reflexivity. }
  cbv zeta. destruct (textual (mime_of w file_path)); cbn [andb].
  2: { cbn. simplify_map_eq. destruct (read_text w file_path); reflexivity. }
  destruct (read_text w file_path) as [e|content].
  { cbn. simplify_map_eq. reflexivity. }
  rewrite (Nat.ltb_antisym _ 3). destruct (_ <=? 3); cbn [negb].
  { cbn. simplify_map_eq. reflexivity. }
  destruct (5 <? _); cbn; simplify_map_eq; reflexivity.
Qed.

(** C6 (amended). For a text file whose size and content can be read and
    whose content has more than 3 lines, the language tag of the record is
    the language of the lowercased extension of the path alone, [Unknown]
    for an extension without a language. The tag depends on the MIME
    decision: the record of a file that is not a text file has no language
    tag. *)
Theorem C6_language_tag w self file_path :
  (forall size content,
     os_stat_size w file_path = inr size ->
     textual (mime_of w file_path) = true ->
     read_text w file_path = inr content ->
     3 < length (split_char NL content) ->
     record_of w self file_path !! "language"
     = Some (VStr (language_of (lower (PosixPath.splitext_ext file_path)))))
  /\ (textual (mime_of w file_path) = false ->
      record_of w self file_path !! "language" = None)
  /\ (forall ext, ext ∉ mapped_extensions -> language_of ext = "Unknown").
Proof.
  split; [|split; [|apply language_of_unmapped]].
  - intros size content Hsize Htext Hread Hlines.
    rewrite language_of_record, Hsize, Hread, Htext.
    apply Nat.ltb_lt in Hlines. rewrite Hlines. reflexivity.
  - intros Hbinary. rewrite language_of_record, Hbinary.
    destruct (os_stat_size w file_path), (read_text w file_path); reflexivity.
Qed.

(** C6 (witness): a Python file of ten lines, and an extension without a
    language. *)
Lemma C6_language_tag_witness :
  record_of Fixture.large_and_small Fixture.cloned "/tmp/repo/main.py"
    !! "language" = Some (VStr "Python")
  /\ language_of ".rs" = "Unknown".
Proof.
  split.
  - apply (proj1 (C6_language_tag Fixture.large_and_small Fixture.cloned
                    "/tmp/repo/main.py") 64%Z Fixture.ten_lines);
      vm_compute; solve [reflexivity | lia].
  - apply (proj2 (proj2 (C6_language_tag (Fixture.world []) Fixture.cloned
                           "/tmp/repo/lib.rs"))).
    vm_compute. intros Hin. repeat (apply elem_of_cons in Hin as [Hin|Hin];
      [discriminate|]). inversion Hin.
Defined.

(** C7 (counterexample). The only file has 3 lines and its record has the
    sentinel as summary; the analysis still calls the model on its content,
    when it summarizes the repository. And when the third line ends with a
    newline the content splits into 4 pieces: the summary of the record is
    not the sentinel but [None]. *)
Lemma C7_short_file_reaches_the_model :
  length (split_char NL Fixture.three_lines) = 3
  /\ record_of Fixture.short_only Fixture.cloned "/tmp/repo/a.py" !! "summary"
     = Some (VStr TOO_SHORT)
  /\ List.filter is_model_call
       (trace (analyze_repository Fixture.short_only Fixture.cloned ∅
                 Fixture.URL))
     = [EvModel "x = 1 y = 2 z = 3" 46 30;
        EvModel "summary of: x = 1 y = 2 z = 3" 500 100]
  /\ length (split_char NL Fixture.three_lines_nl) = 4
  /\ record_of Fixture.short_with_newline Fixture.cloned "/tmp/repo/a.py"
       !! "summary" = Some VNone.
Proof. repeat split; vm_compute; reflexivity. Qed.

(** C7 (amended). For a text file whose size and content can be read and
    whose content has 3 or fewer lines, counted as the pieces between its
    newlines (a final newline adds an empty piece), [get_file_summary]
    returns a record whose summary is the sentinel, and makes four calls
    (the size, the MIME type twice, the read): none of the model. Only the
    production of the record is meant: the analysis sends the content of
    every file of the batch to [summarize_code] when it summarizes the
    repository. *)
Theorem C7_short_file_record w self file_path size content :
  os_stat_size w file_path = inr size ->
  textual (mime_of w file_path) = true ->
  read_text w file_path = inr content ->
  length (split_char NL content) <= 3 ->
  exists r,
    get_file_summary w self file_path
    = (inr r, [EvStat file_path; EvSniff file_path; EvSniff file_path;
               EvRead file_path])
    /\ r !! "summary" = Some (VStr TOO_SHORT).
Proof.
  intros Hsize Htext Hread Hlines.
  rewrite get_file_summary_eq, Hsize. cbv zeta. rewrite Htext, Hread.
  apply Nat.leb_le in Hlines. rewrite Hlines.
  eexists. split; [reflexivity|]. unfold base_record. simplify_map_eq.
  reflexivity.
Qed.

(** C7 (witness). *)
Lemma C7_short_file_record_witness :
  exists r,
    get_file_summary Fixture.short_only Fixture.cloned "/tmp/repo/a.py"
    = (inr r, [EvStat "/tmp/repo/a.py"; EvSniff "/tmp/repo/a.py";
               EvSniff "/tmp/repo/a.py"; EvRead "/tmp/repo/a.py"])
    /\ r !! "summary" = Some (VStr TOO_SHORT).
Proof.
  apply (C7_short_file_record Fixture.short_only Fixture.cloned
           "/tmp/repo/a.py" 64 Fixture.three_lines);
    vm_compute; solve [reflexivity | lia].
Defined.

(** C8 (counterexample). The only file has 4 lines and LOC 4, and its
    record has no summary; the analysis still calls the model on its
    content, when it summarizes the repository. *)
Lemma C8_small_file_reaches_the_model :
  length (split_char NL Fixture.four_lines) = 4
  /\ loc_of Fixture.four_lines = 4
  /\ record_of Fixture.small_only Fixture.cloned "/tmp/repo/a.py" !! "summary"
     = Some VNone
  /\ List.filter is_model_call
       (trace (analyze_repository Fixture.small_only Fixture.cloned ∅
                 Fixture.URL))
     = [EvModel "a = 1 b = 2 c = 3 d = 4" 46 30;
        EvModel "summary of: a = 1 b = 2 c = 3 d = 4" 500 100].
Proof. repeat split; vm_compute; reflexivity. Qed.

(** C8 (amended). For a text file whose size and content can be read,
    whose content has more than 3 lines and whose LOC is at most 5,
    [get_file_summary] returns a record whose summary is [None], with the
    LOC, and makes four calls (the size, the MIME type twice, the read):
    none of the model. Only the production of the record is meant: the
    analysis sends the content of every file of the batch to
    [summarize_code] when it summarizes the repository. *)
Theorem C8_small_file_record w self file_path size content :
  os_stat_size w file_path = inr size ->
  textual (mime_of w file_path) = true ->
  read_text w file_path = inr content ->
  3 < length (split_char NL content) ->
  loc_of content <= 5 ->
  exists r,
    get_file_summary w self file_path
    = (inr r, [EvStat file_path; EvSniff file_path; EvSniff file_path;
               EvRead file_path])
    /\ r !! "summary" = Some VNone
    /\ r !! "loc" = Some (VInt (Z.of_nat (loc_of content))).
Proof.
  intros Hsize Htext Hread Hlines Hloc.
  rewrite get_file_summary_eq, Hsize. cbv zeta. rewrite Htext, Hread.
  apply Nat.leb_gt in Hlines. rewrite Hlines.
  apply Nat.ltb_ge in Hloc. rewrite Hloc.
  eexists. split; [reflexivity|]. unfold base_record. simplify_map_eq.
  split; reflexivity.
Qed.

(** C8 (witness). *)
Lemma C8_small_file_record_witness :
  exists r,
    get_file_summary Fixture.small_only Fixture.cloned "/tmp/repo/a.py"
    = (inr r, [EvStat "/tmp/repo/a.py"; EvSniff "/tmp/repo/a.py";
               EvSniff "/tmp/repo/a.py"; EvRead "/tmp/repo/a.py"])
    /\ r !! "summary" = Some VNone
    /\ r !! "loc" = Some (VInt 4).
Proof.
  apply (C8_small_file_record Fixture.small_only Fixture.cloned
           "/tmp/repo/a.py" 64 Fixture.four_lines);
    vm_compute; solve [reflexivity | lia].
Defined.

(** ** Failures of the model *)

(** C9. [summarize_code] and [summarize_repo] always return a string. When
    a call of the model for a chunk raises, [summarize_code] returns the
    sentinel [Error generating summary]; when the call for the repository
    raises, [summarize_repo] returns the error paragraph with the message
    of the exception. *)
Theorem C9_model_failures_are_caught w :
  (forall code, exists s, result (summarize_code w code) = inr s)
  /\ (forall code chunk e,
        In (EvModel chunk 46 30) (trace (summarize_code w code)) ->
        pipeline w chunk 46 30 = inl e ->
        result (summarize_code w code) = inr ERROR_SUMMARY)
  /\ (forall code_list, exists s, result (summarize_repo w code_list) = inr s)
  /\ (forall code_list text e,
        In (EvModel text 500 100) (trace (summarize_repo w code_list)) ->
        pipeline w text 500 100 = inl e ->
        result (summarize_repo w code_list)
        = inr ("<p>Error generating repository summary: " +:+ str_exn e
               +:+ "</p>")).
Proof.
  split; [apply summarize_code_returns|].
  split; [apply summarize_code_raised|].
  split; [apply summarize_repo_returns|].
  intros code_list text e Hin Hfail.
  rewrite summarize_repo_eq in Hin |- *. cbv zeta in *.
  pose proof (per_file_no_repo_call w code_list) as Hper.
  rewrite List.Forall_forall in Hper.
  destruct (List.filter usable _) as [|s0 rest].
  - apply Hper in Hin. discriminate.
  - cbn [trace snd result fst] in *. apply in_app_or in Hin as [Hin|[Hin|[]]].
    + apply Hper in Hin. discriminate.
    + assert (join (chr NL +:+ chr NL) (s0 :: rest) = text) as Htext
        by congruence.
      rewrite Htext, Hfail. reflexivity.
Qed.

(** C9 (witness): a model that raises on every call. *)
Lemma C9_model_failures_are_caught_witness :
  result (summarize_code Fixture.model_down Fixture.ten_lines)
  = inr ERROR_SUMMARY.
Proof.
  apply (proj1 (proj2 (C9_model_failures_are_caught Fixture.model_down))
           Fixture.ten_lines
           (join (chr SP) (split Fixture.ten_lines))
           (Exn "RuntimeError" "CUDA out of memory")).
  - vm_compute. left. reflexivity.
  - reflexivity.
Defined.
(** * Further properties of the pipeline *)

Import MoreNotions.

(** ** The cache and the precondition of [analyze_repository] *)

Lemma cache_after_no_store cache t :
  Forall (fun ev => is_store ev = false) t -> cache_after cache t = cache.
Proof.
  intros Hno. unfold cache_after.
  induction Hno as [|ev t Hev _ IH] in cache |- *; [reflexivity|].
  cbn [fold_left]. destruct ev; try apply IH. discriminate.
Qed.

Lemma filter_no_store t :
  Forall (fun ev => is_store ev = false) t ->
  List.filter (fun ev => negb (is_store ev)) t = t.
Proof.
  induction 1 as [|ev t Hev _ IH]; [reflexivity|].
  cbn [List.filter]. rewrite Hev, IH. reflexivity.
Qed.

Section WithWorld.
Variable w : World.

Lemma no_store_lookup self cache repo_url :
  Forall (fun ev => is_store ev = false)
    (trace (get_cached_summaries w self cache repo_url)).
Proof.
  eapply List.Forall_impl; [|apply get_cached_summaries_events].
  intros ev [file ->]. reflexivity.
Qed.

Lemma no_store_walk top paths :
  Forall (fun ev => is_store ev = false) (EvWalk top :: skip_traces w paths).
Proof.
  constructor; [reflexivity|].
  eapply List.Forall_impl; [|apply skip_traces_events].
  intros ev [p [->| ->]]; reflexivity.
Qed.

Lemma no_store_loop self files st :
  Forall (fun ev => is_store ev = false)
    (trace (for_each files st (analyze_file w self))).
Proof.
  eapply List.Forall_impl; [|apply analyze_loop_events].
  intros ev (p & _ & [->|[->|[->|[? ->]]]]); reflexivity.
Qed.

Lemma no_store_summarize_repo code_contents :
  Forall (fun ev => is_store ev = false)
    (trace (LLM_Summarize.summarize_repo w code_contents)).
Proof.
  eapply List.Forall_impl; [|apply summarize_repo_events].
  intros ev (? & ? & ? & ->). reflexivity.
Qed.

(** What [analyze_repository] does when the cache does not answer: it
    raises for a scraper that has cloned nothing. *)
Lemma analyze_repository_not_cloned self cache repo_url :
  cache_miss w self cache repo_url ->
  cloned_path self = None ->
  analyze_repository w self cache repo_url
  = (inl (ValueError NOT_CLONED),
     trace (get_cached_summaries w self cache repo_url)).
Proof.
  intros Hmiss Hnone. unfold analyze_repository.
  pose proof (M_eta (get_cached_summaries w self cache repo_url)) as Heta.
  unfold cache_miss in Hmiss. rewrite Hmiss in Heta.
  set (t := trace _) in *. rewrite Heta. mstep. rewrite Hnone.
  cbn [raise result trace fst snd]. rewrite app_nil_r. reflexivity.
Qed.

(** The answer of the cache, as a hit or a miss. *)
Lemma cache_hit_or_miss self cache repo_url :
  (exists summaries total_files,
     cache !! cache_file_of w self repo_url
     = Some (JsonDoc (Some summaries) (Some total_files)))
  \/ cache_miss w self cache repo_url.
Proof.
  unfold cache_miss. rewrite get_cached_summaries_eq.
  destruct (cache !! cache_file_of w self repo_url) as [[|[s|] [n|]]|];
    eauto.
Qed.

(** The trace of a cache miss on a cloned repository, up to the write. *)
Lemma analyze_repository_miss_no_store self cache repo_url top :
  cache_miss w self cache repo_url ->
  cloned_path self = Some top ->
  let files := kept w (candidates w top) in
  let summaries :=
    List.map (record_of w self) files
    ++ [repository_record
          (repo_summary_of w (List.map (content_of w) files))] in
  exists t,
    Forall (fun ev => is_store ev = false) t
    /\ analyze_repository w self cache repo_url =
       match files with
       | [] => (inr ([], 0), t)
       | _ =>
           if existsb (has_error w) files
           then (inl (KeyError "is_text"), t)
           else (inr (summaries, length files),
                 t ++ trace (save_to_cache w self repo_url summaries
                               (length files)))
       end.
Proof.
  intros Hmiss Htop files summaries.
  rewrite (analyze_repository_miss_eq w self cache repo_url top Hmiss Htop).
  cbv zeta. fold files. fold summaries.
  set (before := trace _ ++ EvWalk top :: _).
  assert (Forall (fun ev => is_store ev = false) before) as Hbefore.
  { apply Forall_app_2; [apply no_store_lookup|apply no_store_walk]. }
  destruct files as [|file_path rest] eqn:Hfiles.
  { exists before. split; [exact Hbefore|reflexivity]. }
  destruct (existsb (has_error w) (file_path :: rest)).
  - exists (before ++ trace (for_each (file_path :: rest) ([], [])
                               (analyze_file w self))).
    split; [|reflexivity].
    apply Forall_app_2; [exact Hbefore|apply no_store_loop].
  - exists (before
            ++ trace (for_each (file_path :: rest) ([], [])
                        (analyze_file w self))
            ++ trace (LLM_Summarize.summarize_repo w
                        (List.map (content_of w) (file_path :: rest)))).
    split.
    + apply Forall_app_2; [exact Hbefore|].
      apply Forall_app_2; [apply no_store_loop|apply no_store_summarize_repo].
    + rewrite <- !app_assoc. reflexivity.
Qed.

End WithWorld.

(** X1. Whenever an analysis returns a count other than zero, and the
    cache file of the URL can be opened for writing, the cache directory
    afterwards holds exactly the returned pair under the key of the URL
    (its other files are untouched), and every later analysis of that URL,
    by any scraper, returns the same pair with the read of the cache file
    as its only call. *)
Theorem returned_result_is_cached
    w self cache repo_url summaries total_files :
  open_for_write w (cache_file_of w self repo_url) = None ->
  result (analyze_repository w self cache repo_url)
  = inr (summaries, total_files) ->
  total_files <> 0 ->
  let cache' :=
    cache_after cache (trace (analyze_repository w self cache repo_url)) in
  cache'
  = <[cache_file_of w self repo_url
      := JsonDoc (Some summaries) (Some total_files)]> cache
  /\ forall self',
       analyze_repository w self' cache' repo_url
       = (inr (summaries, total_files),
          [EvCacheRead (cache_file_of w self repo_url)]).
Proof.
  intros Hopen Hres Hfiles cache'.
  assert (cache'
          = <[cache_file_of w self repo_url
              := JsonDoc (Some summaries) (Some total_files)]> cache) as Heq.
  { subst cache'.
    destruct (cache_hit_or_miss w self cache repo_url)
      as [(s & n & Hhit)|Hmiss].
    - rewrite (analyze_repository_hit w self cache repo_url s n Hhit)
        in Hres |- *.
      cbn [result trace fst snd] in *. injection Hres as <- <-.
      cbn. symmetry. apply insert_id, Hhit.
    - destruct (cloned_path self) as [top|] eqn:Htop.
      2:{ rewrite (analyze_repository_not_cloned w self cache repo_url
                     Hmiss Htop) in Hres. discriminate. }
      destruct (analyze_repository_miss_no_store w self cache repo_url top
                  Hmiss Htop) as (t & Hno & Hrun).
      cbv zeta in Hrun. rewrite Hrun in Hres |- *. clear Hrun.
      destruct (kept w (candidates w top)) as [|file_path rest].
      { cbn in Hres. congruence. }
      destruct (existsb (has_error w) (file_path :: rest)); [discriminate|].
      cbn [result trace fst snd] in *. injection Hres as <- <-.
      rewrite save_to_cache_eq, Hopen. cbn [trace snd].
      apply cache_after_store.
      eapply List.Forall_impl; [|exact Hno].
      intros ev Hev ? ? ->. discriminate. }
  split; [exact Heq|]. intros self'. rewrite Heq.
  apply (analyze_repository_hit w self'). apply lookup_insert_eq.
Qed.

(** X1 (witness): the repository of one short file, analysed on an empty
    cache, then asked for again by a scraper that has cloned nothing. *)
Lemma returned_result_is_cached_witness :
  analyze_repository Fixture.short_only Fixture.fresh
    (cache_after ∅
       (trace (analyze_repository Fixture.short_only Fixture.cloned ∅
                 Fixture.URL)))
    Fixture.URL
  = (inr ([Fixture.stored_record;
           repository_record
             (_format_as_html "summary of: summary of: x = 1 y = 2 z = 3")],
          1),
     [EvCacheRead
        (cache_file_of Fixture.short_only Fixture.cloned Fixture.URL)]).
Proof.
  refine (proj2 (returned_result_is_cached Fixture.short_only Fixture.cloned
                   ∅ Fixture.URL _ 1 _ _ _) Fixture.fresh).
  - vm_compute. reflexivity.
  - vm_compute. reflexivity.
  - discriminate.
Defined.

(** X2. An analysis that raises, or that returns the count zero, makes no
    write to the cache directory: only a result with at least one analysed
    file is ever stored. *)
Theorem failed_or_empty_analysis_is_not_cached w self cache repo_url :
  (exists e, result (analyze_repository w self cache repo_url) = inl e)
  \/ (exists summaries,
        result (analyze_repository w self cache repo_url)
        = inr (summaries, 0)) ->
  Forall (fun ev => is_store ev = false)
    (trace (analyze_repository w self cache repo_url))
  /\ cache_after cache (trace (analyze_repository w self cache repo_url))
     = cache.
Proof.
  intros Hres.
  assert (Forall (fun ev => is_store ev = false)
            (trace (analyze_repository w self cache repo_url))) as Hno.
  { destruct (cache_hit_or_miss w self cache repo_url)
      as [(s & n & Hhit)|Hmiss].
    { rewrite (analyze_repository_hit w self cache repo_url s n Hhit).
      repeat constructor. }
    destruct (cloned_path self) as [top|] eqn:Htop.
    2:{ rewrite (analyze_repository_not_cloned w self cache repo_url
                   Hmiss Htop). apply no_store_lookup. }
    destruct (analyze_repository_miss_no_store w self cache repo_url top
                Hmiss Htop) as (t & Hno & Hrun).
    cbv zeta in Hrun. rewrite Hrun in Hres |- *. clear Hrun.
    destruct (kept w (candidates w top)) as [|file_path rest]; [exact Hno|].
    destruct (existsb (has_error w) (file_path :: rest)); [exact Hno|].
    destruct Hres as [[e He]|[s Hs]]; discriminate. }
  split; [exact Hno|]. apply cache_after_no_store, Hno.
Qed.

(** X2 (witness): the analysis of a repository whose first file cannot be
    read raises, and leaves the cache as it was. *)
Lemma failed_or_empty_analysis_is_not_cached_witness :
  Forall (fun ev => is_store ev = false)
    (trace (analyze_repository Fixture.failing_first Fixture.cloned
              Fixture.warm_cache "https://github.com/user/other.git"))
  /\ cache_after Fixture.warm_cache
       (trace (analyze_repository Fixture.failing_first Fixture.cloned
                 Fixture.warm_cache "https://github.com/user/other.git"))
     = Fixture.warm_cache.
Proof.
  apply (failed_or_empty_analysis_is_not_cached Fixture.failing_first
           Fixture.cloned Fixture.warm_cache
           "https://github.com/user/other.git").
  left. exists (KeyError "is_text"). vm_compute. reflexivity.
Defined.

(** X3. Writing the cache is best effort: in a world where the cache file
    cannot be opened for writing, an analysis returns (or raises) exactly
    what it does where the file can be written, makes the same calls in the
    same order except for the write, and leaves the cache directory as it
    was. *)
Theorem cache_write_failure_is_harmless w e self cache repo_url :
  let w' := with_open_for_write w (fun _ => Some e) in
  result (analyze_repository w' self cache repo_url)
  = result (analyze_repository w self cache repo_url)
  /\ trace (analyze_repository w' self cache repo_url)
     = List.filter (fun ev => negb (is_store ev))
         (trace (analyze_repository w self cache repo_url))
  /\ cache_after cache (trace (analyze_repository w' self cache repo_url))
     = cache.
Proof.
  intros w'.
  assert (result (analyze_repository w' self cache repo_url)
          = result (analyze_repository w self cache repo_url)
          /\ trace (analyze_repository w' self cache repo_url)
             = List.filter (fun ev => negb (is_store ev))
                 (trace (analyze_repository w self cache repo_url)))
    as [Hres Htrace].
  { destruct (cache_hit_or_miss w self cache repo_url)
      as [(s & n & Hhit)|Hmiss].
    { rewrite (analyze_repository_hit w self cache repo_url s n Hhit).
      rewrite (analyze_repository_hit w' self cache repo_url s n Hhit).
      split; reflexivity. }
    assert (cache_miss w' self cache repo_url) as Hmiss' by exact Hmiss.
    destruct (cloned_path self) as [top|] eqn:Htop.
    2:{ rewrite (analyze_repository_not_cloned w self cache repo_url
                   Hmiss Htop).
        rewrite (analyze_repository_not_cloned w' self cache repo_url
                   Hmiss' Htop).
        split; [reflexivity|]. cbn [trace snd]. symmetry.
        apply filter_no_store, no_store_lookup. }
    pose proof (analyze_repository_miss_eq w self cache repo_url top
                  Hmiss Htop) as Hrun.
    pose proof (analyze_repository_miss_eq w' self cache repo_url top
                  Hmiss' Htop) as Hrun'.
    cbv zeta in Hrun, Hrun'.
    change (kept w' (candidates w' top)) with (kept w (candidates w top))
      in Hrun'.
    change (has_error w') with (has_error w) in Hrun'.
    change (record_of w') with (record_of w) in Hrun'.
    change (content_of w') with (content_of w) in Hrun'.
    change (repo_summary_of w') with (repo_summary_of w) in Hrun'.
    change (LLM_Summarize.summarize_repo w')
      with (LLM_Summarize.summarize_repo w) in Hrun'.
    change (analyze_file w') with (analyze_file w) in Hrun'.
    change (get_cached_summaries w') with (get_cached_summaries w) in Hrun'.
    change (skip_traces w' (candidates w' top))
      with (skip_traces w (candidates w top)) in Hrun'.
    rewrite Hrun, Hrun'. clear Hrun Hrun'.
    set (before := trace _ ++ EvWalk top :: _).
    assert (Forall (fun ev => is_store ev = false) before) as Hbefore.
    { apply Forall_app_2; [apply no_store_lookup|apply no_store_walk]. }
    destruct (kept w (candidates w top)) as [|file_path rest].
    { split; [reflexivity|]. symmetry. apply filter_no_store, Hbefore. }
    destruct (existsb (has_error w) (file_path :: rest)).
    { split; [reflexivity|]. cbn [trace snd]. symmetry.
      apply filter_no_store, Forall_app_2;
        [exact Hbefore|apply no_store_loop]. }
    split; [reflexivity|]. cbn [trace snd].
    rewrite !List.filter_app.
    rewrite (filter_no_store before Hbefore).
    rewrite (filter_no_store _ (no_store_loop w self _ _)).
    rewrite (filter_no_store _ (no_store_summarize_repo w _)).
    rewrite !save_to_cache_eq. cbn [trace snd open_for_write w'
      with_open_for_write].
    destruct (open_for_write w _); reflexivity. }
  repeat split; [exact Hres|exact Htrace|].
  apply cache_after_no_store. rewrite Htrace.
  apply List.Forall_forall. intros ev Hin.
  apply List.filter_In in Hin. destruct Hin as [_ Hin].
  destruct (is_store ev); [discriminate|reflexivity].
Qed.

(** X4. A cache file that [json.load] refuses, or that lacks one of the
    two fields, never makes [get_cached_summaries] raise: it is read and
    answered with [None], and the analysis then goes on exactly as it does
    when the cache directory has no file for the URL (same result, same
    calls after the read). *)
Theorem unusable_cache_file_is_a_miss w self cache repo_url doc :
  cache !! cache_file_of w self repo_url = Some doc ->
  full_doc doc = false ->
  let file := cache_file_of w self repo_url in
  get_cached_summaries w self cache repo_url = (inr None, [EvCacheRead file])
  /\ analyze_repository w self cache repo_url
     = (result (analyze_repository w self (delete file cache) repo_url),
        EvCacheRead file
        :: trace (analyze_repository w self (delete file cache) repo_url)).
Proof.
  intros Hdoc Hfull file.
  assert (get_cached_summaries w self cache repo_url
          = (inr None, [EvCacheRead file])) as Hget.
  { rewrite get_cached_summaries_eq, Hdoc.
    destruct doc as [|[s|] [n|]]; try reflexivity. discriminate. }
  assert (get_cached_summaries w self (delete file cache) repo_url
          = (inr None, [])) as Hget'.
  { rewrite get_cached_summaries_eq. subst file.
    rewrite lookup_delete_eq. reflexivity. }
  split; [exact Hget|].
  assert (cache_miss w self cache repo_url) as Hmiss
    by (unfold cache_miss; rewrite Hget; reflexivity).
  assert (cache_miss w self (delete file cache) repo_url) as Hmiss'
    by (unfold cache_miss; rewrite Hget'; reflexivity).
  destruct (cloned_path self) as [top|] eqn:Htop.
  2:{ rewrite (analyze_repository_not_cloned w self cache repo_url
                 Hmiss Htop).
      rewrite (analyze_repository_not_cloned w self _ repo_url Hmiss' Htop).
      rewrite Hget, Hget'. reflexivity. }
  rewrite (analyze_repository_miss_eq w self cache repo_url top Hmiss Htop).
  rewrite (analyze_repository_miss_eq w self _ repo_url top Hmiss' Htop).
  cbv zeta. rewrite Hget, Hget'. cbn [trace snd app].
  destruct (kept w (candidates w top)) as [|file_path rest]; [reflexivity|].
  destruct (existsb (has_error w) (file_path :: rest)); reflexivity.
Qed.

(** X4 (witness): a cache file without the field [total_files]. *)
Lemma unusable_cache_file_is_a_miss_witness :
  let file := cache_file_of Fixture.short_only Fixture.cloned Fixture.URL in
  let cache := {[ file := JsonDoc (Some [Fixture.stored_record]) None ]} in
  get_cached_summaries Fixture.short_only Fixture.cloned cache Fixture.URL
  = (inr None, [EvCacheRead file])
  /\ analyze_repository Fixture.short_only Fixture.cloned cache Fixture.URL
     = (result (analyze_repository Fixture.short_only Fixture.cloned
                  (delete file cache) Fixture.URL),
        EvCacheRead file
        :: trace (analyze_repository Fixture.short_only Fixture.cloned
                    (delete file cache) Fixture.URL)).
Proof.
  apply (unusable_cache_file_is_a_miss Fixture.short_only Fixture.cloned
           {[ cache_file_of Fixture.short_only Fixture.cloned Fixture.URL
              := JsonDoc (Some [Fixture.stored_record]) None ]}
           Fixture.URL (JsonDoc (Some [Fixture.stored_record]) None)).
  - vm_compute. reflexivity.
  - reflexivity.
Defined.

(** X5. Without a clone there is nothing to analyse: for a scraper whose
    [repo_path] is unset (or the empty string) [get_all_files] raises
    [ValueError] without walking anything, and on a cache miss
    [analyze_repository] raises the same error after no call but the cache
    lookup. *)
Theorem analysis_needs_a_clone w self cache repo_url :
  cloned_path self = None ->
  cache_miss w self cache repo_url ->
  get_all_files w self = (inl (ValueError NOT_CLONED), [])
  /\ result (analyze_repository w self cache repo_url)
     = inl (ValueError NOT_CLONED)
  /\ Forall (fun ev => exists file, ev = EvCacheRead file)
       (trace (analyze_repository w self cache repo_url)).
Proof.
  intros Hnone Hmiss. split.
  - unfold get_all_files. rewrite Hnone. reflexivity.
  - rewrite (analyze_repository_not_cloned w self cache repo_url Hmiss Hnone).
    split; [reflexivity|]. apply get_cached_summaries_events.
Qed.

(** X5 (witness): a scraper that has cloned nothing, on an empty cache. *)
Lemma analysis_needs_a_clone_witness :
  get_all_files Fixture.short_only Fixture.fresh
  = (inl (ValueError NOT_CLONED), [])
  /\ result (analyze_repository Fixture.short_only Fixture.fresh ∅
               Fixture.URL)
     = inl (ValueError NOT_CLONED)
  /\ Forall (fun ev => exists file, ev = EvCacheRead file)
       (trace (analyze_repository Fixture.short_only Fixture.fresh ∅
                 Fixture.URL)).
Proof.
  apply (analysis_needs_a_clone Fixture.short_only Fixture.fresh ∅
           Fixture.URL).
  - reflexivity.
  - reflexivity.
Defined.

(** X6. After a clone that succeeds, into a directory [dir], the scraper
    points at [dir] whatever it pointed at before: [get_all_files] walks
    [dir] and returns its candidates that are not skipped, and
    [analyze_repository] does not raise the not-cloned error. *)
Theorem clone_then_scan w self repo_url dir :
  mkdtemp w = inr dir ->
  clone_from w repo_url dir = None ->
  nonempty dir = true ->
  let self' := fst (clone_repository w self repo_url) in
  snd (clone_repository w self repo_url) = (inr tt, [EvClone repo_url dir])
  /\ self' = {| temp_dir := Some dir; repo_path := Some dir |}
  /\ get_all_files w self'
     = (inr (kept w (candidates w dir)),
        EvWalk dir :: skip_traces w (candidates w dir))
  /\ forall cache url,
       result (analyze_repository w self' cache url)
       <> inl (ValueError NOT_CLONED).
Proof.
  intros Hdir Hclone Hne self'.
  assert (clone_repository w self repo_url
          = ({| temp_dir := Some dir; repo_path := Some dir |},
             (inr tt, [EvClone repo_url dir]))) as Heq.
  { unfold clone_repository. rewrite Hdir, Hclone. reflexivity. }
  subst self'. rewrite Heq. cbn [fst snd].
  assert (cloned_path {| temp_dir := Some dir; repo_path := Some dir |}
          = Some dir) as Htop.
  { unfold cloned_path. cbn [repo_path]. rewrite Hne. reflexivity. }
  repeat split.
  - apply get_all_files_eq, Htop.
  - intros cache url.
    destruct (cache_hit_or_miss w {| temp_dir := Some dir;
                                     repo_path := Some dir |} cache url)
      as [(s & n & Hhit)|Hmiss].
    { rewrite (analyze_repository_hit w _ cache url s n Hhit). discriminate. }
    rewrite (analyze_repository_miss_eq w _ cache url dir Hmiss Htop).
    cbv zeta.
    destruct (kept w (candidates w dir)) as [|file_path rest];
      [discriminate|].
    destruct (existsb (has_error w) (file_path :: rest)); discriminate.
Qed.

(** X6 (witness): a scraper that has cloned nothing clones the repository
    of one short file. *)
Lemma clone_then_scan_witness :
  let self' :=
    fst (clone_repository Fixture.short_only Fixture.fresh Fixture.URL) in
  snd (clone_repository Fixture.short_only Fixture.fresh Fixture.URL)
  = (inr tt, [EvClone Fixture.URL Fixture.TOP])
  /\ self' = {| temp_dir := Some Fixture.TOP; repo_path := Some Fixture.TOP |}
  /\ get_all_files Fixture.short_only self'
     = (inr (kept Fixture.short_only
               (candidates Fixture.short_only Fixture.TOP)),
        EvWalk Fixture.TOP
        :: skip_traces Fixture.short_only
             (candidates Fixture.short_only Fixture.TOP))
  /\ forall cache url,
       result (analyze_repository Fixture.short_only self' cache url)
       <> inl (ValueError NOT_CLONED).
Proof.
  apply (clone_then_scan Fixture.short_only Fixture.fresh Fixture.URL
           Fixture.TOP); reflexivity.
Defined.

(** ** The scan of the repository *)



(** *** The suffix test *)

Lemma rfind_char_shape c s i r :
  rfind_char c s = Some (i, r) ->
  exists r', r = String c r' /\ rfind_char c r' = None.
Proof.
  induction s as [|d s IH] in i, r |- *; [discriminate|].
  cbn [rfind_char].
  destruct (rfind_char c s) as [[j r0]|] eqn:Hs.
  - intros [= <- <-]. apply (IH j r0). reflexivity.
  - destruct (Ascii.eqb d c) eqn:Hd; [|discriminate].
    intros [= <- <-]. apply Ascii.eqb_eq in Hd. subst d.
    exists s. split; [reflexivity|exact Hs].
Qed.

Lemma rfind_dot_lower s :
  rfind_char PosixPath.DOT s = None ->
  rfind_char PosixPath.DOT (lower s) = None.
Proof.
  induction s as [|d s IH]; [reflexivity|]. cbn [rfind_char lower].
  destruct (rfind_char PosixPath.DOT s) as [[j r0]|]; [discriminate|].
  rewrite IH by reflexivity. rewrite lower_char_dot.
  destruct (Ascii.eqb d PosixPath.DOT); [discriminate|reflexivity].
Qed.

(** [Path(p).suffix] is empty, or a dot followed by characters other than
    the dot; so is its lower-case form. *)
Lemma suffix_shape file_path :
  lower (PosixPath.suffix file_path) = EmptyString
  \/ exists r, lower (PosixPath.suffix file_path) = String PosixPath.DOT r
               /\ rfind_char PosixPath.DOT r = None.
Proof.
  unfold PosixPath.suffix.
  destruct (rfind_char PosixPath.DOT (PosixPath.name file_path))
    as [[i r]|] eqn:Hfind; [|left; reflexivity].
  destruct (_ && _); [|left; reflexivity].
  destruct (rfind_char_shape _ _ _ _ Hfind) as (r' & -> & Hnone).
  right. exists (lower r'). split; [reflexivity|].
  apply rfind_dot_lower, Hnone.
Qed.

(** X8. The suffix that [should_skip_file] tests is [Path(p).suffix], which
    holds one dot at most; so the entries [.min.js] and [.min.css] of its
    deny list are never matched, for any path, and the test is the one on
    the eleven entries with a single dot. A file whose name ends in
    [.min.js] or [.min.css] has the suffix [.js] or [.css], and passes the
    suffix test. *)
Theorem compound_suffixes_are_never_matched file_path :
  (lower (PosixPath.suffix file_path)
     ∉ ({[ ".min.js"; ".min.css" ]} : gset string))
  /\ has_skip_extension file_path
     = bool_decide (lower (PosixPath.suffix file_path)
                      ∈ single_dot_skip_extensions)
  /\ forall stem,
       PosixPath.name file_path = stem +:+ ".min.js"
       \/ PosixPath.name file_path = stem +:+ ".min.css" ->
       has_skip_extension file_path = false.
Proof.
  assert (lower (PosixPath.suffix file_path)
            ∉ ({[ ".min.js"; ".min.css" ]} : gset string)) as Hnot.
  { intros Hin.
    destruct (suffix_shape file_path) as [Heq|(r & Heq & Hnone)];
      rewrite Heq in Hin.
    - apply elem_of_union in Hin.
      destruct Hin as [Hin|Hin]; apply elem_of_singleton in Hin;
        discriminate.
    - apply elem_of_union in Hin.
      destruct Hin as [Hin|Hin]; apply elem_of_singleton in Hin;
        injection Hin as ->; discriminate. }
  assert (has_skip_extension file_path
          = bool_decide (lower (PosixPath.suffix file_path)
                           ∈ single_dot_skip_extensions)) as Htest.
  { unfold has_skip_extension. apply bool_decide_ext.
    assert (skip_extensions
            = {[ ".min.js"; ".min.css" ]} ∪ single_dot_skip_extensions)
      as -> by (vm_compute; reflexivity).
    rewrite elem_of_union. tauto. }
  split; [exact Hnot|]. split; [exact Htest|].
  intros stem Hname. rewrite Htest. unfold PosixPath.suffix.
  destruct Hname as [-> | ->].
  - rewrite (rfind_char_app PosixPath.DOT stem ".min.js" 4 ".js")
      by reflexivity.
    rewrite length_append. cbn [String.length].
    assert ((0 <? String.length stem + 4) = true) as ->
      by (apply Nat.ltb_lt; lia).
    assert ((String.length stem + 4 <? String.length stem + 7 - 1) = true)
      as -> by (apply Nat.ltb_lt; lia).
    vm_compute. reflexivity.
  - rewrite (rfind_char_app PosixPath.DOT stem ".min.css" 4 ".css")
      by reflexivity.
    rewrite length_append. cbn [String.length].
    assert ((0 <? String.length stem + 4) = true) as ->
      by (apply Nat.ltb_lt; lia).
    assert ((String.length stem + 4 <? String.length stem + 8 - 1) = true)
      as -> by (apply Nat.ltb_lt; lia).
    vm_compute. reflexivity.
Qed.

(** X8 (witness): a minified script. *)
Lemma compound_suffixes_are_never_matched_witness :
  PosixPath.suffix "/tmp/repo/static/app.min.js" = ".js"
  /\ has_skip_extension "/tmp/repo/static/app.min.js" = false.
Proof.
  split; [vm_compute; reflexivity|].
  apply (proj2 (proj2 (compound_suffixes_are_never_matched
                         "/tmp/repo/static/app.min.js")) "app").
  left. vm_compute. reflexivity.
Defined.

(** ** The record of a file *)

Ltac lookup_record := simplify_map_eq; reflexivity.
Ltac dom_record := vm_compute; reflexivity.

(** X9. On a path that is not empty [get_file_summary] never raises, and
    its record has one of two shapes. When the size of the file or, for a
    text file, its content cannot be read, the record has the keys [path]
    and [error] and no other. Otherwise it has no key [error]; it has the
    keys [path], [size], [type], [is_text] and [summary], and the keys
    [loc] and [language] exactly when the file is a text file of more than
    three lines; and a file that is not a text file is never read and has
    the summary [None]. (On the empty path [os.path.relpath] raises, in the
    handler too.) *)
Theorem file_record_shape w self file_path :
  nonempty file_path = true ->
  let r := record_of w self file_path in
  result (get_file_summary w self file_path) = inr r
  /\ r !! "path" = Some (VStr (relpath w file_path (relpath_start self)))
  /\ match file_error w file_path with
     | Some e =>
         r = {[ "path" := VStr (relpath w file_path (relpath_start self));
                "error" := VStr (str_exn e) ]}
         /\ dom r = ({[ "path"; "error" ]} : gset string)
     | None =>
         r !! "error" = None
         /\ r !! "is_text" = Some (VBool (textual (mime_of w file_path)))
         /\ r !! "type" = Some (VStr (mime_of w file_path))
         /\ dom r
            = base_keys
              ∪ (if textual (mime_of w file_path)
                    && (3 <? length (split_char NL (content_of w file_path)))
                 then content_keys else ∅)
         /\ (textual (mime_of w file_path) = false ->
             r !! "summary" = Some VNone
             /\ trace (get_file_summary w self file_path) = probe file_path)
     end.
Proof.
  intros _ r. subst r.
  split; [rewrite get_file_summary_eta; reflexivity|].
  unfold record_of, file_error, content_of.
  rewrite get_file_summary_eq.
  unfold base_record, error_record, base_keys, content_keys.
  destruct (os_stat_size w file_path) as [e|size].
  { cbn [result fst]. split; [lookup_record|].
    split; [reflexivity|dom_record]. }
  cbv zeta. destruct (textual (mime_of w file_path)) eqn:Htext.
  2:{ cbn [result fst trace snd andb]. split; [lookup_record|].
      split; [lookup_record|]. split; [lookup_record|].
      split; [lookup_record|]. split; [dom_record|].
      intros _. split; [lookup_record|reflexivity]. }
  destruct (read_text w file_path) as [e|content].
  { cbn [result fst]. split; [lookup_record|].
    split; [reflexivity|dom_record]. }
  cbn [andb]. rewrite Nat.leb_antisym.
  destruct (3 <? length (split_char NL content)); cbn [negb].
  2:{ cbn [result fst]. split; [lookup_record|].
      split; [lookup_record|]. split; [lookup_record|].
      split; [lookup_record|]. split; [dom_record|]. discriminate. }
  destruct (5 <? loc_of content); cbn [result fst].
  - split; [lookup_record|].
    split; [lookup_record|]. split; [lookup_record|].
    split; [lookup_record|]. split; [dom_record|]. discriminate.
  - split; [lookup_record|].
    split; [lookup_record|]. split; [lookup_record|].
    split; [lookup_record|]. split; [dom_record|]. discriminate.
Qed.

(** X9 (witness): a file whose read fails, and its record of the
    failure. *)
Lemma file_record_shape_witness :
  let w := Fixture.failing_first in
  let file_path := "/tmp/repo/b.py" in
  let r := record_of w Fixture.cloned file_path in
  file_error w file_path
  = Some (Exn "OSError" "[Errno 5] Input/output error")
  /\ result (get_file_summary w Fixture.cloned file_path) = inr r
  /\ r !! "path" = Some (VStr "b.py")
  /\ match file_error w file_path with
     | Some e =>
         r = {[ "path" := VStr "b.py"; "error" := VStr (str_exn e) ]}
         /\ dom r = ({[ "path"; "error" ]} : gset string)
     | None =>
         r !! "error" = None
         /\ r !! "is_text" = Some (VBool (textual (mime_of w file_path)))
         /\ r !! "type" = Some (VStr (mime_of w file_path))
         /\ dom r
            = base_keys
              ∪ (if textual (mime_of w file_path)
                    && (3 <? length (split_char NL (content_of w file_path)))
                 then content_keys else ∅)
         /\ (textual (mime_of w file_path) = false ->
             r !! "summary" = Some VNone
             /\ trace (get_file_summary w Fixture.cloned file_path)
                = probe file_path)
     end.
Proof.
  split; [reflexivity|].
  apply (file_record_shape Fixture.failing_first Fixture.cloned
           "/tmp/repo/b.py").
  reflexivity.
Defined.

(** X10. The record of a text file of more than three lines and more than
    five lines of code: its summary is what [summarize_code] returns for the
    content of the file, whatever the model does. The calls are the stat,
    the two sniffs and the read, then those of [summarize_code]; a call of
    the model that raises makes the summary the sentinel
    [Error generating summary], never an [error] record. *)
Theorem eligible_file_record w self file_path size content :
  os_stat_size w file_path = inr size ->
  textual (mime_of w file_path) = true ->
  read_text w file_path = inr content ->
  3 < length (split_char NL content) ->
  5 < loc_of content ->
  let r := record_of w self file_path in
  get_file_summary w self file_path
  = (inr r,
     [EvStat file_path; EvSniff file_path; EvSniff file_path;
      EvRead file_path] ++ trace (summarize_code w content))
  /\ r !! "summary" = Some (VStr (summary_of w content))
  /\ r !! "loc" = Some (VInt (Z.of_nat (loc_of content)))
  /\ r !! "language" = Some (language_tag file_path)
  /\ r !! "error" = None
  /\ forall chunk e,
       In (EvModel chunk 46 30) (trace (summarize_code w content)) ->
       pipeline w chunk 46 30 = inl e ->
       r !! "summary" = Some (VStr ERROR_SUMMARY).
Proof.
  intros Hsize Htext Hread Hlines Hloc r.
  assert (get_file_summary w self file_path
          = (inr (<["language" := language_tag file_path]>
                    (<["summary" := VStr (summary_of w content)]>
                       (<["loc" := VInt (Z.of_nat (loc_of content))]>
                          (base_record w self file_path size)))),
             [EvStat file_path; EvSniff file_path; EvSniff file_path;
              EvRead file_path] ++ trace (summarize_code w content)))
    as Heq.
  { rewrite get_file_summary_eq, Hsize. cbv zeta. rewrite Htext, Hread.
    apply Nat.leb_gt in Hlines. rewrite Hlines.
    apply Nat.ltb_lt in Hloc. rewrite Hloc. reflexivity. }
  assert (r = <["language" := language_tag file_path]>
                (<["summary" := VStr (summary_of w content)]>
                   (<["loc" := VInt (Z.of_nat (loc_of content))]>
                      (base_record w self file_path size)))) as Hr.
  { subst r. unfold record_of. rewrite Heq. reflexivity. }
  rewrite Heq, Hr. unfold base_record.
  split; [reflexivity|].
  split; [lookup_record|]. split; [lookup_record|].
  split; [lookup_record|]. split; [lookup_record|].
  intros chunk e Hin Hfail.
  assert (summary_of w content = ERROR_SUMMARY) as ->.
  { unfold summary_of.
    rewrite (summarize_code_raised w content chunk e Hin Hfail).
    reflexivity. }
  lookup_record.
Qed.

(** X10 (witness): a file of ten lines of code, in a world whose model
    raises on every call. *)
Lemma eligible_file_record_witness :
  let r := record_of Fixture.model_down Fixture.cloned "/tmp/repo/a.py" in
  get_file_summary Fixture.model_down Fixture.cloned "/tmp/repo/a.py"
  = (inr r,
     [EvStat "/tmp/repo/a.py"; EvSniff "/tmp/repo/a.py";
      EvSniff "/tmp/repo/a.py"; EvRead "/tmp/repo/a.py"]
     ++ trace (summarize_code Fixture.model_down Fixture.ten_lines))
  /\ r !! "summary"
     = Some (VStr (summary_of Fixture.model_down Fixture.ten_lines))
  /\ r !! "loc" = Some (VInt (Z.of_nat (loc_of Fixture.ten_lines)))
  /\ r !! "language" = Some (language_tag "/tmp/repo/a.py")
  /\ r !! "error" = None
  /\ forall chunk e,
       In (EvModel chunk 46 30)
         (trace (summarize_code Fixture.model_down Fixture.ten_lines)) ->
       pipeline Fixture.model_down chunk 46 30 = inl e ->
       r !! "summary" = Some (VStr ERROR_SUMMARY).
Proof.
  apply (eligible_file_record Fixture.model_down Fixture.cloned
           "/tmp/repo/a.py" 64 Fixture.ten_lines);
    vm_compute; solve [reflexivity | lia].
Defined.

(** *** Lines and lines of code *)

Lemma split_char_nonempty sep s : split_char sep s <> [].
Proof.
  destruct s as [|c s]; [discriminate|]. cbn [split_char].
  destruct (Ascii.eqb c sep); [discriminate|].
  destruct (split_char sep s); discriminate.
Qed.

(** [(content + '\n' + line).split('\n')], for a [line] without newline. *)
Lemma split_char_append_line content line :
  count_char NL line = 0 ->
  split_char NL (content +:+ String NL line) = split_char NL content ++ [line].
Proof.
  intros Hline.
  assert (split_char NL line = [line]) as Hsplit.
  { induction line as [|c line IH]; [reflexivity|].
    cbn [count_char] in Hline. cbn [split_char].
    destruct (Ascii.eqb c NL); [discriminate|].
    rewrite IH by exact Hline. reflexivity. }
  induction content as [|c content IH].
  - rewrite append_nil_l. cbn [split_char].
    rewrite Ascii.eqb_refl, Hsplit. reflexivity.
  - rewrite append_cons. cbn [split_char]. rewrite IH.
    destruct (Ascii.eqb c NL); [reflexivity|].
    pose proof (split_char_nonempty NL content) as Hne.
    destruct (split_char NL content); [contradiction|reflexivity].
Qed.

Lemma length_split_char content :
  length (split_char NL content) = S (count_char NL content).
Proof.
  induction content as [|c content IH]; [reflexivity|].
  cbn [split_char count_char].
  destruct (Ascii.eqb c NL); cbn [length]; [rewrite IH; reflexivity|].
  pose proof (split_char_nonempty NL content) as Hne.
  destruct (split_char NL content); [contradiction|].
  cbn [length] in *. exact IH.
Qed.

(** X11. The two counts that [get_file_summary] takes of a content. Its
    number of lines is one more than the number of newline characters, so a
    file is too short exactly when it holds two newlines at most. Both
    counts are additive over the lines: a line appended after a newline
    adds one line, and adds one to the lines of code exactly when it is not
    blank and does not start, after its leading whitespace, with [#], [//],
    [/*] or [*]; a final newline adds a line and no line of code. *)
Theorem lines_and_loc_are_counted_per_line content line :
  count_char NL line = 0 ->
  length (split_char NL content) = S (count_char NL content)
  /\ (length (split_char NL content) <=? 3) = (count_char NL content <=? 2)
  /\ length (split_char NL (content +:+ String NL line))
     = S (length (split_char NL content))
  /\ loc_of (content +:+ String NL line)
     = loc_of content + (if is_code_line line then 1 else 0)
  /\ loc_of (content +:+ String NL EmptyString) = loc_of content.
Proof.
  intros Hline. split; [apply length_split_char|].
  split; [rewrite length_split_char; reflexivity|].
  assert (forall l, count_char NL l = 0 ->
            loc_of (content +:+ String NL l)
            = loc_of content + (if is_code_line l then 1 else 0)) as Hloc.
  { intros l Hl. unfold loc_of. rewrite (split_char_append_line _ _ Hl).
    rewrite List.filter_app, List.length_app. cbn [List.filter].
    destruct (is_code_line l); reflexivity. }
  split; [|split].
  - rewrite (split_char_append_line _ _ Hline), List.length_app.
    cbn [length]. lia.
  - apply Hloc, Hline.
  - rewrite (Hloc EmptyString) by reflexivity. cbn. lia.
Qed.

(** X11 (witness): a comment line appended to three lines. *)
Lemma lines_and_loc_are_counted_per_line_witness :
  length (split_char NL Fixture.three_lines)
  = S (count_char NL Fixture.three_lines)
  /\ (length (split_char NL Fixture.three_lines) <=? 3)
     = (count_char NL Fixture.three_lines <=? 2)
  /\ length (split_char NL (Fixture.three_lines +:+ String NL "  # done"))
     = S (length (split_char NL Fixture.three_lines))
  /\ loc_of (Fixture.three_lines +:+ String NL "  # done")
     = loc_of Fixture.three_lines
       + (if is_code_line "  # done" then 1 else 0)
  /\ loc_of (Fixture.three_lines +:+ String NL EmptyString)
     = loc_of Fixture.three_lines.
Proof.
  apply (lines_and_loc_are_counted_per_line Fixture.three_lines "  # done").
  reflexivity.
Defined.

(** ** The summarizer *)

(** *** Blank strings *)

Lemma lstrip_all_space s : all_space s = true -> lstrip s = EmptyString.
Proof.
  induction s as [|c s IH]; [reflexivity|]. cbn [all_space lstrip].
  destruct (isspace c); [exact IH|discriminate].
Qed.

Lemma rstrip_starts_word c s :
  isspace c = false -> rstrip (String c s) <> EmptyString.
Proof.
  intros Hc. cbn [rstrip]. destruct (rstrip s); [|discriminate].
  rewrite Hc. discriminate.
Qed.

(** [s.strip()] is empty exactly when [s] is whitespace only. *)
Lemma nonempty_strip s : nonempty (strip s) = negb (all_space s).
Proof.
  unfold strip. induction s as [|c s IH]; [reflexivity|].
  cbn [all_space lstrip]. destruct (isspace c) eqn:Hc; [exact IH|].
  pose proof (rstrip_starts_word c s Hc) as Hne.
  destruct (rstrip (String c s)); [contradiction|reflexivity].
Qed.

Lemma all_space_append s t :
  all_space (s +:+ t) = all_space s && all_space t.
Proof.
  induction s as [|c s IH]; [reflexivity|].
  rewrite append_cons. cbn [all_space]. rewrite IH, andb_assoc. reflexivity.
Qed.

(** [s.split()] is empty exactly when [s] is whitespace only. *)
Lemma split_all_space s : all_space s = true <-> split s = [].
Proof.
  induction s as [|c s IH]; [split; reflexivity|].
  rewrite split_cons. cbn [all_space].
  destruct (isspace c); [exact IH|]. cbn [andb].
  split; [discriminate|].
  destruct (starts_word s); [|discriminate].
  destruct (split s); discriminate.
Qed.

Section WithWorld.
Variable w : World.

(** The loop of [summarize_code] stops at the first chunk on which the
    model raises. *)
Lemma chunk_loop_eq chunks : forall summaries,
  trace (chunk_loop w chunks summaries)
  = List.map (fun chunk => EvModel chunk 46 30) (reached w chunks)
  /\ if forallb (answers w) chunks
     then result (chunk_loop w chunks summaries)
          = inr (summaries ++ List.map (answer w) chunks)
     else exists e, result (chunk_loop w chunks summaries) = inl e.
Proof.
  induction chunks as [|c chunks IH]; intros summaries.
  { cbn. rewrite app_nil_r. split; reflexivity. }
  rewrite chunk_loop_cons. cbn [forallb reached List.map].
  destruct (pipeline w c 46 30) as [e|summary] eqn:Hcall.
  { assert (answers w c = false) as ->
      by (unfold answers; rewrite Hcall; reflexivity).
    cbn. split; [reflexivity|]. exists e. reflexivity. }
  assert (answers w c = true) as ->
    by (unfold answers; rewrite Hcall; reflexivity).
  assert (answer w c = summary) as ->
    by (unfold answer; rewrite Hcall; reflexivity).
  destruct (IH (summaries ++ [summary])) as [Htrace Hres].
  cbn [trace snd result fst andb List.map]. rewrite Htrace.
  split; [reflexivity|].
  destruct (forallb (answers w) chunks); [|exact Hres].
  rewrite Hres, <- app_assoc. reflexivity.
Qed.

(** A step of the loop of [_chunk_text] leaves a current chunk with a word
    in it, so a text with a word has a chunk. *)
Lemma chunk_step_current max_length st word :
  snd (fst (chunk_step w max_length st word)) <> [].
Proof.
  destruct st as [[chunks current_chunk] current_length].
  unfold chunk_step. destruct (_ <? _); cbn [fst snd]; [discriminate|].
  destruct current_chunk; discriminate.
Qed.

Lemma chunk_loop_current max_length words : forall st,
  words <> [] \/ snd (fst st) <> [] ->
  snd (fst (fold_left (chunk_step w max_length) words st)) <> [].
Proof.
  induction words as [|word words IH]; intros st Hst.
  { destruct Hst as [Hst|Hst]; [contradiction|exact Hst]. }
  cbn [fold_left]. apply IH. right. apply chunk_step_current.
Qed.

Lemma _chunk_text_nonempty text max_length :
  split text <> [] -> _chunk_text w text max_length <> [].
Proof.
  intros Hwords. unfold _chunk_text.
  pose proof (chunk_loop_current max_length (split text) ([], [], 0)
                (or_introl Hwords)) as Hcur.
  destruct (fold_left _ _ _) as [[chunks current_chunk] current_length].
  cbn [fst snd] in Hcur.
  destruct current_chunk; [contradiction|].
  destruct chunks; discriminate.
Qed.

End WithWorld.

(** A text of more than one line has a word, when no line of it is
    blank. *)
Lemma join_lines_has_word line lines :
  nonempty (strip line) = true -> split (join (chr NL) (line :: lines)) <> [].
Proof.
  intros Hline Hsplit. apply split_all_space in Hsplit.
  rewrite nonempty_strip in Hline.
  unfold join in Hsplit. cbn [String.concat] in Hsplit.
  destruct lines.
  - rewrite Hsplit in Hline. discriminate.
  - rewrite all_space_append in Hsplit.
    destruct (all_space line); discriminate.
Qed.

Lemma _preprocess_code_has_word code :
  1 < length (split_char NL (_preprocess_code code)) ->
  split (_preprocess_code code) <> [].
Proof.
  unfold _preprocess_code.
  set (lines := List.filter _ _).
  assert (Forall (fun line => nonempty (strip line) = true) lines) as Hall.
  { apply List.Forall_forall. intros line Hin.
    apply List.filter_In in Hin. apply Hin. }
  destruct Hall as [|line rest Hline _].
  - cbn. lia.
  - intros _. apply join_lines_has_word, Hline.
Qed.

(** The closed form of [summarize_code] on a code that reaches the model. *)
Lemma summarize_code_goes_chunk_by_chunk_aux w code :
  nonempty (strip code) = true ->
  1 < length (split_char NL (_preprocess_code code)) ->
  let chunks := _chunk_text w (_preprocess_code code) 1000 in
  summarize_code w code
  = (inr (if forallb (answers w) chunks
          then join (chr SP) (List.map (answer w) chunks)
          else ERROR_SUMMARY),
     List.map (fun chunk => EvModel chunk 46 30) (reached w chunks))
  /\ chunks <> [].
Proof.
  intros Hcode Hlines chunks. split.
  2:{ apply _chunk_text_nonempty, _preprocess_code_has_word, Hlines. }
  rewrite summarize_code_unfold, Hcode. cbn [negb].
  apply Nat.leb_gt in Hlines. rewrite Hlines. fold chunks.
  destruct (chunk_loop_eq w chunks []) as [Htrace Hres].
  pose proof (M_eta (chunk_loop w chunks [])) as Heta.
  rewrite Htrace in Heta.
  destruct (forallb (answers w) chunks).
  - rewrite Hres in Heta. rewrite Heta. mstep.
    rewrite app_nil_r. reflexivity.
  - destruct Hres as [e He]. rewrite He in Heta. rewrite Heta. mstep.
    rewrite app_nil_r. reflexivity.
Qed.


(** X12. [summarize_code] on a code that is not blank and whose
    preprocessed form has more than one line: it calls the model on the
    chunks of the preprocessed code, one call per chunk with the short
    output bound, in order, and stops at the first call that raises. When
    every call answers it returns the answers joined by a space; when one
    raises it returns the sentinel [Error generating summary] and the
    answers before it are dropped. *)
Theorem summarize_code_goes_chunk_by_chunk w code :
  nonempty (strip code) = true ->
  1 < length (split_char NL (_preprocess_code code)) ->
  let chunks := _chunk_text w (_preprocess_code code) 1000 in
  summarize_code w code
  = (inr (if forallb (answers w) chunks
          then join (chr SP) (List.map (answer w) chunks)
          else ERROR_SUMMARY),
     List.map (fun chunk => EvModel chunk 46 30) (reached w chunks))
  /\ chunks <> [].
Proof. apply summarize_code_goes_chunk_by_chunk_aux. Qed.

(** X12 (witness): ten lines of code, which make one chunk. *)
Lemma summarize_code_goes_chunk_by_chunk_witness :
  let chunks :=
    _chunk_text Fixture.short_only (_preprocess_code Fixture.ten_lines) 1000 in
  summarize_code Fixture.short_only Fixture.ten_lines
  = (inr (if forallb (answers Fixture.short_only) chunks
          then join (chr SP) (List.map (answer Fixture.short_only) chunks)
          else ERROR_SUMMARY),
     List.map (fun chunk => EvModel chunk 46 30)
       (reached Fixture.short_only chunks))
  /\ chunks <> [].
Proof.
  apply (summarize_code_goes_chunk_by_chunk Fixture.short_only
           Fixture.ten_lines).
  - reflexivity.
  - vm_compute. lia.
Defined.

(** X13. [summarize_code] calls the model exactly when the code is not
    blank and more than one line is left of it by the preprocessing; in the
    other cases it answers with [Empty file] or
    [Single line file - skipping summary] on its own. *)
Theorem summarize_code_is_silent_on_trivial_code w code :
  (trace (summarize_code w code) = []
   <-> nonempty (strip code) = false
       \/ length (split_char NL (_preprocess_code code)) <= 1)
  /\ (nonempty (strip code) = false ->
      result (summarize_code w code) = inr EMPTY_FILE)
  /\ (nonempty (strip code) = true ->
      length (split_char NL (_preprocess_code code)) <= 1 ->
      result (summarize_code w code) = inr SINGLE_LINE).
Proof.
  assert (nonempty (strip code) = false ->
          summarize_code w code = (inr EMPTY_FILE, [])) as Hblank.
  { intros Hcode. rewrite summarize_code_unfold, Hcode. reflexivity. }
  assert (nonempty (strip code) = true ->
          length (split_char NL (_preprocess_code code)) <= 1 ->
          summarize_code w code = (inr SINGLE_LINE, [])) as Hsingle.
  { intros Hcode Hlines. rewrite summarize_code_unfold, Hcode.
    apply Nat.leb_le in Hlines. rewrite Hlines. reflexivity. }
  split; [|split].
  - split.
    + intros Htrace.
      destruct (nonempty (strip code)) eqn:Hcode; [|left; reflexivity].
      right.
      destruct (Nat.le_gt_cases
                  (length (split_char NL (_preprocess_code code))) 1)
        as [Hle|Hgt]; [exact Hle|].
      destruct (summarize_code_goes_chunk_by_chunk_aux w code Hcode Hgt)
        as [Hrun Hne].
      rewrite Hrun in Htrace. cbn [trace snd] in Htrace.
      destruct (_chunk_text w (_preprocess_code code) 1000);
        [contradiction|discriminate].
    + intros [Hcode|Hlines]; [rewrite Hblank by exact Hcode; reflexivity|].
      destruct (nonempty (strip code)) eqn:Hcode.
      * rewrite Hsingle by first [assumption|reflexivity]. reflexivity.
      * rewrite Hblank by reflexivity. reflexivity.
  - intros Hcode. rewrite Hblank by exact Hcode. reflexivity.
  - intros Hcode Hlines. rewrite Hsingle by assumption. reflexivity.
Qed.

(** *** The preprocessing *)

Lemma chars_append s t :
  list_ascii_of_string (s +:+ t)
  = list_ascii_of_string s ++ list_ascii_of_string t.
Proof.
  induction s as [|c s IH]; [reflexivity|].
  rewrite append_cons. cbn [list_ascii_of_string]. rewrite IH. reflexivity.
Qed.

Lemma collapse_blank_deletes s : forall skip,
  list_ascii_of_string (Rewrite.collapse_blank skip s)
    `sublist_of` list_ascii_of_string s.
Proof.
  induction s as [|c s IH]; intros skip; [constructor|].
  cbn [Rewrite.collapse_blank list_ascii_of_string].
  destruct skip as [|k]; [|apply sublist_cons, IH].
  destruct (Ascii.eqb c NL) eqn:Hc.
  - apply Ascii.eqb_eq in Hc. subst c.
    destruct (Rewrite.blank_span s); apply sublist_skip, IH.
  - apply sublist_skip, IH.
Qed.

Lemma strip_hash_deletes s : forall in_comment,
  list_ascii_of_string (Rewrite.strip_hash in_comment s)
    `sublist_of` list_ascii_of_string s.
Proof.
  induction s as [|c s IH]; intros in_comment; [constructor|].
  cbn [Rewrite.strip_hash list_ascii_of_string].
  destruct (Ascii.eqb c NL); [apply sublist_skip, IH|].
  destruct (in_comment || _); [apply sublist_cons, IH|apply sublist_skip, IH].
Qed.

Lemma strip_slashes_deletes s : forall in_comment,
  list_ascii_of_string (Rewrite.strip_slashes in_comment s)
    `sublist_of` list_ascii_of_string s.
Proof.
  induction s as [|c s IH]; intros in_comment; [constructor|].
  cbn [Rewrite.strip_slashes list_ascii_of_string].
  destruct (Ascii.eqb c NL); [apply sublist_skip, IH|].
  destruct (in_comment || _); [apply sublist_cons, IH|apply sublist_skip, IH].
Qed.

Lemma strip_block_deletes s : forall skip,
  list_ascii_of_string (Rewrite.strip_block skip s)
    `sublist_of` list_ascii_of_string s.
Proof.
  induction s as [|c s IH]; intros skip; [constructor|].
  cbn [Rewrite.strip_block list_ascii_of_string].
  destruct skip as [|k]; [|apply sublist_cons, IH].
  destruct (startswith (String c s) "/*").
  - destruct (Rewrite.find_close (Rewrite.behead s));
      [apply sublist_cons, IH|apply sublist_skip, IH].
  - apply sublist_skip, IH.
Qed.

Lemma Forall_deleted {A} (P : A -> Prop) (l1 l2 : list A) :
  l1 `sublist_of` l2 -> Forall P l2 -> Forall P l1.
Proof.
  induction 1 as [|x l1 l2 _ IH|x l1 l2 _ IH]; intros Hall.
  - constructor.
  - constructor; [apply (List.Forall_inv Hall)|].
    apply IH, (List.Forall_inv_tail Hall).
  - apply IH, (List.Forall_inv_tail Hall).
Qed.

(** After the first pass over the comments no [#] is left. *)
Lemma strip_hash_no_hash s : forall in_comment,
  Forall (fun c => c <> "#"%char)
    (list_ascii_of_string (Rewrite.strip_hash in_comment s)).
Proof.
  induction s as [|c s IH]; intros in_comment; [constructor|].
  cbn [Rewrite.strip_hash].
  destruct (Ascii.eqb c NL) eqn:Hnl.
  { cbn [list_ascii_of_string]. constructor; [|apply IH].
    apply Ascii.eqb_eq in Hnl. subst c. discriminate. }
  destruct in_comment; cbn [orb]; [apply IH|].
  destruct (Ascii.eqb c "#") eqn:Hc; [apply IH|].
  cbn [list_ascii_of_string]. constructor; [|apply IH].
  intros ->. discriminate.
Qed.

(** [s.split('\n')], joined again with newlines, is [s]. *)
Lemma join_split_char s : join (chr NL) (split_char NL s) = s.
Proof.
  unfold join. induction s as [|c s IH]; [reflexivity|].
  cbn [split_char]. destruct (Ascii.eqb c NL) eqn:Hc.
  - apply Ascii.eqb_eq in Hc. subst c.
    pose proof (split_char_nonempty NL s) as Hne.
    cbn [String.concat]. destruct (split_char NL s); [contradiction|].
    rewrite IH. reflexivity.
  - pose proof (split_char_nonempty NL s) as Hne.
    destruct (split_char NL s) as [|l ls]; [contradiction|].
    cbn [String.concat] in *. destruct ls.
    + rewrite IH. reflexivity.
    + rewrite append_cons, IH. reflexivity.
Qed.

(** The lines that are filtered out of a text are deleted from it. *)
Lemma join_filter_deletes (keep : string -> bool) lines :
  list_ascii_of_string (join (chr NL) (List.filter keep lines))
    `sublist_of` list_ascii_of_string (join (chr NL) lines).
Proof.
  unfold join. induction lines as [|l ls IH]; [constructor|].
  cbn [List.filter].
  assert (list_ascii_of_string (String.concat (chr NL) (List.filter keep ls))
            `sublist_of`
          list_ascii_of_string (String.concat (chr NL) (l :: ls))) as Hdrop.
  { cbn [String.concat]. destruct ls as [|l' ls'].
    - cbn. apply sublist_nil_l.
    - rewrite !chars_append. apply sublist_inserts_l, sublist_inserts_l, IH. }
  destruct (keep l); [|exact Hdrop].
  cbn [String.concat].
  destruct (List.filter keep ls) as [|k ks] eqn:Hks.
  - destruct ls; [reflexivity|].
    rewrite chars_append. apply sublist_inserts_r. reflexivity.
  - destruct ls as [|l' ls']; [discriminate|].
    rewrite !chars_append. apply sublist_app; [reflexivity|].
    apply sublist_app; [reflexivity|]. exact IH.
Qed.

(** The pieces of [s.split('\n')] hold no newline. *)
Lemma split_char_no_newline s :
  Forall (fun line => count_char NL line = 0) (split_char NL s).
Proof.
  induction s as [|c s IH]; [repeat constructor|].
  cbn [split_char]. destruct (Ascii.eqb c NL) eqn:Hc.
  - constructor; [reflexivity|exact IH].
  - destruct IH as [|l ls Hl Hls]; [repeat constructor; cbn; rewrite Hc;
                                     reflexivity|].
    constructor; [|exact Hls]. cbn [count_char]. rewrite Hc. exact Hl.
Qed.

Lemma split_char_line_then s t :
  count_char NL s = 0 ->
  split_char NL (s +:+ String NL t) = s :: split_char NL t.
Proof.
  induction s as [|c s IH]; intros Hs.
  - rewrite append_nil_l. cbn [split_char]. rewrite Ascii.eqb_refl.
    reflexivity.
  - rewrite append_cons. cbn [split_char count_char] in *.
    destruct (Ascii.eqb c NL); [discriminate|].
    rewrite IH by exact Hs. reflexivity.
Qed.

Lemma split_char_line s : count_char NL s = 0 -> split_char NL s = [s].
Proof.
  induction s as [|c s IH]; intros Hs; [reflexivity|].
  cbn [split_char count_char] in *.
  destruct (Ascii.eqb c NL); [discriminate|].
  rewrite IH by exact Hs. reflexivity.
Qed.

(** Lines without newline, joined with newlines and split again. *)
Lemma split_char_join line lines :
  Forall (fun line => count_char NL line = 0) (line :: lines) ->
  split_char NL (join (chr NL) (line :: lines)) = line :: lines.
Proof.
  unfold join. induction lines as [|l ls IH] in line |- *; intros Hall.
  - cbn [String.concat]. apply split_char_line.
    apply (List.Forall_inv Hall).
  - change (String.concat (chr NL) (line :: l :: ls))
      with (line +:+ String NL (String.concat (chr NL) (l :: ls))).
    rewrite split_char_line_then by apply (List.Forall_inv Hall).
    rewrite IH by apply (List.Forall_inv_tail Hall). reflexivity.
Qed.

(** X14. [_preprocess_code] only deletes: its result is a subsequence of
    the characters of the code. The result holds no [#] (what follows one
    on its line is gone with it), and it is the empty string or a text
    every line of which has a character that is not whitespace. *)
Theorem preprocessing_only_deletes code :
  let out := _preprocess_code code in
  list_ascii_of_string out `sublist_of` list_ascii_of_string code
  /\ Forall (fun c => c <> "#"%char) (list_ascii_of_string out)
  /\ (out = EmptyString
      \/ Forall (fun line => nonempty (strip line) = true)
           (split_char NL out)).
Proof.
  intros out. subst out. unfold _preprocess_code.
  set (collapsed := Rewrite.collapse_blank 0 code).
  set (hashed := Rewrite.strip_hash false collapsed).
  set (slashed := Rewrite.strip_slashes false hashed).
  set (cleaned := Rewrite.strip_block 0 slashed).
  set (keep := fun line => nonempty (strip line)).
  assert (list_ascii_of_string (join (chr NL)
                                  (List.filter keep (split_char NL cleaned)))
            `sublist_of` list_ascii_of_string cleaned) as Hlines.
  { rewrite <- (join_split_char cleaned) at 2. apply join_filter_deletes. }
  assert (list_ascii_of_string cleaned
            `sublist_of` list_ascii_of_string hashed) as Hcomments.
  { etransitivity; [apply strip_block_deletes|apply strip_slashes_deletes]. }
  split; [|split].
  - etransitivity; [exact Hlines|]. etransitivity; [exact Hcomments|].
    etransitivity; [apply strip_hash_deletes|apply collapse_blank_deletes].
  - eapply Forall_deleted; [|apply (strip_hash_no_hash collapsed false)].
    etransitivity; [exact Hlines|exact Hcomments].
  - assert (Forall (fun line => count_char NL line = 0 /\ keep line = true)
              (List.filter keep (split_char NL cleaned))) as Hkept.
    { apply List.Forall_forall. intros line Hin.
      apply List.filter_In in Hin. destruct Hin as [Hin Hkeep].
      split; [|exact Hkeep].
      pose proof (split_char_no_newline cleaned) as Hno.
      rewrite List.Forall_forall in Hno. apply Hno, Hin. }
    destruct (List.filter keep (split_char NL cleaned)) as [|line lines];
      [left; reflexivity|].
    right. rewrite split_char_join.
    + eapply List.Forall_impl; [|exact Hkept]. intros l [_ Hl]. exact Hl.
    + eapply List.Forall_impl; [|exact Hkept]. intros l [Hl _]. exact Hl.
Qed.

(** *** The borders between chunks *)

Section WithWorld.
Variable w : World.

(** While the words fit, the loop of [_chunk_text] only adds them to the
    current chunk. *)
Lemma chunk_loop_fits max_length words : forall chunks current_chunk,
  words_length w current_chunk + words_length w words <= max_length ->
  fold_left (chunk_step w max_length) words
    (chunks, current_chunk, words_length w current_chunk)
  = (chunks, current_chunk ++ words,
     words_length w (current_chunk ++ words)).
Proof.
  induction words as [|word words IH]; intros chunks current_chunk Hfit.
  { rewrite app_nil_r. reflexivity. }
  cbn [fold_left]. unfold chunk_step at 2. fold (word_length w word).
  change (words_length w (word :: words))
    with (word_length w word + words_length w words) in Hfit.
  assert ((max_length <? words_length w current_chunk + word_length w word)
          = false) as -> by (apply Nat.ltb_ge; lia).
  assert (words_length w current_chunk + word_length w word
          = words_length w (current_chunk ++ [word])) as ->.
  { rewrite words_length_app. unfold words_length at 3. cbn. lia. }
  rewrite IH.
  - rewrite <- app_assoc. reflexivity.
  - rewrite words_length_app. unfold words_length at 2. cbn. lia.
Qed.

Lemma closed_when_full_snoc max_length chunks chunk :
  closed_when_full w max_length chunks ->
  match last chunks with
  | Some a =>
      match split chunk with
      | word :: _ => did_not_fit w max_length a word
      | [] => False
      end
  | None => True
  end ->
  closed_when_full w max_length (chunks ++ [chunk]).
Proof.
  induction chunks as [|a [|b rest] IH]; intros Hall Hlast.
  - exact I.
  - cbn in *. split; [exact Hlast|exact I].
  - destruct Hall as [Hab Hrest].
    change ((a :: b :: rest) ++ [chunk])
      with (a :: ((b :: rest) ++ [chunk])).
    change (closed_when_full w max_length (a :: (b :: rest) ++ [chunk]))
      with (match split b with
            | word :: _ => did_not_fit w max_length a word
            | [] => False
            end
            /\ closed_when_full w max_length ((b :: rest) ++ [chunk])).
    split; [exact Hab|]. apply IH; [exact Hrest|exact Hlast].
Qed.

Lemma border_step max_length st word :
  border_inv w max_length st -> is_word word = true ->
  border_inv w max_length (chunk_step w max_length st word).
Proof.
  destruct st as [[chunks cur] len].
  intros (Hwords & Hlen & Hclosed & Hlast) Hword.
  unfold chunk_step. fold (word_length w word).
  destruct (max_length <? len + word_length w word) eqn:Hover.
  - apply Nat.ltb_lt in Hover. repeat split.
    + repeat constructor. exact Hword.
    + unfold words_length. cbn. lia.
    + apply closed_when_full_snoc; [exact Hclosed|].
      rewrite split_join by exact Hwords.
      destruct (last chunks); [|exact I]. exact Hlast.
    + rewrite last_snoc. unfold did_not_fit, estimate.
      rewrite split_join by exact Hwords. lia.
  - repeat split.
    + apply Forall_app. split; [exact Hwords|]. repeat constructor.
      exact Hword.
    + rewrite words_length_app. unfold words_length at 2. cbn. lia.
    + exact Hclosed.
    + destruct (last chunks); [|exact I].
      destruct cur; [destruct Hlast|exact Hlast].
Qed.

Lemma border_loop max_length words : forall st,
  border_inv w max_length st ->
  Forall (fun word => is_word word = true) words ->
  border_inv w max_length (fold_left (chunk_step w max_length) words st).
Proof.
  induction words as [|word words IH]; intros st Hst Hwords; [exact Hst|].
  cbn [fold_left]. apply IH; [|apply (List.Forall_inv_tail Hwords)].
  apply border_step; [exact Hst|apply (List.Forall_inv Hwords)].
Qed.

Lemma closed_when_full_lookup max_length chunks : forall i a b,
  closed_when_full w max_length chunks ->
  chunks !! i = Some a -> chunks !! S i = Some b ->
  exists word rest,
    split b = word :: rest /\ did_not_fit w max_length a word.
Proof.
  induction chunks as [|x [|y rest] IH]; intros i a b Hall Ha Hb;
    [discriminate|destruct i; discriminate|].
  destruct Hall as [Hxy Hrest]. destruct i as [|i].
  - cbn in Ha, Hb. injection Ha as <-. injection Hb as <-.
    destruct (split y) as [|word ws]; [destruct Hxy|]. eauto.
  - apply (IH i a b Hrest); [exact Ha|exact Hb].
Qed.

Lemma _chunk_text_closed_when_full text max_length :
  closed_when_full w max_length (_chunk_text w text max_length).
Proof.
  unfold _chunk_text.
  assert (border_inv w max_length ([], [], 0)) as Hinit.
  { repeat split; constructor. }
  pose proof (border_loop max_length (split text) _ Hinit (split_words text))
    as Hend.
  destruct (fold_left _ _ _) as [[chunks cur] len].
  destruct Hend as (Hwords & _ & Hclosed & Hlast).
  destruct cur as [|word rest]; [exact Hclosed|].
  apply closed_when_full_snoc; [exact Hclosed|].
  rewrite split_join by exact Hwords. destruct (last chunks); exact Hlast.
Qed.

End WithWorld.

(** X15. [_chunk_text] closes a chunk only when it must: of two chunks
    that follow each other the second one is not empty, and its first word
    would have taken the first one over the budget (the estimate of the
    first chunk plus that of the word exceeds [max_length]). *)
Theorem chunks_are_closed_only_when_full w text max_length i a b :
  _chunk_text w text max_length !! i = Some a ->
  _chunk_text w text max_length !! S i = Some b ->
  exists word rest,
    split b = word :: rest
    /\ max_length < estimate w a + word_length w word.
Proof.
  intros Ha Hb.
  apply (closed_when_full_lookup w max_length _ i a b
           (_chunk_text_closed_when_full w text max_length) Ha Hb).
Qed.

(** X15 (witness): four words of three characters (five tokens each) and
    a budget of twelve tokens make two chunks of two words. *)
Lemma chunks_are_closed_only_when_full_witness :
  exists word rest,
    split "ccc ddd" = word :: rest
    /\ 12 < estimate Fixture.short_only "aaa bbb"
            + word_length Fixture.short_only word.
Proof.
  apply (chunks_are_closed_only_when_full Fixture.short_only
           "aaa bbb  ccc ddd" 12 0 "aaa bbb" "ccc ddd");
    vm_compute; reflexivity.
Defined.

(** X16. A text whose words fit the budget together is one chunk: its
    words joined by single spaces, whatever whitespace separated them. A
    text without a word has no chunk. *)
Theorem text_within_budget_is_one_chunk w text max_length :
  words_length w (split text) <= max_length ->
  _chunk_text w text max_length
  = match split text with
    | [] => []
    | words => [join (chr SP) words]
    end.
Proof.
  intros Hfit. unfold _chunk_text.
  change 0 with (words_length w []).
  rewrite (chunk_loop_fits w max_length (split text) [] []) by exact Hfit.
  cbn [app]. destruct (split text); reflexivity.
Qed.

(** X16 (witness): three words on two lines, within a budget of 1000. *)
Lemma text_within_budget_is_one_chunk_witness :
  _chunk_text Fixture.short_only "x  =
 1" 1000
  = ["x = 1"].
Proof.
  apply (text_within_budget_is_one_chunk Fixture.short_only "x  =
 1" 1000).
  vm_compute. lia.
Defined.

(** *** The summary of the repository *)

Lemma summarize_code_trivial w code :
  trivial code = true ->
  summarize_code w code = (inr (sentinel_of code), []).
Proof.
  unfold trivial, sentinel_of. intros Htrivial.
  rewrite summarize_code_unfold.
  destruct (nonempty (strip code)); cbn [negb orb] in *; [|reflexivity].
  rewrite Htrivial. reflexivity.
Qed.

(** X17. The two answers that [summarize_code] gives on its own, [Empty
    file] and [Single line file - skipping summary], count as summaries in
    [summarize_repo]: for a non-empty list of codes that are all blank or
    of one line after preprocessing, it makes no call with the short bound
    and exactly one call with the long bound, on those answers joined by
    blank lines, and returns the formatted answer of the model (or the
    error paragraph when that call raises). *)
Theorem trivial_files_reach_the_repository_call w code_list :
  code_list <> [] ->
  Forall (fun code => trivial code = true) code_list ->
  let combined :=
    join (chr NL +:+ chr NL) (List.map sentinel_of code_list) in
  summarize_repo w code_list
  = (inr match pipeline w combined 500 100 with
         | inr final_summary => _format_as_html final_summary
         | inl e =>
             "<p>Error generating repository summary: " +:+ str_exn e
             +:+ "</p>"
         end,
     [EvModel combined 500 100]).
Proof.
  intros Hne Hall combined.
  rewrite summarize_repo_eq. cbv zeta.
  assert (List.filter usable (List.map (summary_of w) code_list)
          = List.map sentinel_of code_list) as ->.
  { clear Hne combined. induction Hall as [|code rest Hcode _ IH];
      [reflexivity|].
    assert (summary_of w code = sentinel_of code) as Hsum.
    { unfold summary_of. rewrite (summarize_code_trivial w code Hcode).
      reflexivity. }
    cbn [List.map List.filter]. rewrite Hsum, IH. unfold sentinel_of.
    destruct (nonempty (strip code)); reflexivity. }
  assert (List.concat
            (List.map (fun code => trace (summarize_code w code)) code_list)
          = []) as ->.
  { clear Hne combined. induction Hall as [|code rest Hcode _ IH];
      [reflexivity|].
    cbn [List.map List.concat].
    rewrite (summarize_code_trivial w code Hcode), IH. reflexivity. }
  fold combined.
  destruct code_list as [|code rest]; [contradiction|]. reflexivity.
Qed.

(** X17 (witness): a blank file and a file of one line. *)
Lemma trivial_files_reach_the_repository_call_witness :
  summarize_repo Fixture.short_only ["   "; "x = 1"]
  = (inr (_format_as_html
            "summary of: Empty file

Single line file - skipping summary"),
     [EvModel "Empty file

Single line file - skipping summary" 500 100]).
Proof.
  apply (trivial_files_reach_the_repository_call Fixture.short_only
           ["   "; "x = 1"]).
  - discriminate.
  - repeat constructor.
Defined.

(** *** The HTML of the summary *)

Lemma split_str_whole sep s :
  contains s sep = false -> Rewrite.split_str sep 0 s = [s].
Proof.
  induction s as [|c s IH]; intros Hno; [reflexivity|].
  cbn [contains] in Hno. apply orb_false_iff in Hno.
  destruct Hno as [Hhere Hlater].
  cbn [Rewrite.split_str]. rewrite Hhere, IH by exact Hlater. reflexivity.
Qed.

(** X18. [_format_as_html] makes a heading of the first paragraph, and
    paragraphs are separated by blank lines only: a text that holds no two
    newlines in a row is rendered as one [h1] element, all of it, with no
    [p] element and no term set in [strong]. *)
Theorem single_paragraph_is_a_heading text :
  contains text (chr NL +:+ chr NL) = false ->
  _format_as_html text = html_frame ("<h1>" +:+ text +:+ "</h1>").
Proof.
  intros Hno. unfold _format_as_html, html_frame.
  rewrite (split_str_whole _ _ Hno). reflexivity.
Qed.

(** X18 (witness): a narrative of two sentences on two lines. *)
Lemma single_paragraph_is_a_heading_witness :
  _format_as_html "The Project has two files.
Its Features are few."
  = html_frame ("<h1>" +:+ "The Project has two files.
Its Features are few." +:+ "</h1>").
Proof.
  apply (single_paragraph_is_a_heading "The Project has two files.
Its Features are few.").
  reflexivity.
Defined.

(** ** The analysis as a whole *)

Section WithWorld.
Variable w : World.

(** The loop of [analyze_repository] makes the calls of the files it
    reaches. *)
Lemma analyze_loop_trace self files : forall st,
  trace (for_each files st (analyze_file w self))
  = List.flat_map (file_trace w self) (up_to_first (has_error w) files).
Proof.
  induction files as [|file_path files IH]; intros [summaries code_contents];
    [reflexivity|].
  cbn [for_each up_to_first List.flat_map].
  rewrite analyze_file_eq. unfold has_error at 1.
  destruct (file_error w file_path).
  - rewrite bind_inl. cbn [trace snd List.flat_map].
    rewrite app_nil_r. reflexivity.
  - rewrite bind_inr. cbn [trace snd]. rewrite IH. reflexivity.
Qed.

Lemma up_to_first_none {A} (bad : A -> bool) l :
  existsb bad l = false -> up_to_first bad l = l.
Proof.
  induction l as [|x l IH]; [reflexivity|]. cbn [existsb up_to_first].
  destruct (bad x); [discriminate|]. intros Hl. rewrite IH by exact Hl.
  reflexivity.
Qed.

(** The calls for a file that is kept and processed without error. *)
Lemma file_trace_kept self paths file_path :
  In file_path (kept w paths) ->
  has_error w file_path = false ->
  file_trace w self file_path
  = trace (get_file_summary w self file_path) ++ [EvRead file_path].
Proof.
  intros Hin Hok. unfold file_trace. unfold has_error in Hok.
  destruct (file_error w file_path); [discriminate|].
  rewrite (kept_textual w paths file_path Hin). reflexivity.
Qed.

End WithWorld.

(** X19. An analysis on a cache miss, of a batch that is not empty and in
    which no file fails. It returns the records of the files in the order
    of the scan, followed by the repository record, and the number of
    files. Its calls are, in this order: the cache lookup; the walk and the
    skip decisions; for every file of the batch, the calls of
    [get_file_summary] and then a second read of the file; the calls of
    [summarize_repo] on the contents of all the files of the batch, which
    summarizes every file anew before any call with the long bound; and
    the write of the cache. *)
Theorem cold_run_in_order w self cache repo_url top :
  cache_miss w self cache repo_url ->
  cloned_path self = Some top ->
  kept w (candidates w top) <> [] ->
  existsb (has_error w) (kept w (candidates w top)) = false ->
  let files := kept w (candidates w top) in
  let code_contents := List.map (content_of w) files in
  let summaries :=
    List.map (record_of w self) files
    ++ [repository_record (repo_summary_of w code_contents)] in
  analyze_repository w self cache repo_url
  = (inr (summaries, length files),
     trace (get_cached_summaries w self cache repo_url)
     ++ EvWalk top :: skip_traces w (candidates w top)
     ++ List.flat_map
          (fun file_path =>
             trace (get_file_summary w self file_path) ++ [EvRead file_path])
          files
     ++ trace (summarize_repo w code_contents)
     ++ trace (save_to_cache w self repo_url summaries (length files)))
  /\ exists repo_call,
       trace (summarize_repo w code_contents)
       = List.concat
           (List.map (fun code => trace (summarize_code w code))
              code_contents)
         ++ repo_call
       /\ Forall (fun ev => is_repo_call ev = true) repo_call.
Proof.
  intros Hmiss Htop Hne Hok files code_contents summaries. split.
  - rewrite (analyze_repository_miss_eq w self cache repo_url top Hmiss Htop).
    cbv zeta. fold files. fold code_contents. fold summaries.
    rewrite analyze_loop_trace.
    fold files in Hok, Hne. rewrite Hok.
    rewrite (up_to_first_none _ _ Hok).
    assert (List.flat_map (file_trace w self) files
            = List.flat_map
                (fun file_path =>
                   trace (get_file_summary w self file_path)
                   ++ [EvRead file_path]) files) as ->.
    { assert (forall file_path, In file_path files ->
                In file_path (kept w (candidates w top))
                /\ has_error w file_path = false) as Hall.
      { intros file_path Hin. split; [exact Hin|].
        destruct (has_error w file_path) eqn:Herr; [|reflexivity].
        assert (existsb (has_error w) files = true) as Hex
          by (apply List.existsb_exists; eauto).
        congruence. }
      clearbody files. clear - Hall.
      induction files as [|file_path files IH]; [reflexivity|].
      cbn [List.flat_map].
      destruct (Hall file_path (or_introl eq_refl)) as [Hin Herr].
      rewrite (file_trace_kept w self _ _ Hin Herr), IH; [reflexivity|].
      intros p Hp. apply Hall. right. exact Hp. }
    destruct files; [contradiction|]. rewrite <- !app_assoc. reflexivity.
  - rewrite summarize_repo_eq. cbv zeta.
    destruct (List.filter usable (List.map (summary_of w) code_contents)).
    + exists []. cbn [trace snd]. rewrite app_nil_r. split; constructor.
    + eexists. cbn [trace snd]. split; [reflexivity|].
      repeat constructor.
Qed.

(** X19 (witness): the repository of a file of ten lines and one of
    four. *)
Lemma cold_run_in_order_witness :
  let w := Fixture.large_and_small in
  let files := kept w (candidates w Fixture.TOP) in
  let code_contents := List.map (content_of w) files in
  let summaries :=
    List.map (record_of w Fixture.cloned) files
    ++ [repository_record (repo_summary_of w code_contents)] in
  analyze_repository w Fixture.cloned ∅ Fixture.URL
  = (inr (summaries, length files),
     trace (get_cached_summaries w Fixture.cloned ∅ Fixture.URL)
     ++ EvWalk Fixture.TOP :: skip_traces w (candidates w Fixture.TOP)
     ++ List.flat_map
          (fun file_path =>
             trace (get_file_summary w Fixture.cloned file_path)
             ++ [EvRead file_path])
          files
     ++ trace (summarize_repo w code_contents)
     ++ trace (save_to_cache w Fixture.cloned Fixture.URL summaries
                 (length files)))
  /\ exists repo_call,
       trace (summarize_repo w code_contents)
       = List.concat
           (List.map (fun code => trace (summarize_code w code))
              code_contents)
         ++ repo_call
       /\ Forall (fun ev => is_repo_call ev = true) repo_call.
Proof.
  apply (cold_run_in_order Fixture.large_and_small Fixture.cloned ∅
           Fixture.URL Fixture.TOP).
  - reflexivity.
  - reflexivity.
  - vm_compute. discriminate.
  - vm_compute. reflexivity.
Defined.

(** X20. The first file of the batch whose processing fails ends the
    analysis: on a cache miss it raises [KeyError('is_text')], the files
    before that one are processed in full, the failing file gets its
    record, and no call is made after the calls of [get_file_summary] for
    the failing file: no later file is touched, the repository is not
    summarized and nothing is written to the cache. *)
Theorem first_failed_file_ends_the_analysis
    w self cache repo_url top before file_path after e :
  cache_miss w self cache repo_url ->
  cloned_path self = Some top ->
  kept w (candidates w top) = before ++ file_path :: after ->
  existsb (has_error w) before = false ->
  file_error w file_path = Some e ->
  analyze_repository w self cache repo_url
  = (inl (KeyError "is_text"),
     trace (get_cached_summaries w self cache repo_url)
     ++ EvWalk top :: skip_traces w (candidates w top)
     ++ List.flat_map (file_trace w self) before
     ++ trace (get_file_summary w self file_path))
  /\ record_of w self file_path = error_record w self file_path e.
Proof.
  intros Hmiss Htop Hfiles Hbefore Herr.
  split; [|apply record_of_error, Herr].
  rewrite (analyze_repository_miss_eq w self cache repo_url top Hmiss Htop).
  cbv zeta. rewrite analyze_loop_trace, Hfiles.
  assert (has_error w file_path = true) as Hbad
    by (unfold has_error; rewrite Herr; reflexivity).
  assert (existsb (has_error w) (before ++ file_path :: after) = true) as ->.
  { rewrite List.existsb_app. cbn [existsb]. rewrite Hbad.
    rewrite orb_true_r. reflexivity. }
  assert (up_to_first (has_error w) (before ++ file_path :: after)
          = before ++ [file_path]) as ->.
  { clear Hfiles. induction before as [|x before IH].
    - cbn [app up_to_first]. rewrite Hbad. reflexivity.
    - cbn [existsb] in Hbefore. apply orb_false_iff in Hbefore.
      destruct Hbefore as [Hx Hrest].
      cbn [app up_to_first]. rewrite Hx, IH by exact Hrest. reflexivity. }
  rewrite List.flat_map_app. cbn [List.flat_map].
  unfold file_trace at 2. rewrite Herr, !app_nil_r.
  destruct (before ++ file_path :: after) eqn:Hlist.
  { destruct before; discriminate. }
  rewrite <- !app_assoc. reflexivity.
Qed.

(** X20 (witness): the unreadable file is the second of two. *)
Lemma first_failed_file_ends_the_analysis_witness :
  let w := Fixture.failing_last in
  analyze_repository w Fixture.cloned ∅ Fixture.URL
  = (inl (KeyError "is_text"),
     trace (get_cached_summaries w Fixture.cloned ∅ Fixture.URL)
     ++ EvWalk Fixture.TOP :: skip_traces w (candidates w Fixture.TOP)
     ++ List.flat_map (file_trace w Fixture.cloned) ["/tmp/repo/a.py"]
     ++ trace (get_file_summary w Fixture.cloned "/tmp/repo/b.py"))
  /\ record_of w Fixture.cloned "/tmp/repo/b.py"
     = error_record w Fixture.cloned "/tmp/repo/b.py"
         (Exn "OSError" "[Errno 5] Input/output error").
Proof.
  apply (first_failed_file_ends_the_analysis Fixture.failing_last
           Fixture.cloned ∅ Fixture.URL Fixture.TOP ["/tmp/repo/a.py"]
           "/tmp/repo/b.py" [] (Exn "OSError" "[Errno 5] Input/output error"));
    vm_compute; reflexivity.
Defined.

(** ** The display of the result ([app.py]) *)

Import App.

Ltac in_list := unfold language_names; cbn [In]; repeat first [left; reflexivity | right].

Lemma elem_of_included (x : string) (l big : list string) :
  forallb (fun y => bool_decide (y ∈ big)) l = true -> x ∈ l -> x ∈ big.
Proof.
  rewrite List.forallb_forall. intros Hsub Hin.
  apply list_elem_of_In, Hsub, bool_decide_eq_true_1 in Hin. exact Hin.
Qed.

Lemma language_of_cases ext :
  In (language_of ext) language_names
  /\ (language_of ext = "Unknown" <-> ext ∉ mapped_extensions).
Proof.
  unfold language_of.
  repeat match goal with
  | |- context [if bool_decide (ext ∈ ?l) then ?name else _] =>
      destruct (bool_decide (ext ∈ l)) eqn:?;
      [ split;
        [ in_list
        | split; [discriminate|];
          intros Hnot; exfalso; apply Hnot;
          match goal with
          | H : bool_decide (ext ∈ l) = true |- _ =>
              apply bool_decide_eq_true_1 in H; revert H;
              apply elem_of_included; vm_compute; reflexivity
          end ]
      | ]
  end.
  split; [in_list|]. split; [intros _|reflexivity].
  unfold mapped_extensions. intros Hin.
  repeat (apply elem_of_cons in Hin; destruct Hin as [->|Hin]);
    [..|apply elem_of_nil in Hin; exact Hin];
    repeat match goal with
    | H : bool_decide _ = false |- _ =>
        first [ vm_compute in H; discriminate H | clear H ]
    end.
Qed.

(** X21. Every language that [get_file_summary] tags a file with has a
    badge class of its own in [get_language_class]: the class is the name
    in lower case, [cpp] for [C++]; and the class is [unknown] exactly for
    the files whose lower-case extension is not in the mapping. *)
Theorem every_language_tag_has_a_badge ext :
  let language := language_of ext in
  get_language_class language
  = (if String.eqb language "C++" then "cpp" else lower language)
  /\ (get_language_class language = "unknown" <-> ext ∉ mapped_extensions).
Proof.
  cbv zeta. destruct (language_of_cases ext) as [Hin Hiff].
  remember (language_of ext) as language eqn:Hlang. clear Hlang.
  assert (get_language_class language
          = (if String.eqb language "C++" then "cpp" else lower language)
          /\ (get_language_class language = "unknown"
              <-> language = "Unknown")) as [Hclass Hunknown].
  { unfold language_names in Hin.
    repeat (destruct Hin as [<-|Hin];
            [split; [reflexivity|split; discriminate || reflexivity]|]).
    destruct Hin. }
  split; [exact Hclass|]. rewrite Hunknown. exact Hiff.
Qed.

(** *** The statistics *)

Lemma getitem_some (d : pydict) key v :
  d !! key = Some v -> getitem d key = (inr v, []).
Proof. unfold getitem. intros ->. reflexivity. Qed.

Lemma is_file_record_eq s :
  is_file_record s
  = match s !! "path" with
    | Some path => (inr (shown_as_file s), [])
    | None => (inl (KeyError "path"), [])
    end.
Proof.
  unfold is_file_record, shown_as_file, getitem.
  destruct (s !! "path"); mstep; reflexivity.
Qed.

Lemma is_file_record_result s keep :
  result (is_file_record s) = inr keep -> keep = shown_as_file s.
Proof.
  rewrite is_file_record_eq. destruct (s !! "path"); cbn; congruence.
Qed.

(** The list of the records that are shown as files. *)
Lemma shown_files_loop summaries : forall files files',
  result (for_each summaries files (fun files s =>
            keep <- is_file_record s ;;
            ret (if (keep : bool) then files ++ [s] else files)))
  = inr files' ->
  files' = files ++ List.filter shown_as_file summaries.
Proof.
  induction summaries as [|s summaries IH]; intros files files'.
  { cbn. rewrite app_nil_r. congruence. }
  cbn [for_each List.filter]. rewrite is_file_record_eq.
  destruct (s !! "path"); [|rewrite bind_inl; discriminate].
  mstep.
  intros Hloop. apply IH in Hloop. subst files'.
  destruct (shown_as_file s); [rewrite <- app_assoc|]; reflexivity.
Qed.

Lemma count_up_sum lang language_counts :
  list_sum (List.map snd (count_up lang language_counts))
  = S (list_sum (List.map snd language_counts)).
Proof.
  induction language_counts as [|[key count] rest IH]; [reflexivity|].
  cbn [count_up]. unfold list_sum in *.
  destruct (py_eq key lang); cbn [List.map fold_right snd].
  - reflexivity.
  - rewrite IH. lia.
Qed.

Lemma count_up_positive lang language_counts :
  Forall (fun item => 1 <= snd item) language_counts ->
  Forall (fun item => 1 <= snd item) (count_up lang language_counts).
Proof.
  induction 1 as [|[key count] rest Hitem Hrest IH];
    [repeat constructor|].
  cbn [count_up]. destruct (py_eq key lang); constructor;
    cbn [snd] in *; try lia; assumption.
Qed.

(** The counts of the languages: one unit per record shown as a file that
    has the key [language]. *)
Lemma language_counts_loop summaries : forall counts counts',
  result (for_each summaries counts (fun language_counts s =>
            keep <- is_file_record s ;;
            if keep && bool_decide (is_Some (s !! "language")) then
              lang <- getitem s "language" ;;
              ret (count_up lang language_counts)
            else ret language_counts))
  = inr counts' ->
  list_sum (List.map snd counts')
  = list_sum (List.map snd counts)
    + length (List.filter
                (fun s => shown_as_file s
                          && bool_decide (is_Some (s !! "language")))
                summaries)
  /\ (Forall (fun item => 1 <= snd item) counts ->
      Forall (fun item => 1 <= snd item) counts').
Proof.
  induction summaries as [|s summaries IH]; intros counts counts'.
  { cbn. intros [= <-]. split; [lia|tauto]. }
  cbn [for_each List.filter]. rewrite is_file_record_eq.
  destruct (s !! "path"); [|rewrite bind_inl; discriminate].
  mstep.
  destruct (shown_as_file s && bool_decide (is_Some (s !! "language")))
    eqn:Hkeep.
  - destruct (s !! "language") as [lang|] eqn:Hlang.
    2:{ apply andb_prop in Hkeep. destruct Hkeep as [_ Hsome].
        apply bool_decide_eq_true_1 in Hsome. destruct Hsome; discriminate. }
    rewrite (getitem_some s "language" lang Hlang). mstep.
    intros Hloop. apply IH in Hloop. destruct Hloop as [Hsum Hpos].
    rewrite Hsum, count_up_sum. cbn [length]. split; [lia|].
    intros Hcounts. apply Hpos, count_up_positive, Hcounts.
  - mstep. intros Hloop. apply IH in Hloop. exact Hloop.
Qed.

Lemma filter_length_le {A} (f g : A -> bool) l :
  length (List.filter (fun x => f x && g x) l) <= length (List.filter f l).
Proof.
  induction l as [|x l IH]; [reflexivity|]. cbn [List.filter].
  destruct (f x), (g x); cbn [andb length]; lia.
Qed.

Lemma item_le_sum (language_counts : list (pyval * nat)) :
  Forall (fun item => snd item <= list_sum (List.map snd language_counts))
    language_counts.
Proof.
  induction language_counts as [|item rest IH]; constructor.
  - cbn [List.map]. unfold list_sum. cbn [fold_right]. lia.
  - eapply List.Forall_impl; [|exact IH]. intros x Hx.
    cbn [List.map]. unfold list_sum in *. cbn [fold_right]. lia.
Qed.

(** X22. The numbers that [display_stats] computes, for any list of
    records on which it does not raise: the number of files is the number
    of records whose path is not [REPOSITORY_SUMMARY]; the counts of the
    languages add up to the number of those records that have a language,
    so to the number of files at most; and every language listed has a
    count between one and the number of files, so that the share of a
    language is never computed on zero files and never exceeds the
    whole. *)
Theorem language_counts_stay_within_the_files
    summaries total_files total_size total_loc language_counts :
  result (display_stats summaries)
  = inr (total_files, total_size, total_loc, language_counts) ->
  total_files = length (List.filter shown_as_file summaries)
  /\ list_sum (List.map snd language_counts)
     = length (List.filter
                 (fun s => shown_as_file s
                           && bool_decide (is_Some (s !! "language")))
                 summaries)
  /\ list_sum (List.map snd language_counts) <= total_files
  /\ Forall (fun item => 1 <= snd item <= total_files) language_counts.
Proof.
  unfold display_stats. rewrite result_bind.
  destruct (result (for_each summaries [] _)) as [e|files] eqn:Hfiles;
    [discriminate|].
  apply shown_files_loop in Hfiles. cbn [app] in Hfiles. subst files.
  rewrite result_bind.
  destruct (result (for_each summaries 0%Z _)) as [e|size]; [discriminate|].
  rewrite result_bind.
  destruct (result (for_each summaries 0%Z _)) as [e|loc]; [discriminate|].
  rewrite result_bind.
  destruct (result (for_each summaries [] _)) as [e|counts] eqn:Hcounts;
    [discriminate|].
  apply language_counts_loop in Hcounts. destruct Hcounts as [Hsum Hpos].
  cbn [result fst ret]. intros [= <- <- <- <-].
  change (list_sum (List.map snd (@nil (pyval * nat)))) with 0 in Hsum.
  cbn [Nat.add] in Hsum.
  pose proof (filter_length_le shown_as_file
                (fun s => bool_decide (is_Some (s !! "language"))) summaries)
    as Hle.
  split; [reflexivity|]. split; [exact Hsum|]. split; [lia|].
  pose proof (item_le_sum counts) as Hitems.
  specialize (Hpos (List.Forall_nil _)).
  rewrite List.Forall_forall in Hitems, Hpos |- *.
  intros item Hin. specialize (Hitems item Hin). specialize (Hpos item Hin).
  lia.
Qed.

(** X22 (witness): two records of Python files, one of a file without
    language and the repository record. *)
Lemma language_counts_stay_within_the_files_witness :
  let summaries :=
    [ <["language" := VStr "Python"]> (<["loc" := VInt 10]>
                                         Fixture.stored_record);
      Fixture.stored_record;
      <["language" := VStr "Python"]> (<["loc" := VInt 4]>
                                         Fixture.stored_record);
      repository_record "<h1>overview</h1>" ] in
  3 = length (List.filter shown_as_file summaries)
  /\ list_sum (List.map snd [(VStr "Python", 2)])
     = length (List.filter
                 (fun s => shown_as_file s
                           && bool_decide (is_Some (s !! "language")))
                 summaries)
  /\ list_sum (List.map snd [(VStr "Python", 2)]) <= 3
  /\ Forall (fun item => 1 <= snd item <= 3) [(VStr "Python", 2)].
Proof.
  apply (language_counts_stay_within_the_files _ 3 192 14
           [(VStr "Python", 2)]).
  vm_compute. reflexivity.
Defined.

(** *** The display of a fresh result *)

(** A loop whose body neither raises nor calls anything is a fold. *)
Lemma for_each_pure {A S} (body : S -> A -> M S) (f : S -> A -> S) l :
  (forall s x, In x l -> body s x = (inr (f s x), [])) ->
  forall s, for_each l s body = (inr (fold_left f l s), []).
Proof.
  induction l as [|x l IH]; intros Hbody s; [reflexivity|].
  cbn [for_each fold_left]. rewrite Hbody by (left; reflexivity).
  rewrite bind_inr. rewrite IH by (intros; apply Hbody; right; assumption).
  reflexivity.
Qed.

Section WithWorld.
Variable w : World.

(** The fields of the record of a file that is processed without error. *)
Lemma record_of_fields self file_path :
  file_error w file_path = None ->
  let r := record_of w self file_path in
  r !! "path" = Some (VStr (relpath w file_path (relpath_start self)))
  /\ r !! "size" = Some (VInt (size_of w file_path))
  /\ r !! "loc"
     = (if has_content_keys w file_path
        then Some (VInt (Z.of_nat (loc_of (content_of w file_path))))
        else None)
  /\ r !! "language"
     = (if has_content_keys w file_path
        then Some (language_tag file_path) else None).
Proof.
  intros Hok r. subst r.
  unfold record_of, file_error, size_of, has_content_keys, content_of in *.
  rewrite get_file_summary_eq. unfold base_record.
  destruct (os_stat_size w file_path) as [e|size]; [discriminate|].
  cbv zeta. destruct (textual (mime_of w file_path)).
  2:{ cbn [result fst andb].
      repeat split; simplify_map_eq; reflexivity. }
  destruct (read_text w file_path) as [e|content]; [discriminate|].
  cbn [andb]. rewrite Nat.leb_antisym.
  destruct (3 <? length (split_char NL content)); cbn [negb].
  2:{ cbn [result fst]. repeat split; simplify_map_eq; reflexivity. }
  destruct (5 <? loc_of content); cbn [result fst];
    repeat split; simplify_map_eq; reflexivity.
Qed.

Lemma shown_record_of self file_path :
  file_error w file_path = None ->
  shown_as_file (record_of w self file_path)
  = negb (named_like_the_summary w self file_path).
Proof.
  intros Hok. destruct (record_of_fields self file_path Hok) as (Hpath & _).
  unfold shown_as_file, named_like_the_summary. rewrite Hpath. reflexivity.
Qed.

End WithWorld.

Lemma bind_pure {A B} (a : A) (k : A -> M B) : bind (inr a, []) k = k a.
Proof. unfold bind. destruct (k a). reflexivity. Qed.

Lemma sum_of_fold (f : pydict -> Z) l : forall total,
  fold_left (fun total s =>
               if shown_as_file s then (total + f s)%Z else total) l total
  = (total + sum_of (List.map f (List.filter shown_as_file l)))%Z.
Proof.
  induction l as [|s l IH]; intros total; [cbn; lia|].
  cbn [fold_left List.filter]. rewrite IH.
  destruct (shown_as_file s); cbn [List.map sum_of fold_right]; [|reflexivity].
  unfold sum_of. lia.
Qed.

Lemma shown_fold l : forall files,
  fold_left (fun files s => if shown_as_file s then files ++ [s] else files)
    l files
  = files ++ List.filter shown_as_file l.
Proof.
  induction l as [|s l IH]; intros files; [rewrite app_nil_r; reflexivity|].
  cbn [fold_left List.filter]. rewrite IH.
  destruct (shown_as_file s); [rewrite <- app_assoc|]; reflexivity.
Qed.

Lemma counts_fold l : forall counts,
  list_sum
    (List.map snd
       (fold_left (fun counts s =>
                     if shown_as_file s
                        && bool_decide (is_Some (s !! "language"))
                     then count_up (default VNone (s !! "language")) counts
                     else counts) l counts))
  = list_sum (List.map snd counts)
    + length (List.filter
                (fun s => bool_decide (is_Some (s !! "language")))
                (List.filter shown_as_file l)).
Proof.
  induction l as [|s l IH]; intros counts;
    [cbn [fold_left List.filter length]; lia|].
  cbn [fold_left List.filter]. rewrite IH.
  destruct (shown_as_file s); cbn [andb List.filter]; [|reflexivity].
  destruct (bool_decide (is_Some (s !! "language"))); [|reflexivity].
  rewrite count_up_sum. cbn [length]. lia.
Qed.

(** [display_stats] on records it can add up. *)
Lemma display_stats_eq summaries :
  Forall displayable summaries ->
  let files := List.filter shown_as_file summaries in
  exists language_counts,
    display_stats summaries
    = (inr (length files,
            sum_of (List.map (int_field "size") files),
            sum_of (List.map (int_field "loc") files),
            language_counts), [])
    /\ list_sum (List.map snd language_counts)
       = length (List.filter
                   (fun s => bool_decide (is_Some (s !! "language"))) files).
Proof.
  intros Hall files. rewrite List.Forall_forall in Hall.
  unfold display_stats.
  rewrite (for_each_pure _
             (fun files s => if shown_as_file s then files ++ [s] else files)).
  2:{ intros acc s Hin. destruct (Hall s Hin) as ((path & Hpath) & _ & _).
      rewrite is_file_record_eq, Hpath. rewrite bind_pure. reflexivity. }
  rewrite bind_pure, shown_fold. cbn [app]. fold files.
  rewrite (for_each_pure _
             (fun total s =>
                if shown_as_file s then (total + int_field "size" s)%Z
                else total)).
  2:{ intros acc s Hin. destruct (Hall s Hin) as ((path & Hpath) & Hsize & _).
      rewrite is_file_record_eq, Hpath. rewrite bind_pure.
      destruct (shown_as_file s); [|reflexivity].
      destruct (Hsize eq_refl) as [size Hs].
      rewrite (getitem_some s "size" _ Hs), bind_pure.
      unfold int_field. rewrite Hs. reflexivity. }
  rewrite bind_pure, sum_of_fold. fold files.
  rewrite (for_each_pure _
             (fun total s =>
                if shown_as_file s then (total + int_field "loc" s)%Z
                else total)).
  2:{ intros acc s Hin. destruct (Hall s Hin) as ((path & Hpath) & _ & Hloc).
      rewrite is_file_record_eq, Hpath. rewrite bind_pure.
      destruct (shown_as_file s); [|reflexivity].
      unfold int_field.
      destruct Hloc as [Hloc|[loc Hloc]]; rewrite Hloc; cbn [default py_add];
        [rewrite Z.add_0_r|]; reflexivity. }
  rewrite bind_pure, sum_of_fold.
  rewrite (for_each_pure _
             (fun counts s =>
                if shown_as_file s && bool_decide (is_Some (s !! "language"))
                then count_up (default VNone (s !! "language")) counts
                else counts)).
  2:{ intros acc s Hin. destruct (Hall s Hin) as ((path & Hpath) & _ & _).
      rewrite is_file_record_eq, Hpath. rewrite bind_pure.
      destruct (shown_as_file s); [|reflexivity]. cbn [andb].
      destruct (s !! "language") as [lang|] eqn:Hlang.
      - rewrite (bool_decide_eq_true_2 _ (mk_is_Some _ _ eq_refl)).
        rewrite (getitem_some s "language" lang Hlang), bind_pure.
        reflexivity.
      - rewrite (bool_decide_eq_false_2 (is_Some None)); [reflexivity|].
        intros [? ?]; discriminate. }
  rewrite bind_pure. eexists. split; [reflexivity|].
  rewrite counts_fold. reflexivity.
Qed.

(** The record that [main] takes for the overview. *)
Lemma repo_summary_eq summaries :
  Forall displayable summaries ->
  repo_summary summaries
  = (inr (head (List.filter (fun s => negb (shown_as_file s)) summaries)),
     []).
Proof.
  induction 1 as [|s summaries ((path & Hpath) & _ & _) _ IH];
    [reflexivity|].
  cbn [repo_summary List.filter].
  rewrite (getitem_some s "path" _ Hpath), bind_pure.
  unfold shown_as_file at 1. rewrite Hpath. cbn [py_eq negb].
  destruct (String.eqb path REPOSITORY_SUMMARY); cbn [negb head];
    [reflexivity|exact IH].
Qed.

Section WithWorld.
Variable w : World.

Lemma record_of_displayable self file_path :
  file_error w file_path = None ->
  displayable (record_of w self file_path).
Proof.
  intros Hok.
  destruct (record_of_fields w self file_path Hok)
    as (Hpath & Hsize & Hloc & _).
  repeat split; [eauto|eauto|].
  rewrite Hloc. destruct (has_content_keys w file_path); eauto.
Qed.

Lemma repository_record_displayable repo_summary :
  displayable (repository_record repo_summary)
  /\ shown_as_file (repository_record repo_summary) = false.
Proof.
  unfold displayable, shown_as_file, repository_record.
  repeat split; simplify_map_eq; eauto. discriminate.
Qed.

(** The records of a fresh result that are shown as files. *)
Lemma shown_records self files repo_summary :
  Forall (fun file_path => file_error w file_path = None) files ->
  List.filter shown_as_file
    (List.map (record_of w self) files ++ [repository_record repo_summary])
  = List.map (record_of w self)
      (List.filter (fun file_path =>
                      negb (named_like_the_summary w self file_path)) files)
  /\ List.filter (fun s => negb (shown_as_file s))
       (List.map (record_of w self) files
        ++ [repository_record repo_summary])
     = List.map (record_of w self)
         (List.filter (named_like_the_summary w self) files)
       ++ [repository_record repo_summary].
Proof.
  destruct (repository_record_displayable repo_summary) as [_ Hrepo].
  induction 1 as [|file_path files Hok _ [IHshown IHnot]].
  { cbn [List.map List.filter app]. rewrite Hrepo. split; reflexivity. }
  cbn [List.map List.filter app]. rewrite (shown_record_of w self _ Hok).
  rewrite IHshown, IHnot.
  destruct (named_like_the_summary w self file_path); split; reflexivity.
Qed.

Lemma shown_sizes self files :
  Forall (fun file_path => file_error w file_path = None) files ->
  sum_of (List.map (int_field "size") (List.map (record_of w self) files))
  = sum_of (List.map (size_of w) files)
  /\ sum_of (List.map (int_field "loc") (List.map (record_of w self) files))
     = sum_of (List.map
                 (fun file_path =>
                    Z.of_nat (loc_of (content_of w file_path)))
                 (List.filter (has_content_keys w) files))
  /\ length (List.filter
               (fun s => bool_decide (is_Some (s !! "language")))
               (List.map (record_of w self) files))
     = length (List.filter (has_content_keys w) files).
Proof.
  induction 1 as [|file_path files Hok _ (IHsize & IHloc & IHlang)];
    [repeat split|].
  destruct (record_of_fields w self file_path Hok)
    as (_ & Hsize & Hloc & Hlang).
  cbn [List.map List.filter]. unfold int_field at 1 3.
  rewrite Hsize, Hloc, Hlang. unfold sum_of in *. cbn [fold_right].
  rewrite IHsize.
  destruct (has_content_keys w file_path).
  - rewrite (bool_decide_eq_true_2 _ (mk_is_Some _ _ eq_refl)).
    cbn [List.map fold_right length]. rewrite IHloc, IHlang.
    repeat split; reflexivity.
  - rewrite (bool_decide_eq_false_2 (is_Some None))
      by (intros [? ?]; discriminate).
    rewrite IHloc, IHlang. repeat split; reflexivity.
Qed.

Lemma no_error_files files :
  existsb (has_error w) files = false ->
  Forall (fun file_path => file_error w file_path = None) files.
Proof.
  intros Hok. apply List.Forall_forall. intros file_path Hin.
  destruct (file_error w file_path) eqn:Herr; [|reflexivity].
  assert (existsb (has_error w) files = true) as Hex.
  { apply List.existsb_exists. exists file_path. split; [exact Hin|].
    unfold has_error. rewrite Herr. reflexivity. }
  congruence.
Qed.

End WithWorld.

(** X23. What the application shows of a fresh result (a cache miss, a
    batch that is not empty, no failing file). [display_stats] does not
    raise; its number of files is the number of files of the batch whose
    path relative to the repository is not [REPOSITORY_SUMMARY], its size
    is the sum of their sizes, its lines of code the sum over those of
    them that are text files of more than three lines, and its language
    counts add up to the number of the latter. The record that [main]
    shows as the overview is the repository record only when no file of
    the batch has the relative path [REPOSITORY_SUMMARY]; otherwise it is
    the record of the first such file, and that file is missing from the
    statistics. *)
Theorem display_of_a_fresh_result w self cache repo_url top :
  cache_miss w self cache repo_url ->
  cloned_path self = Some top ->
  kept w (candidates w top) <> [] ->
  existsb (has_error w) (kept w (candidates w top)) = false ->
  let files := kept w (candidates w top) in
  let summaries := summaries_of (analyze_repository w self cache repo_url) in
  let shown :=
    List.filter (fun file_path =>
                   negb (named_like_the_summary w self file_path)) files in
  (exists language_counts,
     display_stats summaries
     = (inr (length shown,
             sum_of (List.map (size_of w) shown),
             sum_of (List.map
                       (fun file_path =>
                          Z.of_nat (loc_of (content_of w file_path)))
                       (List.filter (has_content_keys w) shown)),
             language_counts), [])
     /\ list_sum (List.map snd language_counts)
        = length (List.filter (has_content_keys w) shown))
  /\ repo_summary summaries
     = (inr (Some match List.filter (named_like_the_summary w self) files with
                  | file_path :: _ => record_of w self file_path
                  | [] =>
                      repository_record
                        (repo_summary_of w (List.map (content_of w) files))
                  end), []).
Proof.
  intros Hmiss Htop Hne Hok files summaries shown.
  assert (summaries
          = List.map (record_of w self) files
            ++ [repository_record
                  (repo_summary_of w (List.map (content_of w) files))])
    as Hsummaries.
  { subst summaries. unfold summaries_of.
    rewrite (analyze_repository_miss_eq w self cache repo_url top Hmiss Htop).
    cbv zeta. fold files. fold files in Hok, Hne. rewrite Hok.
    destruct files; [contradiction|]. reflexivity. }
  pose proof (no_error_files w files Hok) as Hfiles.
  assert (Forall displayable summaries) as Hall.
  { rewrite Hsummaries. apply Forall_app_2.
    - apply List.Forall_forall. intros s Hin.
      apply List.in_map_iff in Hin. destruct Hin as (p & <- & Hin).
      rewrite List.Forall_forall in Hfiles.
      apply record_of_displayable, Hfiles, Hin.
    - constructor; [|constructor]. apply repository_record_displayable. }
  destruct (shown_records w self files
              (repo_summary_of w (List.map (content_of w) files)) Hfiles)
    as [Hshown Hnot].
  rewrite <- Hsummaries in Hshown, Hnot. fold shown in Hshown.
  assert (Forall (fun file_path => file_error w file_path = None) shown)
    as Hshown_ok.
  { apply List.Forall_forall. intros p Hin. apply List.filter_In in Hin.
    rewrite List.Forall_forall in Hfiles. apply Hfiles, Hin. }
  destruct (shown_sizes w self shown Hshown_ok) as (Hsize & Hloc & Hlang).
  split.
  - destruct (display_stats_eq summaries Hall) as (counts & Heq & Hsum).
    cbv zeta in Heq, Hsum. rewrite Hshown in Heq, Hsum.
    rewrite List.length_map, Hsize, Hloc in Heq. rewrite Hlang in Hsum.
    exists counts. split; [exact Heq|exact Hsum].
  - rewrite (repo_summary_eq summaries Hall), Hnot.
    destruct (List.filter (named_like_the_summary w self) files);
      reflexivity.
Qed.

(** X23 (witness): the repository of a file of ten lines and one of four,
    both of them Python files by their names. *)
Lemma display_of_a_fresh_result_witness :
  let w := Fixture.large_and_small in
  let summaries :=
    summaries_of (analyze_repository w Fixture.cloned ∅ Fixture.URL) in
  (exists language_counts,
     display_stats summaries = (inr (2, 128%Z, 14%Z, language_counts), [])
     /\ list_sum (List.map snd language_counts) = 2)
  /\ repo_summary summaries
     = (inr (Some (repository_record
                     (repo_summary_of w [Fixture.ten_lines;
                                         Fixture.four_lines]))), []).
Proof.
  apply (display_of_a_fresh_result Fixture.large_and_small Fixture.cloned ∅
           Fixture.URL Fixture.TOP).
  - reflexivity.
  - reflexivity.
  - vm_compute. discriminate.
  - vm_compute. reflexivity.
Defined.

Lemma record_of_type_and_summary w self file_path :
  file_error w file_path = None ->
  record_of w self file_path !! "type" = Some (VStr (mime_of w file_path))
  /\ is_Some (record_of w self file_path !! "summary").
Proof.
  intros Hok.
  unfold record_of, file_error in *.
  rewrite get_file_summary_eq. unfold base_record.
  destruct (os_stat_size w file_path) as [e|size]; [discriminate|].
  cbv zeta. destruct (textual (mime_of w file_path)).
  2:{ cbn [result fst]. split; simplify_map_eq; eauto. }
  destruct (read_text w file_path) as [e|content]; [discriminate|].
  destruct (length (split_char NL content) <=? 3).
  { cbn [result fst]. split; simplify_map_eq; eauto. }
  destruct (5 <? loc_of content); cbn [result fst];
    split; simplify_map_eq; eauto.
Qed.

(** X24. What a caller can find in a fresh result. When an analysis on a
    cache miss returns, it returns the empty list with the count zero, or
    the records of the files followed by the repository record, with the
    number of the file records as the count; and every file record is the
    record of a text file processed without error: it has no key [error],
    its [is_text] is [True], its [type] is a text type, and it has a size
    and a [summary] field. A record of a failure is never returned. *)
Theorem fresh_results_hold_no_error_record
    w self cache repo_url summaries total_files :
  cache_miss w self cache repo_url ->
  result (analyze_repository w self cache repo_url)
  = inr (summaries, total_files) ->
  match total_files with
  | 0 => summaries = []
  | S _ =>
      exists records repo_summary,
        summaries = records ++ [repository_record repo_summary]
        /\ length records = total_files
        /\ Forall (fun r =>
             r !! "error" = None
             /\ r !! "is_text" = Some (VBool true)
             /\ (exists mime,
                   r !! "type" = Some (VStr mime) /\ textual mime = true)
             /\ (exists size, r !! "size" = Some (VInt size))
             /\ is_Some (r !! "summary")) records
  end.
Proof.
  intros Hmiss Hres.
  destruct (cloned_path self) as [top|] eqn:Htop.
  2:{ rewrite (analyze_repository_not_cloned w self cache repo_url
                 Hmiss Htop) in Hres. discriminate. }
  rewrite (analyze_repository_miss_eq w self cache repo_url top Hmiss Htop)
    in Hres.
  cbv zeta in Hres.
  destruct (kept w (candidates w top)) as [|file_path rest] eqn:Hkept.
  { injection Hres as <- <-. reflexivity. }
  destruct (existsb (has_error w) (file_path :: rest)) eqn:Hok;
    [discriminate|].
  injection Hres as <- <-. cbn [length].
  exists (List.map (record_of w self) (file_path :: rest)),
    (repo_summary_of w (List.map (content_of w) (file_path :: rest))).
  split; [reflexivity|].
  split; [rewrite List.length_map; reflexivity|].
  pose proof (no_error_files w _ Hok) as Hfiles.
  apply List.Forall_forall. intros r Hin.
  apply List.in_map_iff in Hin. destruct Hin as (p & <- & Hin).
  rewrite List.Forall_forall in Hfiles. specialize (Hfiles p Hin).
  assert (textual (mime_of w p) = true) as Htext.
  { apply (kept_textual w (candidates w top)). rewrite Hkept. exact Hin. }
  destruct (record_of_is_text w self p Hfiles) as [His_text Herror].
  destruct (record_of_fields w self p Hfiles) as (_ & Hsize & _).
  destruct (record_of_type_and_summary w self p Hfiles) as [Htype Hsummary].
  rewrite Htext in His_text. repeat split; eauto.
Qed.

(** X24 (witness): the repository of one short file. *)
Lemma fresh_results_hold_no_error_record_witness :
  exists records repo_summary,
    [Fixture.stored_record;
     repository_record
       (_format_as_html "summary of: summary of: x = 1 y = 2 z = 3")]
    = records ++ [repository_record repo_summary]
    /\ length records = 1
    /\ Forall (fun r =>
         r !! "error" = None
         /\ r !! "is_text" = Some (VBool true)
         /\ (exists mime,
               r !! "type" = Some (VStr mime) /\ textual mime = true)
         /\ (exists size, r !! "size" = Some (VInt size))
         /\ is_Some (r !! "summary")) records.
Proof.
  apply (fresh_results_hold_no_error_record Fixture.short_only
           Fixture.cloned ∅ Fixture.URL _ 1).
  - reflexivity.
  - vm_compute. reflexivity.
Defined.

(** ** The program of the command line ([main] of [scrapper.py]) *)

Import Cli.

Lemma and_then_inr {A B} (a : A) t (k : A -> P B) :
  and_then (inr a, t) k = (fst (k a), t ++ snd (k a)).
Proof. unfold and_then. destruct (k a). reflexivity. Qed.

Lemma and_then_inl {A B} (e : exn) t (k : A -> P B) :
  and_then (inl e, t) k = (inl e, t).
Proof. reflexivity. Qed.

Lemma or_else_inr {A} (a : A) t (h : exn -> P A) :
  or_else (inr a, t) h = (inr a, t).
Proof. reflexivity. Qed.

Lemma or_else_inl {A} (e : exn) t (h : exn -> P A) :
  or_else (inl e, t) h = (fst (h e), t ++ snd (h e)).
Proof. unfold or_else. destruct (h e). reflexivity. Qed.

Lemma P_eta {A} (m : P A) : m = (fst m, snd m).
Proof. destruct m. reflexivity. Qed.

Lemma snd_and_then {A B} (m : P A) (k : A -> P B) :
  snd (and_then m k)
  = snd m ++ match fst m with inl _ => [] | inr a => snd (k a) end.
Proof.
  destruct m as [[e|a] t]; [rewrite and_then_inl, app_nil_r|
                            rewrite and_then_inr]; reflexivity.
Qed.

Lemma fst_and_then {A B} (m : P A) (k : A -> P B) :
  fst (and_then m k)
  = match fst m with inl e => inl e | inr a => fst (k a) end.
Proof.
  destruct m as [[e|a] t]; [rewrite and_then_inl|rewrite and_then_inr];
    reflexivity.
Qed.

Arguments and_then : simpl never.
Arguments or_else : simpl never.

Ltac pstep :=
  repeat (progress
    (rewrite ?and_then_inr, ?and_then_inl, ?or_else_inr, ?or_else_inl;
     cbn [done fail act print fst snd app])).

Lemma calls_app t1 t2 : calls (t1 ++ t2) = calls t1 ++ calls t2.
Proof. apply List.flat_map_app. Qed.

Lemma removed_app t1 t2 : removed (t1 ++ t2) = removed t1 ++ removed t2.
Proof. apply List.flat_map_app. Qed.

Lemma printed_app t1 t2 : printed (t1 ++ t2) = printed t1 ++ printed t2.
Proof. apply List.flat_map_app. Qed.

Lemma calls_lift (t : list event) : calls (List.map Call t) = t.
Proof.
  induction t as [|ev t IH]; [reflexivity|].
  change (calls (List.map Call (ev :: t)))
    with (ev :: calls (List.map Call t)).
  rewrite IH. reflexivity.
Qed.

Lemma removed_lift (t : list event) : removed (List.map Call t) = [].
Proof. induction t as [|ev t IH]; [reflexivity|exact IH]. Qed.

Lemma printed_lift (t : list event) : printed (List.map Call t) = [].
Proof. induction t as [|ev t IH]; [reflexivity|exact IH]. Qed.

Lemma only_prints_app t1 t2 :
  only_prints t1 -> only_prints t2 -> only_prints (t1 ++ t2).
Proof.
  intros [Hc1 Hr1] [Hc2 Hr2]. split.
  - rewrite calls_app, Hc1, Hc2. reflexivity.
  - rewrite removed_app, Hr1, Hr2. reflexivity.
Qed.

Lemma only_prints_and_then {A B} (m : P A) (k : A -> P B) :
  only_prints (snd m) -> (forall a, only_prints (snd (k a))) ->
  only_prints (snd (and_then m k)).
Proof.
  intros Hm Hk. rewrite snd_and_then. apply only_prints_app; [exact Hm|].
  destruct (fst m); [split; reflexivity|apply Hk].
Qed.

Lemma only_prints_item d key : only_prints (snd (item d key)).
Proof.
  unfold item, lift, getitem. destruct (d !! key); split; reflexivity.
Qed.

Lemma only_prints_print text : only_prints (snd (print text)).
Proof. split; reflexivity. Qed.

Lemma only_prints_done {A} (a : A) : only_prints (snd (done a)).
Proof. split; reflexivity. Qed.

Ltac only_prints :=
  repeat first
    [ apply only_prints_item
    | apply only_prints_print
    | apply only_prints_done
    | apply only_prints_and_then; [|intros ?]
    | match goal with
      | |- only_prints (snd (if ?b then _ else _)) => destruct b
      end ].

Lemma only_prints_summary summary : only_prints (snd (print_summary summary)).
Proof. unfold print_summary. only_prints. Qed.

Lemma only_prints_each summaries :
  only_prints (snd (each summaries print_summary)).
Proof.
  induction summaries as [|s summaries IH]; [split; reflexivity|].
  cbn [each]. apply only_prints_and_then; [apply only_prints_summary|].
  intros _. exact IH.
Qed.

Lemma only_prints_results summaries total_files :
  only_prints (snd (print_results summaries total_files)).
Proof.
  unfold print_results. only_prints. apply only_prints_each.
Qed.

Section WithWorld.
Variable w : World.
Variable h : Host.

Lemma init_eq :
  __init__ w h
  = match makedirs h (cache_dir w), load_model h with
    | Some e, _ => (inl e, [Makedirs (cache_dir w)])
    | None, Some e => (inl e, [Makedirs (cache_dir w); LoadModel])
    | None, None =>
        (inr {| temp_dir := None; repo_path := None |},
         [Makedirs (cache_dir w); LoadModel])
    end.
Proof.
  unfold __init__. pstep.
  destruct (makedirs h (cache_dir w)); [reflexivity|].
  destruct (load_model h); pstep; reflexivity.
Qed.

Lemma cleanup_eq self :
  cleanup h self
  = (inr tt,
     match temp_dir self with
     | Some dir =>
         if nonempty dir && path_exists h dir then [Rmtree dir] else []
     | None => []
     end).
Proof.
  unfold cleanup. destruct (temp_dir self) as [dir|]; [|reflexivity].
  destruct (nonempty dir && path_exists h dir); [|reflexivity].
  pstep. destruct (rmtree h dir); pstep; reflexivity.
Qed.

Lemma with_scraper_eq {A} (blk : scraper -> scraper * P A) :
  with_scraper w h blk
  = match __init__ w h with
    | (inl e, t) => (inl e, t)
    | (inr scraper, t) =>
        (fst (snd (blk scraper)),
         t ++ snd (snd (blk scraper)) ++ snd (cleanup h (fst (blk scraper))))
    end.
Proof.
  unfold with_scraper, __enter__, __exit__.
  destruct (__init__ w h) as [[e|scraper] t]; [reflexivity|].
  rewrite and_then_inr.
  destruct (blk scraper) as [scraper' [[e|a] t']]; cbn [fst snd];
    rewrite cleanup_eq; pstep; rewrite ?app_nil_r; reflexivity.
Qed.

Lemma main_try_eq repo_url cache :
  main_try w h repo_url cache
  = match __init__ w h with
    | (inl e, t) => (inl e, Input "Enter GitHub repository URL: " :: t)
    | (inr scraper, t) =>
        (fst (snd (block w repo_url cache scraper)),
         Input "Enter GitHub repository URL: " :: t
         ++ snd (snd (block w repo_url cache scraper))
         ++ snd (cleanup h (fst (block w repo_url cache scraper))))
    end.
Proof.
  unfold main_try. pstep. rewrite with_scraper_eq.
  destruct (__init__ w h) as [[e|scraper] t]; reflexivity.
Qed.

(** The block of [main]: the clone, the analysis, the prints. *)
Lemma block_eq repo_url cache scraper :
  let cloned := fst (clone_repository w scraper repo_url) in
  let cloning := snd (clone_repository w scraper repo_url) in
  let analysis := analyze_repository w cloned cache repo_url in
  block w repo_url cache scraper
  = (cloned,
     match result cloning with
     | inl e => (inl e, List.map Call (trace cloning))
     | inr _ =>
         match result analysis with
         | inl e =>
             (inl e,
              List.map Call (trace cloning) ++ List.map Call (trace analysis))
         | inr (summaries, total_files) =>
             (fst (print_results summaries total_files),
              List.map Call (trace cloning) ++ List.map Call (trace analysis)
              ++ snd (print_results summaries total_files))
         end
     end).
Proof.
  cbv zeta. unfold block.
  destruct (clone_repository w scraper repo_url) as [cloned [r t]].
  cbn [fst snd result trace]. f_equal. unfold lift. cbn [fst snd].
  destruct r as [e|[]]; [reflexivity|]. rewrite and_then_inr.
  destruct (analyze_repository w cloned cache repo_url)
    as [[e|[summaries total_files]] t']; cbn [fst snd].
  - rewrite and_then_inl. reflexivity.
  - rewrite and_then_inr. reflexivity.
Qed.

End WithWorld.

(** The actions before the block of [main] are no call, no removal and no
    print. *)
Lemma printed_setup prompt dir t :
  printed (Input prompt :: [Makedirs dir; LoadModel] ++ t) = printed t.
Proof. reflexivity. Qed.

Lemma calls_setup prompt dir t :
  calls (Input prompt :: [Makedirs dir; LoadModel] ++ t) = calls t.
Proof. reflexivity. Qed.

Lemma removed_setup prompt dir t :
  removed (Input prompt :: [Makedirs dir; LoadModel] ++ t) = removed t.
Proof. reflexivity. Qed.

Section WithWorld.
Variable w : World.
Variable h : Host.

Lemma main_eq repo_url cache :
  main w h repo_url cache
  = (inr tt,
     snd (main_try w h repo_url cache)
     ++ match fst (main_try w h repo_url cache) with
        | inl e => [Print (error_line e)]
        | inr _ => []
        end).
Proof.
  unfold main. rewrite (P_eta (main_try w h repo_url cache)).
  cbn [fst snd]. destruct (fst (main_try w h repo_url cache)) as [e|[]].
  - rewrite or_else_inl. reflexivity.
  - rewrite or_else_inr, app_nil_r. reflexivity.
Qed.

(** The block of [main] removes nothing. *)
Lemma block_removes_nothing repo_url cache scraper :
  removed (snd (snd (block w repo_url cache scraper))) = [].
Proof.
  pose proof (block_eq w repo_url cache scraper) as Heq. cbv zeta in Heq.
  rewrite Heq. cbn [snd].
  destruct (result (snd (clone_repository w scraper repo_url)));
    [apply removed_lift|].
  destruct (result (analyze_repository w _ cache repo_url))
    as [e|[summaries total_files]]; cbn [snd];
    rewrite !removed_app, !removed_lift; [reflexivity|].
  apply only_prints_results.
Qed.

(** The outcome of a run and what its [try] block returns and prints. *)
Lemma main_try_outcome repo_url cache :
  fst (main_try w h repo_url cache)
  = match outcome w h repo_url cache with
    | inl e => inl e
    | inr (summaries, total_files) =>
        fst (print_results summaries total_files)
    end
  /\ printed (snd (main_try w h repo_url cache))
     = match outcome w h repo_url cache with
       | inl e => []
       | inr (summaries, total_files) =>
           printed (snd (print_results summaries total_files))
       end.
Proof.
  rewrite main_try_eq. unfold outcome.
  rewrite init_eq.
  destruct (makedirs h (cache_dir w)); [split; reflexivity|].
  destruct (load_model h); [split; reflexivity|].
  cbn [fst snd].
  pose proof (block_eq w repo_url cache
                {| temp_dir := None; repo_path := None |}) as Heq.
  cbv zeta in Heq. rewrite Heq. clear Heq. cbn [fst snd].
  rewrite cleanup_eq. cbn [snd].
  destruct (clone_repository w _ repo_url) as [cloned [r t]].
  cbn [fst snd result trace].
  assert (printed
            match temp_dir cloned with
            | Some dir =>
                if nonempty dir && path_exists h dir
                then [Rmtree dir] else []
            | None => []
            end = []) as Hclean.
  { destruct (temp_dir cloned) as [dir|]; [|reflexivity].
    destruct (nonempty dir && path_exists h dir); reflexivity. }
  destruct r as [e|[]].
  { cbn [snd]. split; [reflexivity|].
    rewrite printed_setup, printed_app, printed_lift, Hclean.
    reflexivity. }
  destruct (analyze_repository w cloned cache repo_url)
    as [[e|[summaries total_files]] t']; cbn [fst snd result trace].
  - split; [reflexivity|].
    rewrite printed_setup, !printed_app, !printed_lift, Hclean.
    reflexivity.
  - split; [reflexivity|].
    rewrite printed_setup, !printed_app, !printed_lift, Hclean.
    cbn [app]. rewrite app_nil_r. reflexivity.
Qed.

(** The calls of a run: those of the clone, then those of the analysis. *)
Lemma main_calls repo_url cache :
  calls (snd (main w h repo_url cache))
  = match fst (__init__ w h) with
    | inl _ => []
    | inr scraper =>
        let cloned := fst (clone_repository w scraper repo_url) in
        let cloning := snd (clone_repository w scraper repo_url) in
        trace cloning
        ++ match result cloning with
           | inl _ => []
           | inr _ => trace (analyze_repository w cloned cache repo_url)
           end
    end.
Proof.
  rewrite main_eq. cbn [snd]. rewrite calls_app.
  assert (calls match fst (main_try w h repo_url cache) with
                | inl e => [Print (error_line e)]
                | inr _ => []
                end = []) as ->.
  { destruct (fst (main_try w h repo_url cache)); reflexivity. }
  rewrite app_nil_r, main_try_eq, init_eq.
  destruct (makedirs h (cache_dir w)); [reflexivity|].
  destruct (load_model h); [reflexivity|].
  cbn [fst snd]. cbv zeta.
  pose proof (block_eq w repo_url cache
                {| temp_dir := None; repo_path := None |}) as Heq.
  cbv zeta in Heq. rewrite Heq. clear Heq. cbn [fst snd].
  rewrite cleanup_eq. cbn [snd].
  rewrite calls_setup, calls_app.
  assert (calls match temp_dir (fst (clone_repository w
                                       {| temp_dir := None;
                                          repo_path := None |} repo_url)) with
                | Some dir =>
                    if nonempty dir && path_exists h dir
                    then [Rmtree dir] else []
                | None => []
                end = []) as ->.
  { destruct (temp_dir _) as [dir|]; [|reflexivity].
    destruct (nonempty dir && path_exists h dir); reflexivity. }
  rewrite app_nil_r.
  destruct (result (snd (clone_repository w _ repo_url))).
  { cbn [snd]. rewrite calls_lift, app_nil_r. reflexivity. }
  destruct (result (analyze_repository w _ cache repo_url))
    as [e|[summaries total_files]]; cbn [snd];
    rewrite !calls_app, !calls_lift; [reflexivity|].
  destruct (only_prints_results summaries total_files) as [-> _].
  rewrite app_nil_r. reflexivity.
Qed.

End WithWorld.

(** X25. [main] removes the temporary directory that it created, whatever
    happens after its creation: when the constructor succeeds and
    [mkdtemp] gives a directory, which exists at the end, the run removes
    that directory exactly once, whether the clone, the analysis or the
    printing raised or not, and after the removal it makes no call of the
    pipeline: all that can follow is the line of the error. *)
Theorem temporary_directory_is_removed w h repo_url cache dir :
  makedirs h (cache_dir w) = None ->
  load_model h = None ->
  mkdtemp w = inr dir ->
  nonempty dir = true ->
  path_exists h dir = true ->
  exists before after,
    snd (main w h repo_url cache) = before ++ Rmtree dir :: after
    /\ removed before = []
    /\ removed after = []
    /\ calls after = []
    /\ length after <= 1.
Proof.
  intros Hmakedirs Hload Hmkdtemp Hdir Hexists.
  rewrite main_eq, main_try_eq, init_eq, Hmakedirs, Hload. cbn [fst snd].
  set (fresh := {| temp_dir := None; repo_path := None |}).
  assert (temp_dir (fst (block w repo_url cache fresh)) = Some dir) as Htemp.
  { pose proof (block_eq w repo_url cache fresh) as Heq. cbv zeta in Heq.
    rewrite Heq. cbn [fst]. unfold clone_repository. rewrite Hmkdtemp.
    destruct (clone_from w repo_url dir); reflexivity. }
  rewrite cleanup_eq, Htemp, Hdir, Hexists. cbn [snd andb].
  exists (Input "Enter GitHub repository URL: "
          :: [Makedirs (cache_dir w); LoadModel]
          ++ snd (snd (block w repo_url cache fresh))).
  exists (match fst (snd (block w repo_url cache fresh)) with
          | inl e => [Print (error_line e)]
          | inr _ => []
          end).
  split; [|split; [|split; [|split]]].
  - cbn [app]. rewrite <- !app_assoc. reflexivity.
  - rewrite removed_setup. apply block_removes_nothing.
  - destruct (fst (snd (block w repo_url cache fresh))); reflexivity.
  - destruct (fst (snd (block w repo_url cache fresh))); reflexivity.
  - destruct (fst (snd (block w repo_url cache fresh))); cbn; lia.
Qed.

(** X25 (witness): the analysis raises on an unreadable file; the
    directory is removed all the same. *)
Lemma temporary_directory_is_removed_witness :
  exists before after,
    snd (main Fixture.failing_first sound_host Fixture.URL ∅)
    = before ++ Rmtree Fixture.TOP :: after
    /\ removed before = []
    /\ removed after = []
    /\ calls after = []
    /\ length after <= 1.
Proof.
  apply (temporary_directory_is_removed Fixture.failing_first sound_host
           Fixture.URL ∅ Fixture.TOP); reflexivity.
Defined.

(** X26. [main] shows a result or an error, never a part of a result
    followed by an error of the pipeline: when the constructor, the clone
    or the analysis raises, the only text the run prints is the line
    [An error occurred:] with the message of the exception, and [main]
    itself returns. *)
Theorem failed_run_prints_the_error_only w h repo_url cache e :
  outcome w h repo_url cache = inl e ->
  main w h repo_url cache
  = (inr tt, snd (main_try w h repo_url cache) ++ [Print (error_line e)])
  /\ printed (snd (main w h repo_url cache)) = [error_line e].
Proof.
  intros Hout.
  destruct (main_try_outcome w h repo_url cache) as [Hfst Hprinted].
  rewrite Hout in Hfst, Hprinted.
  rewrite main_eq, Hfst. split; [reflexivity|].
  cbn [snd]. rewrite printed_app, Hprinted. reflexivity.
Qed.

(** X26 (witness): a repository whose first file cannot be read; the run
    prints the message of the [KeyError]. *)
Lemma failed_run_prints_the_error_only_witness :
  main Fixture.failing_first sound_host Fixture.URL ∅
  = (inr tt,
     snd (main_try Fixture.failing_first sound_host Fixture.URL ∅)
     ++ [Print (error_line (KeyError "is_text"))])
  /\ printed (snd (main Fixture.failing_first sound_host Fixture.URL ∅))
     = ["
An error occurred: 'is_text'"].
Proof.
  apply (failed_run_prints_the_error_only Fixture.failing_first sound_host
           Fixture.URL ∅ (KeyError "is_text")).
  vm_compute. reflexivity.
Defined.

(** X27. [main] clones before it looks at the cache. On a warm cache a
    run whose constructor succeeds still clones the repository: its calls
    are the clone and then the read of the cache file, and nothing of the
    clone is looked at. When the clone raises, the cache is not read and
    the stored result is not shown: the run prints the error line
    only. *)
Theorem warm_cache_does_not_save_the_clone
    w h self repo_url cache dir summaries total_files :
  makedirs h (cache_dir w) = None ->
  load_model h = None ->
  mkdtemp w = inr dir ->
  cache !! cache_file_of w self repo_url
  = Some (JsonDoc (Some summaries) (Some total_files)) ->
  match clone_from w repo_url dir with
  | None =>
      calls (snd (main w h repo_url cache))
      = [EvClone repo_url dir; EvCacheRead (cache_file_of w self repo_url)]
      /\ outcome w h repo_url cache = inr (summaries, total_files)
  | Some e =>
      calls (snd (main w h repo_url cache)) = [EvClone repo_url dir]
      /\ printed (snd (main w h repo_url cache)) = [error_line e]
  end.
Proof.
  intros Hmakedirs Hload Hmkdtemp Hhit.
  pose proof (main_calls w h repo_url cache) as Hcalls.
  pose proof (main_try_outcome w h repo_url cache) as [Hfst Hprinted].
  unfold outcome in *. rewrite init_eq, Hmakedirs, Hload in *.
  cbn [fst] in *. cbv zeta in Hcalls.
  unfold clone_repository in *. rewrite Hmkdtemp in *.
  destruct (clone_from w repo_url dir) as [e|]; cbn [fst snd result trace] in *.
  - split; [exact Hcalls|].
    rewrite main_eq, Hfst. cbn [snd]. rewrite printed_app, Hprinted.
    reflexivity.
  - rewrite (analyze_repository_hit w
               {| temp_dir := Some dir; repo_path := Some dir |}
               cache repo_url summaries total_files Hhit) in *.
    split; [exact Hcalls|reflexivity].
Qed.

(** X27 (witness): a warm cache and a clone that fails. *)
Lemma warm_cache_does_not_save_the_clone_witness :
  calls (snd (main offline sound_host Fixture.URL Fixture.warm_cache))
  = [EvClone Fixture.URL Fixture.TOP]
  /\ printed (snd (main offline sound_host Fixture.URL Fixture.warm_cache))
     = [error_line
          (Exn "GitCommandError" "Cmd('git') failed due to: exit code(128)")].
Proof.
  apply (warm_cache_does_not_save_the_clone offline sound_host Fixture.fresh
           Fixture.URL Fixture.warm_cache Fixture.TOP
           [Fixture.stored_record] 1); reflexivity.
Defined.

(** *** The prints of a fresh result *)

Lemma item_some (d : pydict) key v :
  d !! key = Some v -> item d key = (inr v, []).
Proof. unfold item, lift, getitem. intros ->. reflexivity. Qed.

Lemma has_key_some (d : pydict) key v : d !! key = Some v -> has_key d key = true.
Proof.
  intros Hkey. unfold has_key. apply bool_decide_eq_true_2.
  rewrite Hkey. eauto.
Qed.

Lemma has_key_none (d : pydict) key : d !! key = None -> has_key d key = false.
Proof.
  intros Hkey. unfold has_key. apply bool_decide_eq_false_2.
  rewrite Hkey. intros [? ?]. discriminate.
Qed.

(** [print_summary] does not raise on a record that has a path and a
    summary and, unless its path is [REPOSITORY_SUMMARY], a type, a size
    and the field [is_text]. *)
Lemma print_summary_returns summary path :
  summary !! "path" = Some path ->
  is_Some (summary !! "summary") ->
  (App.py_eq path (VStr REPOSITORY_SUMMARY) = false ->
   is_Some (summary !! "type") /\ is_Some (summary !! "size")
   /\ is_Some (summary !! "is_text")) ->
  fst (print_summary summary) = inr tt.
Proof.
  intros Hpath [text Htext] Hfile. unfold print_summary.
  rewrite fst_and_then, (item_some _ _ _ Hpath). cbn [fst].
  destruct (App.py_eq path (VStr REPOSITORY_SUMMARY)).
  { repeat (rewrite fst_and_then; rewrite ?(item_some _ _ _ Htext);
            cbn [fst print act]).
    reflexivity. }
  destruct (Hfile eq_refl) as ([type Htype] & [size Hsize] & [is_text His]).
  destruct (summary !! "language") as [language|] eqn:Hlanguage;
    [rewrite (has_key_some _ _ _ Hlanguage)
    |rewrite (has_key_none _ _ Hlanguage)];
    (destruct (summary !! "loc") as [loc|] eqn:Hloc;
     [rewrite (has_key_some _ _ _ Hloc)|rewrite (has_key_none _ _ Hloc)]);
    (destruct (summary !! "error") as [error|] eqn:Herror;
     [rewrite (has_key_some _ _ _ Herror)
     |rewrite (has_key_none _ _ Herror)]);
    repeat (rewrite fst_and_then;
            rewrite ?(item_some _ _ _ Hpath), ?(item_some _ _ _ Htext),
              ?(item_some _ _ _ Htype), ?(item_some _ _ _ Hsize),
              ?(item_some _ _ _ His), ?(item_some _ _ _ Hlanguage),
              ?(item_some _ _ _ Hloc), ?(item_some _ _ _ Herror);
            cbn [fst print act done];
            try match goal with
                | |- context [if truthy ?v then _ else _] =>
                    destruct (truthy v)
                end);
    rewrite ?(item_some _ _ _ Herror); reflexivity.
Qed.

Lemma each_returns {A} (body : A -> P unit) l :
  Forall (fun x => fst (body x) = inr tt) l ->
  fst (each l body) = inr tt
  /\ printed (snd (each l body))
     = List.flat_map (fun x => printed (snd (body x))) l.
Proof.
  induction 1 as [|x l Hx _ [IHfst IHsnd]]; [split; reflexivity|].
  cbn [each List.flat_map]. rewrite (P_eta (body x)), Hx, and_then_inr.
  cbn [fst snd]. rewrite printed_app, IHsnd. split; [exact IHfst|reflexivity].
Qed.

Lemma print_results_returns summaries total_files :
  Forall (fun s => fst (print_summary s) = inr tt) summaries ->
  fst (print_results summaries total_files) = inr tt
  /\ printed (snd (print_results summaries total_files))
     = [String NL "Analyzed " +:+ str_nat total_files +:+ " files";
        String NL "Repository Analysis Results:";
        times "=" 80]
       ++ List.flat_map (fun s => printed (snd (print_summary s))) summaries.
Proof.
  intros Hall. destruct (each_returns print_summary summaries Hall)
    as [Hfst Hsnd].
  unfold print_results, print, act. rewrite !and_then_inr.
  cbn [fst snd app]. split; [exact Hfst|].
  change (printed (Print ?a :: Print ?b :: Print ?c :: ?l))
    with (a :: b :: c :: printed l).
  rewrite Hsnd. reflexivity.
Qed.

(** X28. The records of a fresh result are records that [main] can print:
    for a run whose constructor and clone succeed, on a cache miss, with a
    batch that is not empty and in which no file fails, no lookup of the
    printing loop raises, and the run prints the three lines of the header
    (with the number of files) and then, for every record of the result in
    order, what [print_summary] prints for it, and no error line. *)
Theorem fresh_result_is_printed_in_full w h self repo_url cache dir :
  makedirs h (cache_dir w) = None ->
  load_model h = None ->
  mkdtemp w = inr dir ->
  nonempty dir = true ->
  clone_from w repo_url dir = None ->
  cache_miss w self cache repo_url ->
  kept w (candidates w dir) <> [] ->
  existsb (has_error w) (kept w (candidates w dir)) = false ->
  let cloned := {| temp_dir := Some dir; repo_path := Some dir |} in
  let files := kept w (candidates w dir) in
  let summaries :=
    List.map (record_of w cloned) files
    ++ [repository_record
          (repo_summary_of w (List.map (content_of w) files))] in
  outcome w h repo_url cache = inr (summaries, length files)
  /\ Forall (fun s => fst (print_summary s) = inr tt) summaries
  /\ printed (snd (main w h repo_url cache))
     = [String NL "Analyzed " +:+ str_nat (length files) +:+ " files";
        String NL "Repository Analysis Results:";
        times "=" 80]
       ++ List.flat_map (fun s => printed (snd (print_summary s))) summaries.
Proof.
  intros Hmakedirs Hload Hmkdtemp Hdir Hclone Hmiss Hne Hok
    cloned files summaries.
  assert (cloned_path cloned = Some dir) as Htop.
  { unfold cloned_path. cbn [repo_path cloned]. rewrite Hdir. reflexivity. }
  assert (outcome w h repo_url cache = inr (summaries, length files))
    as Hout.
  { unfold outcome. rewrite init_eq, Hmakedirs, Hload. cbn [fst].
    unfold clone_repository. rewrite Hmkdtemp, Hclone. cbn [fst emit].
    fold cloned.
    rewrite (analyze_repository_miss_eq w cloned cache repo_url dir
               Hmiss Htop).
    cbv zeta. fold files. fold files in Hok, Hne. rewrite Hok.
    destruct files; [contradiction|]. reflexivity. }
  assert (Forall (fun s => fst (print_summary s) = inr tt) summaries)
    as Hall.
  { apply Forall_app_2.
    - pose proof (no_error_files w files Hok) as Hfiles.
      apply List.Forall_forall. intros s Hin.
      apply List.in_map_iff in Hin. destruct Hin as (p & <- & Hin).
      rewrite List.Forall_forall in Hfiles. specialize (Hfiles p Hin).
      destruct (record_of_fields w cloned p Hfiles) as (Hpath & Hsize & _).
      destruct (record_of_type_and_summary w cloned p Hfiles)
        as [Htype Hsummary].
      destruct (record_of_is_text w cloned p Hfiles) as [His_text _].
      apply (print_summary_returns _ _ Hpath Hsummary).
      intros _. repeat split; eauto.
    - constructor; [|constructor]. reflexivity. }
  split; [exact Hout|]. split; [exact Hall|].
  destruct (main_try_outcome w h repo_url cache) as [Hfst Hprinted].
  rewrite Hout in Hfst, Hprinted.
  destruct (print_results_returns summaries (length files) Hall)
    as [Hreturns Hlines].
  rewrite main_eq, Hfst, Hreturns. cbn [snd].
  rewrite app_nil_r, Hprinted. exact Hlines.
Qed.

(** X28 (witness): the repository of a file of ten lines and one of
    four. *)
Lemma fresh_result_is_printed_in_full_witness :
  let w := Fixture.large_and_small in
  let cloned :=
    {| temp_dir := Some Fixture.TOP; repo_path := Some Fixture.TOP |} in
  let files := kept w (candidates w Fixture.TOP) in
  let summaries :=
    List.map (record_of w cloned) files
    ++ [repository_record
          (repo_summary_of w (List.map (content_of w) files))] in
  outcome w sound_host Fixture.URL ∅ = inr (summaries, length files)
  /\ Forall (fun s => fst (print_summary s) = inr tt) summaries
  /\ printed (snd (main w sound_host Fixture.URL ∅))
     = [String NL "Analyzed " +:+ str_nat (length files) +:+ " files";
        String NL "Repository Analysis Results:";
        times "=" 80]
       ++ List.flat_map (fun s => printed (snd (print_summary s))) summaries.
Proof.
  apply (fresh_result_is_printed_in_full Fixture.large_and_small sound_host
           Fixture.fresh Fixture.URL ∅ Fixture.TOP);
    first [reflexivity | vm_compute; discriminate].
Defined.
